(** * Selective-diff protocol of the LaTeX editor: parser, applicator,
      validator, document store and undo log

    Shallow embedding of [src/lib/latexDiff.js] and of the document store
    [simpleAgent.js] (the module that imports [./latexDiff.js] and keeps
    [documentContent], [changeCallback] and [undoHistory]).

    Conventions of the embedding.
    - A JavaScript string is a [string]: a sequence of code units, here the
      code units 0..255.  Within that range the class [\s] of regular
      expressions and the characters stripped by [trim] are the same seven
      code units (TAB, LF, VT, FF, CR, SPACE, NBSP).
    - A JavaScript number is NaN, an infinity, or an exact decimal
      [m / 10^k]; the numbers this code computes with are integers
      ([parseInt] results, array lengths, [± 1]), written [VInt z].
      IEEE-754 rounding of values beyond 2^53 is not modelled.
    - Module-level [let] variables become the fields of a state record that
      every operation takes and returns; the observer callback is modelled
      by the trace of the values it has been called with. *)

From Stdlib Require Import ZArith Ascii String Lia.
From stdpp Require Import base list sorting strings gmap.

Local Open Scope Z_scope.

(** ** Strings *)

Module JsString.

(** Line feed, the separator of [split('\n')] and [join('\n')]. *)
Definition LF : ascii := "010"%char.
Definition nl : string := String LF "".

(** WhiteSpace ∪ LineTerminator on the code units 0..255: the class [\s]
    and the set removed by [String.prototype.trim]. *)
Definition is_space (c : ascii) : bool :=
  match c with
  | "009" | "010" | "011" | "012" | "013" | "032" | "160" => true
  | _ => false
  end%char.

(** LineTerminator: the characters [.] does not match. *)
Definition is_line_terminator (c : ascii) : bool :=
  match c with
  | "010" | "013" => true
  | _ => false
  end%char.

(** [s.split(c)] for a one-character separator: never empty,
    [''.split(c)] is [['']]. *)
Fixpoint split_char (sep : ascii) (s : string) : list string :=
  match s with
  | EmptyString => [EmptyString]
  | String c s' =>
      if Ascii.eqb c sep then EmptyString :: split_char sep s'
      else match split_char sep s' with
           | w :: ws => String c w :: ws
           | [] => [String c EmptyString]
           end
  end.

(** [l.join(sep)]. *)
Fixpoint join (sep : string) (l : list string) : string :=
  match l with
  | [] => ""
  | [x] => x
  | x :: xs => x +:+ sep +:+ join sep xs
  end.

(** [s.split(/\s+/)]: the pieces between maximal runs of white space;
    a leading or trailing run leaves an empty first or last piece.
    [in_sep] tells that the previous character belonged to a run. *)
Fixpoint split_ws (in_sep : bool) (s : string) : list string :=
  match s with
  | EmptyString => [EmptyString]
  | String c s' =>
      if is_space c then
        if in_sep then split_ws true s' else EmptyString :: split_ws true s'
      else match split_ws false s' with
           | w :: ws => String c w :: ws
           | [] => [String c EmptyString]
           end
  end.

Fixpoint trimStart (s : string) : string :=
  match s with
  | String c s' => if is_space c then trimStart s' else s
  | EmptyString => EmptyString
  end.

Fixpoint trimEnd (s : string) : string :=
  match s with
  | EmptyString => EmptyString
  | String c s' =>
      match trimEnd s' with
      | EmptyString => if is_space c then EmptyString else String c EmptyString
      | t => String c t
      end
  end.

(** [s.trim()]. *)
Definition trim (s : string) : string := trimEnd (trimStart s).

(** [s.startsWith(p)], with the rest of [s] when it does. *)
Fixpoint strip_prefix (p s : string) : option string :=
  match p, s with
  | EmptyString, _ => Some s
  | String a p', String b s' => if Ascii.eqb b a then strip_prefix p' s' else None
  | String _ _, EmptyString => None
  end.

(** The first [n] characters of [s]. *)
Fixpoint take_str (n : nat) (s : string) : string :=
  match n, s with
  | S n', String c s' => String c (take_str n' s')
  | _, _ => EmptyString
  end.

(** The text of [s] consumed when [rest] is what remains of it. *)
Definition consumed (s rest : string) : string :=
  take_str (String.length s - String.length rest) s.

End JsString.

(** ** Regular expressions *)

(** The backtracking matcher of ECMAScript for the constructs that the
    patterns of [latexDiff.js] use: single characters and character
    classes, greedy and lazy [*] over a class, capture groups and
    sequencing.  A match is searched at successive start positions; at one
    position the alternatives are tried in the priority order of the
    language (greedy: longest first, lazy: shortest first). *)
Module Regex.
Import JsString.

Inductive cclass : Type :=
| CChar (c : ascii)   (* the character itself *)
| CSpace              (* \s *)
| CDot                (* .  : anything but a line terminator *)
| CAll.               (* [\s\S] *)

Definition cmatch (cl : cclass) (c : ascii) : bool :=
  match cl with
  | CChar d => Ascii.eqb c d
  | CSpace => is_space c
  | CDot => negb (is_line_terminator c)
  | CAll => true
  end.

Inductive regex : Type :=
| REps
| RSet (cl : cclass)
| RStar (greedy : bool) (cl : cclass)
| RSeq (r1 r2 : regex)
| RGroup (r : regex).

(** A literal piece of pattern text. *)
Fixpoint RLit (s : string) : regex :=
  match s with
  | EmptyString => REps
  | String c s' => RSeq (RSet (CChar c)) (RLit s')
  end.

Section Matcher.
Context {R : Type}.

(** [cl*]: as many characters as possible, giving back one at a time. *)
Fixpoint star_greedy (cl : cclass) (s : string) (k : string -> option R) : option R :=
  match s with
  | String c s' =>
      if cmatch cl c then
        match star_greedy cl s' k with
        | Some r => Some r
        | None => k s
        end
      else k s
  | EmptyString => k s
  end.

(** [cl*?]: as few characters as possible, taking one more at a time. *)
Fixpoint star_lazy (cl : cclass) (s : string) (k : string -> option R) : option R :=
  match k s with
  | Some r => Some r
  | None =>
      match s with
      | String c s' => if cmatch cl c then star_lazy cl s' k else None
      | EmptyString => None
      end
  end.

(** [rmatch r s caps k]: match [r] at the head of [s], then continue
    with [k] on the rest; [caps] are the groups captured so far, in
    the order of their opening parentheses. *)
Fixpoint rmatch (r : regex) (s : string) (caps : list string)
         (k : string -> list string -> option R) : option R :=
  match r with
  | REps => k s caps
  | RSet cl =>
      match s with
      | String c s' => if cmatch cl c then k s' caps else None
      | EmptyString => None
      end
  | RStar greedy cl =>
      (if greedy then star_greedy else star_lazy) cl s (fun s' => k s' caps)
  | RSeq r1 r2 => rmatch r1 s caps (fun s' caps' => rmatch r2 s' caps' k)
  | RGroup r1 =>
      rmatch r1 s caps (fun s' caps' => k s' (caps' ++ [consumed s s']))
  end.
End Matcher.

(** Result of [exec]: [match[0]], the capture groups [match[1..]], and
    the text from [lastIndex] on. *)
Record rmatch_result : Type := MatchResult {
  matched : string;
  groups : list string;
  rest : string
}.

(** A match at the head of [s]. *)
Definition match_here (r : regex) (s : string) : option rmatch_result :=
  rmatch r s [] (fun s' caps => Some (MatchResult (consumed s s') caps s')).

(** [r.exec(s)] for a global regex whose [lastIndex] is the start of
    [s]: the leftmost position with a match. *)
Fixpoint exec (r : regex) (s : string) : option rmatch_result :=
  match match_here r s with
  | Some m => Some m
  | None =>
      match s with
      | String _ s' => exec r s'
      | EmptyString => None
      end
  end.

(** [r.test(s)] on a fresh regex. *)
Definition test (r : regex) (s : string) : bool :=
  match exec r s with Some _ => true | None => false end.

End Regex.

(** ** The two patterns about patch blocks *)

Module Patterns.
Import JsString Regex.

Definition fence_open : string := "```latex-diff".

(** [/```latex-diff\s*\n@@\s*(.*?)\s*@@\s*\n([\s\S]*?)```/g] *)
Definition blockRegex : regex :=
  RSeq (RLit fence_open)
 (RSeq (RStar true CSpace)
 (RSeq (RSet (CChar LF))
 (RSeq (RLit "@@")
 (RSeq (RStar true CSpace)
 (RSeq (RGroup (RStar false CDot))
 (RSeq (RStar true CSpace)
 (RSeq (RLit "@@")
 (RSeq (RStar true CSpace)
 (RSeq (RSet (CChar LF))
 (RSeq (RGroup (RStar false CAll))
       (RLit "```"))))))))))).

(** [/```latex-diff\s*\n@@.*?@@/g] *)
Definition markerRegex : regex :=
  RSeq (RLit fence_open)
 (RSeq (RStar true CSpace)
 (RSeq (RSet (CChar LF))
 (RSeq (RLit "@@")
 (RSeq (RStar false CDot)
       (RLit "@@"))))).

End Patterns.

(** ** Numbers and values *)

Module JsValue.
Import JsString.

(** A Number: NaN, an infinity (with its sign), or the decimal
    [m / 10^k].  The zero of either sign is [Dec 0 k]. *)
Inductive jsnum : Type :=
| NaN
| Inf (negative : bool)
| Dec (m : Z) (k : nat).

(** The values that reach the fields of a patch record. *)
Inductive jsval : Type :=
| VUndefined
| VNumber (n : jsnum)
| VString (s : string).

Abbreviation VInt z := (VNumber (Dec z 0)).

Definition pow10 (k : nat) : Z := 10 ^ Z.of_nat k.

(** [m * 10^d], with no multiplication left when [d] is 0. *)
Definition scale (m : Z) (d : nat) : Z :=
  match d with
  | O => m
  | S _ => m * pow10 d
  end.

(** *** Reading numbers out of strings *)

(** Value of a digit or letter as a digit of a radix up to 16. *)
Definition digit_val (c : ascii) : option Z :=
  let n := Z.of_nat (nat_of_ascii c) in
  if (48 <=? n) && (n <=? 57) then Some (n - 48)
  else if (97 <=? n) && (n <=? 102) then Some (n - 87)
  else if (65 <=? n) && (n <=? 70) then Some (n - 55)
  else None.

Definition digit_in (radix : Z) (c : ascii) : option Z :=
  match digit_val c with
  | Some d => if d <? radix then Some d else None
  | None => None
  end.

(** The longest prefix of [s] made of digits of [radix]: its value on
    top of [acc], the number of digits read, and what follows. *)
Fixpoint read_digits (radix : Z) (s : string) (acc : Z) (cnt : nat)
  : Z * nat * string :=
  match s with
  | String c s' =>
      match digit_in radix c with
      | Some d => read_digits radix s' (acc * radix + d) (S cnt)
      | None => (acc, cnt, s)
      end
  | EmptyString => (acc, cnt, s)
  end.

(** An optional sign: [true] for [-], and the text after the sign. *)
Definition read_sign (s : string) : bool * string :=
  match s with
  | String "-" s' => (true, s')
  | String "+" s' => (false, s')
  | _ => (false, s)
  end.

Definition signed (neg : bool) (z : Z) : Z := if neg then - z else z.

(** [0x], [0o], [0b] literals: digits of the radix up to the end. *)
Definition non_decimal_literal (t : string) : option Z :=
  match t with
  | String "0" (String p body) =>
      let radix :=
        match p with
        | "x" | "X" => Some 16
        | "o" | "O" => Some 8
        | "b" | "B" => Some 2
        | _ => None
        end%char in
      match radix with
      | Some r =>
          match read_digits r body 0 0 with
          | (v, S _, EmptyString) => Some v
          | _ => None
          end
      | None => None
      end
  | _ => None
  end.

(** ExponentPart, or nothing, up to the end of the text. *)
Definition exponent_part (r : string) : option Z :=
  match r with
  | EmptyString => Some 0
  | String c r' =>
      if Ascii.eqb c "e" || Ascii.eqb c "E" then
        let '(neg, ds) := read_sign r' in
        match read_digits 10 ds 0 0 with
        | (v, S _, EmptyString) => Some (signed neg v)
        | _ => None
        end
      else None
  end.

(** StrDecimalLiteral: a sign, then [Infinity] or digits with an
    optional fraction and exponent. *)
Definition decimal_literal (t : string) : jsnum :=
  let '(neg, body) := read_sign t in
  if String.eqb body "Infinity" then Inf neg
  else
    let '(i, ni, r1) := read_digits 10 body 0 0 in
    let '(m, nf, r2) :=
      match r1 with
      | String "." r1' => read_digits 10 r1' i 0
      | _ => (i, O, r1)
      end in
    match (ni + nf)%nat, exponent_part r2 with
    | S _, Some e =>
        let sh := e - Z.of_nat nf in
        if 0 <=? sh then Dec (signed neg (scale m (Z.to_nat sh))) 0
        else Dec (signed neg m) (Z.to_nat (- sh))
    | _, _ => NaN
    end.

(** StringToNumber: [Number(s)] for a string [s]. *)
Definition StringToNumber (s : string) : jsnum :=
  let t := trim s in
  if String.eqb t "" then Dec 0 0
  else match non_decimal_literal t with
       | Some v => Dec v 0
       | None => decimal_literal t
       end.

(** [isNaN(s)] for a string [s]. *)
Definition isNaN (s : string) : bool :=
  match StringToNumber s with
  | NaN => true
  | _ => false
  end.

(** [parseInt(s)], no radix given: leading white space, a sign, an
    optional [0x], then the longest run of digits. *)
Definition parseInt (s : string) : jsnum :=
  let '(neg, body) := read_sign (trimStart s) in
  let '(radix, ds) :=
    match body with
    | String "0" (String "x" r) | String "0" (String "X" r) => (16, r)
    | _ => (10, body)
    end in
  match read_digits radix ds 0 0 with
  | (v, S _, _) => Dec (signed neg v) 0
  | (_, O, _) => NaN
  end.

(** *** Conversions *)

(** ToNumber. *)
Definition ToNumber (v : jsval) : jsnum :=
  match v with
  | VUndefined => NaN
  | VNumber n => n
  | VString s => StringToNumber s
  end.

(** ToBoolean. *)
Definition truthy (v : jsval) : bool :=
  match v with
  | VUndefined => false
  | VNumber NaN => false
  | VNumber (Inf _) => true
  | VNumber (Dec m _) => negb (m =? 0)
  | VString s => negb (String.eqb s "")
  end.

(** [a || b]. *)
Definition js_or (a b : jsval) : jsval := if truthy a then a else b.

(** ToIntegerOrInfinity: NaN becomes 0, a fraction is dropped. *)
Definition ToIntegerOrInfinity (n : jsnum) : jsnum :=
  match n with
  | NaN => Dec 0 0
  | Inf b => Inf b
  | Dec m O => Dec m 0
  | Dec m (S _ as k) => Dec (Z.quot m (pow10 k)) 0
  end.

(** *** Arithmetic and comparison *)

Definition num_neg (a : jsnum) : jsnum :=
  match a with
  | NaN => NaN
  | Inf b => Inf (negb b)
  | Dec m k => Dec (- m) k
  end.

Definition num_add (a b : jsnum) : jsnum :=
  match a, b with
  | NaN, _ | _, NaN => NaN
  | Inf x, Inf y => if Bool.eqb x y then Inf x else NaN
  | Inf x, Dec _ _ => Inf x
  | Dec _ _, Inf y => Inf y
  | Dec m1 k1, Dec m2 k2 =>
      let k := Nat.max k1 k2 in
      Dec (scale m1 (k - k1) + scale m2 (k - k2)) k
  end.

Definition num_sub (a b : jsnum) : jsnum := num_add a (num_neg b).

(** [a < b] on numbers: false as soon as one of them is NaN. *)
Definition num_ltb (a b : jsnum) : bool :=
  match a, b with
  | NaN, _ | _, NaN => false
  | Inf x, Inf y => x && negb y
  | Inf x, Dec _ _ => x
  | Dec _ _, Inf y => negb y
  | Dec m1 k1, Dec m2 k2 =>
      let k := Nat.max k1 k2 in
      scale m1 (k - k1) <? scale m2 (k - k2)
  end.

(** *** Number to string *)

Fixpoint digits_of_pos (fuel : nat) (z : Z) (acc : string) : string :=
  match fuel with
  | O => acc
  | S f =>
      let acc' := String (ascii_of_nat (Z.to_nat (48 + z mod 10))) acc in
      if z <? 10 then acc' else digits_of_pos f (z / 10) acc'
  end.

(** The decimal digits of [z >= 0]. *)
Definition digits (z : Z) : string :=
  digits_of_pos (S (Z.to_nat (Z.log2 z))) z "".

Fixpoint zeros (n : nat) : string :=
  match n with
  | O => ""
  | S n' => String "0" (zeros n')
  end.

Fixpoint drop_str (n : nat) (s : string) : string :=
  match n, s with
  | S n', String _ s' => drop_str n' s'
  | _, _ => s
  end.

(** Trailing zeros of the decimal writing of [m > 0] removed: the
    remaining significand and the number of zeros removed. *)
Fixpoint strip_zeros (fuel : nat) (m : Z) (tz : nat) : Z * nat :=
  match fuel with
  | O => (m, tz)
  | S f => if (m mod 10 =? 0) && negb (m =? 0)
           then strip_zeros f (m / 10) (S tz) else (m, tz)
  end.

(** Number::toString for a positive [m / 10^k]. *)
Definition pos_to_string (m : Z) (k : nat) : string :=
  let '(s, tz) := strip_zeros (S (Z.to_nat (Z.log2 m))) m O in
  let ds := digits s in
  let kk := Z.of_nat (String.length ds) in
  let n := kk + Z.of_nat tz - Z.of_nat k in
  if (kk <=? n) && (n <=? 21) then ds +:+ zeros (Z.to_nat (n - kk))
  else if (0 <? n) && (n <=? 21) then
    take_str (Z.to_nat n) ds +:+ "." +:+ drop_str (Z.to_nat n) ds
  else if (-6 <? n) && (n <=? 0) then
    "0." +:+ zeros (Z.to_nat (- n)) +:+ ds
  else
    let e := n - 1 in
    let es := (if e <? 0 then "-" else "+") +:+ digits (Z.abs e) in
    match ds with
    | String d EmptyString => String d ("e" +:+ es)
    | String d more => String d ("." +:+ more +:+ "e" +:+ es)
    | EmptyString => ""
    end.

Definition num_to_string (n : jsnum) : string :=
  match n with
  | NaN => "NaN"
  | Inf false => "Infinity"
  | Inf true => "-Infinity"
  | Dec m k =>
      if m =? 0 then "0"
      else if m <? 0 then "-" +:+ pos_to_string (- m) k
      else pos_to_string m k
  end.

(** ToString. *)
Definition ToString (v : jsval) : string :=
  match v with
  | VUndefined => "undefined"
  | VNumber n => num_to_string n
  | VString s => s
  end.

(** *** Operators on values *)

(** [a - b]. *)
Definition js_sub (a b : jsval) : jsnum := num_sub (ToNumber a) (ToNumber b).

(** [a + b]: concatenation as soon as one operand is a string. *)
Definition js_add (a b : jsval) : jsval :=
  match a, b with
  | VString _, _ | _, VString _ => VString (ToString a +:+ ToString b)
  | _, _ => VNumber (num_add (ToNumber a) (ToNumber b))
  end.

(** [a < b] and [a > b] where one operand at least is a number. *)
Definition js_lt (a b : jsval) : bool := num_ltb (ToNumber a) (ToNumber b).
Definition js_gt (a b : jsval) : bool := num_ltb (ToNumber b) (ToNumber a).

(** [a === b]. *)
Definition strict_eq (a b : jsval) : bool :=
  match a, b with
  | VUndefined, VUndefined => true
  | VString s, VString t => String.eqb s t
  | VNumber (Inf x), VNumber (Inf y) => Bool.eqb x y
  | VNumber (Dec m1 k1), VNumber (Dec m2 k2) =>
      let k := Nat.max k1 k2 in
      scale m1 (k - k1) =? scale m2 (k - k2)
  | _, _ => false
  end.

End JsValue.

(** ** latexDiff.js *)

Module LatexDiff.
Import JsString Regex Patterns JsValue.

(** The object pushed by [parseLatexDiff]. *)
Record DiffBlock : Type := mkDiffBlock {
  operation : jsval;
  line : jsval;
  deleteCount : jsval;
  insertContent : string;
  metadata : gmap string jsval;
  raw : string
}.

(** [metadata.k]: reading a property that may be absent.  The three
    keys read by the code are not properties of [Object.prototype]. *)
Definition prop (metadata : gmap string jsval) (k : string) : jsval :=
  default VUndefined (metadata !! k).

(** One turn of [for (const pair of metadataPairs)].  Assigning a
    string or a number to [__proto__] leaves an object as it is. *)
Definition parsePair (metadata : gmap string jsval) (pair : string)
  : gmap string jsval :=
  match split_char ":" pair with
  | key :: value :: _ =>
      if negb (String.eqb key "") then
        if String.eqb key "__proto__" then metadata
        else <[key := if isNaN value then VString value
                      else VNumber (parseInt value)]> metadata
      else metadata
  | _ => metadata
  end.

Definition parseMetadata (metadataStr : string) : gmap string jsval :=
  foldl parsePair ∅ (split_ws false metadataStr).

(** The body of the [while] loop for one match: [None] is the
    [continue] of a block without [operation] or [line]. *)
Definition buildBlock (m : rmatch_result) : option DiffBlock :=
  let metadataStr := nth 0 (groups m) "" in
  let code := nth 1 (groups m) "" in
  let metadata := parseMetadata metadataStr in
  if negb (truthy (prop metadata "operation"))
     || strict_eq (prop metadata "line") VUndefined
  then None
  else
    let metadata :=
      if strict_eq (prop metadata "operation") (VString "delete")
         && negb (truthy (prop metadata "delete"))
      then <["delete" := VInt 1]> metadata
      else metadata in
    Some {| operation := prop metadata "operation";
            line := prop metadata "line";
            deleteCount :=
              js_or (prop metadata "delete")
                    (if strict_eq (prop metadata "operation") (VString "delete")
                     then VInt 1 else VInt 0);
            insertContent := trim code;
            metadata := metadata;
            raw := matched m |}.

(** [while ((match = blockRegex.exec(content)) !== null)]: [content] is
    the text from [lastIndex] on.  Every match is at least as long as
    the opening fence, so [fuel] above the length of the text is never
    used up. *)
Fixpoint parseLoop (fuel : nat) (content : string) : list DiffBlock :=
  match fuel with
  | O => []
  | S fuel' =>
      match exec blockRegex content with
      | None => []
      | Some m =>
          match buildBlock m with
          | Some b => b :: parseLoop fuel' (rest m)
          | None => parseLoop fuel' (rest m)
          end
      end
  end.

Definition parseLatexDiff (content : string) : list DiffBlock :=
  parseLoop (S (String.length content)) content.

(** [hasLatexDiffs(content)]. *)
Definition hasLatexDiffs (content : string) : bool :=
  test markerRegex content.

(** *** Application *)

(** [lines.splice(start, deleteCount, ...items)]: the array afterwards.
    [start] counts from the end when negative and is clamped to the
    array; [deleteCount] is clamped to what is left after [start]. *)
Definition splice (lines : list string) (start : jsnum) (deleteCount : jsval)
           (items : list string) : list string :=
  let len := Z.of_nat (length lines) in
  let actualStart :=
    match ToIntegerOrInfinity start with
    | Inf true => 0
    | Inf false => len
    | Dec z _ => if z <? 0 then Z.max (len + z) 0 else Z.min z len
    | NaN => 0
    end in
  let actualDeleteCount :=
    match ToIntegerOrInfinity (ToNumber deleteCount) with
    | Inf true => 0
    | Inf false => len - actualStart
    | Dec z _ => Z.min (Z.max z 0) (len - actualStart)
    | NaN => 0
    end in
  take (Z.to_nat actualStart) lines ++ items
    ++ drop (Z.to_nat (actualStart + actualDeleteCount)) lines.

(** [insertContent ? insertContent.split('\n') : []]. *)
Definition insertLines (insertContent : string) : list string :=
  if String.eqb insertContent "" then [] else split_char LF insertContent.

(** The [switch] on one block. *)
Definition applyBlock (lines : list string) (block : DiffBlock) : list string :=
  let zeroBasedLine := js_sub (line block) (VInt 1) in
  if strict_eq (operation block) (VString "add") then
    splice lines zeroBasedLine (VInt 0) (insertLines (insertContent block))
  else if strict_eq (operation block) (VString "replace") then
    splice lines zeroBasedLine (js_or (deleteCount block) (VInt 1))
           (insertLines (insertContent block))
  else if strict_eq (operation block) (VString "delete") then
    splice lines zeroBasedLine (js_or (deleteCount block) (VInt 1)) []
  else lines.

(** [Array.prototype.sort(cmp)]: the stable sort; [y] goes before [x]
    when [cmp x y > 0], and a NaN result counts as 0.  With a
    comparator that orders the elements consistently this is the one
    result the language allows. *)
Fixpoint sort_insert {A : Type} (cmp : A -> A -> jsnum) (x : A) (l : list A)
  : list A :=
  match l with
  | [] => [x]
  | y :: l' =>
      if num_ltb (Dec 0 0) (cmp x y) then y :: sort_insert cmp x l'
      else x :: l
  end.

Definition sort_by {A : Type} (cmp : A -> A -> jsnum) (l : list A) : list A :=
  foldr (sort_insert cmp) [] l.

(** [(a, b) => b.line - a.line]. *)
Definition byLineDescending (a b : DiffBlock) : jsnum :=
  js_sub (line b) (line a).

Definition applyLatexDiffs (originalContent : string)
           (diffBlocks : list DiffBlock) : string :=
  let lines := split_char LF originalContent in
  let sortedBlocks := sort_by byLineDescending diffBlocks in
  join nl (foldl applyBlock lines sortedBlocks).

(** *** Validation *)

Record Validation : Type := mkValidation {
  valid : bool;
  errors : list string
}.

Definition validateDiffBlock (content : string) (diffBlock : DiffBlock)
  : Validation :=
  let lines := split_char LF content in
  let len := Z.of_nat (length lines) in
  let line := line diffBlock in
  let errors1 :=
    if js_lt line (VInt 1) || js_gt line (VInt (len + 1)) then
      ["Line " +:+ ToString line +:+ " is out of range (content has "
        +:+ ToString (VInt len) +:+ " lines)"]
    else [] in
  let errors2 :=
    if strict_eq (operation diffBlock) (VString "replace")
       || strict_eq (operation diffBlock) (VString "delete")
    then
      let endLine :=
        js_sub (js_add line (js_or (deleteCount diffBlock) (VInt 1))) (VInt 1) in
      if num_ltb (Dec len 0) endLine then
        ["Cannot delete/replace lines " +:+ ToString line +:+ "-"
          +:+ num_to_string endLine +:+ " (content only has "
          +:+ ToString (VInt len) +:+ " lines)"]
      else []
    else [] in
  let errors := errors1 ++ errors2 in
  {| valid := Nat.eqb (length errors) 0; errors := errors |}.

End LatexDiff.

(** ** simpleAgent.js: document store, undo log and orchestrator *)

Module SimpleAgent.
Import JsString Regex Patterns JsValue LatexDiff.

(** An element of [undoHistory]. *)
Record UndoEntry : Type := mkUndoEntry {
  content : string;
  description : string;
  timestamp : Z
}.

(** The module state: [documentContent], [changeCallback] (the handle
    of the registered observer, [None] for [null]) and [undoHistory],
    oldest entry first.  [notified] records, oldest first, each call
    [changeCallback(text)] made so far. *)
Record Agent : Type := mkAgent {
  documentContent : string;
  changeCallback : option nat;
  undoHistory : list UndoEntry;
  notified : list (nat * string)
}.

Definition MAX_UNDO_HISTORY : nat := 20.

(** The state when the module has just been loaded. *)
Definition loaded : Agent :=
  {| documentContent := ""; changeCallback := None;
     undoHistory := []; notified := [] |}.

(** [initializeDocument(content, onChangeCallback)], for a string
    [content] (then [content || ''] is [content]). *)
Definition initializeDocument (content : string) (onChangeCallback : option nat)
           (st : Agent) : Agent :=
  {| documentContent := content; changeCallback := onChangeCallback;
     undoHistory := undoHistory st; notified := notified st |}.

Definition getDocument (st : Agent) : string := documentContent st.

(** [if (changeCallback) changeCallback(documentContent)]. *)
Definition notify (st : Agent) : Agent :=
  match changeCallback st with
  | Some cb =>
      {| documentContent := documentContent st;
         changeCallback := changeCallback st;
         undoHistory := undoHistory st;
         notified := notified st ++ [(cb, documentContent st)] |}
  | None => st
  end.

(** [addToUndoHistory(content, description)]; [now] is the value of
    [new Date()].  [h.slice(-n)] keeps the last [n] elements. *)
Definition addToUndoHistory (content description : string) (now : Z)
           (st : Agent) : Agent :=
  let pushed := undoHistory st ++ [mkUndoEntry content description now] in
  {| documentContent := documentContent st;
     changeCallback := changeCallback st;
     undoHistory :=
       if (MAX_UNDO_HISTORY <? length pushed)%nat
       then drop (length pushed - MAX_UNDO_HISTORY) pushed
       else pushed;
     notified := notified st |}.

(** [setDocument(newContent, addToHistory)]. *)
Definition setDocument (newContent : string) (addToHistory : bool) (now : Z)
           (st : Agent) : Agent :=
  let st1 :=
    if addToHistory && negb (String.eqb (documentContent st) newContent)
    then addToUndoHistory (documentContent st) "Document replaced" now st
    else st in
  notify {| documentContent := newContent;
            changeCallback := changeCallback st1;
            undoHistory := undoHistory st1;
            notified := notified st1 |}.

(** [/```latex\n([\s\S]*?)\n```/] *)
Definition latexRegex : regex :=
  RSeq (RLit "```latex")
 (RSeq (RSet (CChar LF))
 (RSeq (RGroup (RStar false CAll))
 (RSeq (RSet (CChar LF))
       (RLit "```")))).

(** What [askAI] returns: the diff branch ([documentUpdated],
    [hasDiffs] and [autoApplied] true), the full-document branch
    ([documentUpdated] true), or plain conversation ([documentUpdated]
    false).  The [changes] preview of the first branch, computed from
    the document and the blocks without touching the state, is not
    kept. *)
Inductive TurnResult : Type :=
| DiffsApplied (response : string) (diffBlocks : list DiffBlock)
| DocumentReplaced (response newContent : string)
| Conversation (response : string).

(** [askAI] from the point where the stream has ended with the text
    [fullResponse] accumulated. *)
Definition askAI (fullResponse : string) (now : Z) (st : Agent)
  : Agent * TurnResult :=
  if hasLatexDiffs fullResponse then
    let diffBlocks := parseLatexDiff fullResponse in
    let previousContent := documentContent st in
    let newContent := applyLatexDiffs (documentContent st) diffBlocks in
    let st1 :=
      addToUndoHistory previousContent
        ("Applied " +:+ num_to_string (Dec (Z.of_nat (length diffBlocks)) 0)
           +:+ " diff changes") now st in
    (notify {| documentContent := newContent;
               changeCallback := changeCallback st1;
               undoHistory := undoHistory st1;
               notified := notified st1 |},
     DiffsApplied fullResponse diffBlocks)
  else
    match exec latexRegex fullResponse with
    | Some latexMatch =>
        let newContent := nth 0 (groups latexMatch) "" in
        (setDocument newContent true now st,
         DocumentReplaced fullResponse newContent)
    | None => (st, Conversation fullResponse)
    end.

(** [applyDiffs(diffBlocks)]: the new state and the returned text. *)
Definition applyDiffs (diffBlocks : list DiffBlock) (now : Z) (st : Agent)
  : Agent * string :=
  let newContent := applyLatexDiffs (documentContent st) diffBlocks in
  (setDocument newContent true now st, newContent).

Definition applySingleDiff (diffBlock : DiffBlock) (now : Z) (st : Agent)
  : Agent * string :=
  applyDiffs [diffBlock] now st.

(** [undoHistory.pop()] on a non-empty array. *)
Definition pop (h : list UndoEntry) : option UndoEntry * list UndoEntry :=
  (last h, take (length h - 1) h).

(** [undoLastChange()]: the returned boolean and the new state.
    [setDocument(_, false)] builds no entry and reads no clock. *)
Definition undoLastChange (st : Agent) : bool * Agent :=
  if Nat.eqb (length (undoHistory st)) 0 then (false, st)
  else
    match pop (undoHistory st) with
    | (Some lastEntry, h) =>
        (true,
         setDocument (content lastEntry) false 0
           {| documentContent := documentContent st;
              changeCallback := changeCallback st;
              undoHistory := h;
              notified := notified st |})
    | (None, _) => (false, st)
    end.

Definition getUndoHistory (st : Agent) : list UndoEntry := undoHistory st.

Definition canUndo (st : Agent) : bool := (0 <? length (undoHistory st))%nat.

Definition clearUndoHistory (st : Agent) : Agent :=
  {| documentContent := documentContent st;
     changeCallback := changeCallback st;
     undoHistory := [];
     notified := notified st |}.

(** The exported operations that write the state, and a run of them;
    each comes with the clock value it would read. *)
Inductive action : Type :=
| InitializeDocument (content : string) (onChangeCallback : option nat)
| SetDocument (newContent : string) (addToHistory : bool)
| AskAI (fullResponse : string)
| ApplyDiffs (diffBlocks : list DiffBlock)
| ApplySingleDiff (diffBlock : DiffBlock)
| UndoLastChange
| ClearUndoHistory.

Definition step (st : Agent) (a : Z * action) : Agent :=
  let now := a.1 in
  match a.2 with
  | InitializeDocument c cb => initializeDocument c cb st
  | SetDocument c h => setDocument c h now st
  | AskAI r => (askAI r now st).1
  | ApplyDiffs bs => (applyDiffs bs now st).1
  | ApplySingleDiff b => (applySingleDiff b now st).1
  | UndoLastChange => (undoLastChange st).2
  | ClearUndoHistory => clearUndoHistory st
  end.

Definition run (acts : list (Z * action)) (st : Agent) : Agent :=
  foldl step st acts.

End SimpleAgent.

(** ** Vocabulary of the statements *)

Module Vocabulary.
Import JsString Regex Patterns JsValue LatexDiff SimpleAgent.

(** [content.split('\n').length]. *)
Definition lineCount (content : string) : Z :=
  Z.of_nat (length (split_char LF content)).

(** A [deleteCount] that is an integer, or unset. *)
Definition optInt (d : option Z) : jsval :=
  match d with
  | Some z => VInt z
  | None => VUndefined
  end.

(** The count used for it: 1 when it is 0 or unset. *)
Definition countOrOne (d : option Z) : Z :=
  match d with
  | Some z => if z =? 0 then 1 else z
  | None => 1
  end.

(** The line of a record whose [line] is an integer. *)
Definition lineOf (b : DiffBlock) : Z :=
  match line b with
  | VInt z => z
  | _ => 0
  end.

Definition integerLine (b : DiffBlock) : Prop := exists z, line b = VInt z.

(** [a] may come before [b] in descending order of [line]. *)
Definition descending (a b : DiffBlock) : Prop := lineOf b <= lineOf a.

(** The two records of Scenario D; what the applicator does not read
    ([metadata], [raw]) is left open. *)
Definition deleteLine7 (md : gmap string jsval) (rw : string) : DiffBlock :=
  {| operation := VString "delete"; line := VInt 7; deleteCount := VInt 1;
     insertContent := ""; metadata := md; raw := rw |}.

Definition addAtLine2 (md : gmap string jsval) (rw : string) : DiffBlock :=
  {| operation := VString "add"; line := VInt 2; deleteCount := VInt 0;
     insertContent := "A"; metadata := md; raw := rw |}.

(** A replace of line 1 by the one line [text]. *)
Definition replaceLine1 (text : string) : DiffBlock :=
  {| operation := VString "replace"; line := VInt 1; deleteCount := VInt 1;
     insertContent := text; metadata := ∅; raw := "" |}.

(** A document of eight lines. *)
Definition eightLines : string :=
  join nl ["L1"; "L2"; "L3"; "L4"; "L5"; "L6"; "L7"; "L8"].

(** A complete patch block: open fence, metadata line, body, close
    fence. *)
Definition patchBlock (meta body : string) : string :=
  fence_open +:+ nl +:+ "@@ " +:+ meta +:+ " @@" +:+ nl +:+ body +:+ "```".

(** An open fence and a metadata line, closed by its second [@@] or
    not, and nothing else. *)
Definition openBlock (meta : string) (closed : bool) : string :=
  fence_open +:+ nl +:+ "@@ " +:+ meta +:+ (if closed then " @@" else "").

(** No occurrence of the close fence begins inside [body] when the
    close fence follows it. *)
Fixpoint no_early_fence (body : string) : bool :=
  match body with
  | EmptyString => true
  | String _ body' =>
      match strip_prefix "```" (body +:+ "```") with
      | Some _ => false
      | None => no_early_fence body'
      end
  end.

Fixpoint all_chars (p : ascii -> bool) (s : string) : bool :=
  match s with
  | EmptyString => true
  | String c s' => p c && all_chars p s'
  end.

(** What a metadata line is made of here: no line terminator, no [@]. *)
Definition metaChar (c : ascii) : bool :=
  negb (is_line_terminator c) && negb (Ascii.eqb c "@").

Definition starts_nonspace (s : string) : bool :=
  match s with
  | String c _ => negb (is_space c)
  | EmptyString => false
  end.

Fixpoint ends_nonspace (s : string) : bool :=
  match s with
  | EmptyString => false
  | String c EmptyString => negb (is_space c)
  | String _ s' => ends_nonspace s'
  end.

(** The first character of [s] after its leading white space exists and
    is not [@]. *)
Fixpoint no_marker_ahead (s : string) : bool :=
  match s with
  | String c s' => if is_space c then no_marker_ahead s' else negb (Ascii.eqb c "@")
  | EmptyString => false
  end.

(** What follows the last line feed of the leading white space of [s]. *)
Fixpoint after_last_nl (s : string) : option string :=
  match s with
  | String c s' =>
      if is_space c then
        match after_last_nl s' with
        | Some t => Some t
        | None => if Ascii.eqb c LF then Some s' else None
        end
      else None
  | EmptyString => None
  end.

(** The successive matches that the loop of [parseLatexDiff] visits. *)
Fixpoint matchesFrom (fuel : nat) (content : string) : list rmatch_result :=
  match fuel with
  | O => []
  | S fuel' =>
      match exec blockRegex content with
      | None => []
      | Some m => m :: matchesFrom fuel' (rest m)
      end
  end.

Definition blockMatches (content : string) : list rmatch_result :=
  matchesFrom (S (String.length content)) content.

End Vocabulary.

(** ** latexDiff.js: previews, line numbers, streaming and plain blocks *)

Module DiffPreview.
Import JsString Regex Patterns JsValue LatexDiff.

(** [Math.max(a, b)]. *)
Definition num_max (a b : jsnum) : jsnum :=
  match a, b with
  | NaN, _ | _, NaN => NaN
  | _, _ => if num_ltb a b then b else a
  end.

(** An argument of [slice] as an index of an array of length [len]:
    counted from the end when negative, clamped to the array. *)
Definition clampIndex (len : Z) (v : jsval) : Z :=
  match ToIntegerOrInfinity (ToNumber v) with
  | Inf true => 0
  | Inf false => len
  | Dec z _ => if z <? 0 then Z.max (len + z) 0 else Z.min z len
  | NaN => 0
  end.

(** [lines.slice(start, end)]. *)
Definition slice (lines : list string) (start finish : jsval) : list string :=
  let len := Z.of_nat (length lines) in
  let k := clampIndex len start in
  let final := clampIndex len finish in
  take (Z.to_nat (final - k)) (drop (Z.to_nat k) lines).

(** [(a, b) => a.line - b.line]. *)
Definition byLineAscending (a b : DiffBlock) : jsnum :=
  js_sub (line a) (line b).

(** One element of the array returned by [previewLatexDiffs]; the two
    fields of [context] are [contextBefore] and [contextAfter]. *)
Record Change : Type := mkChange {
  changeOperation : jsval;
  changeLine : jsval;
  before : list string;
  after : list string;
  contextBefore : list string;
  contextAfter : list string
}.

(** The body of the loop of [previewLatexDiffs] for one block. *)
Definition previewChange (lines : list string) (block : DiffBlock) : Change :=
  let zeroBasedLine := js_sub (line block) (VInt 1) in
  let past := js_add (VNumber zeroBasedLine) (js_or (deleteCount block) (VInt 1)) in
  let isAdd := strict_eq (operation block) (VString "add") in
  let isReplace := strict_eq (operation block) (VString "replace") in
  let isDelete := strict_eq (operation block) (VString "delete") in
  {| changeOperation := operation block;
     changeLine := line block;
     before :=
       if isReplace || isDelete
       then slice lines (VNumber zeroBasedLine) past
       else [];
     after :=
       if isAdd || isReplace then insertLines (insertContent block) else [];
     contextBefore :=
       slice lines
             (VNumber (num_max (Dec 0 0) (num_sub zeroBasedLine (Dec 2 0))))
             (VNumber zeroBasedLine);
     contextAfter := slice lines past (js_add past (VInt 2)) |}.

Definition previewLatexDiffs (originalContent : string)
           (diffBlocks : list DiffBlock) : list Change :=
  let lines := split_char LF originalContent in
  let sortedBlocks := sort_by byLineAscending diffBlocks in
  map (previewChange lines) sortedBlocks.

(** One element of the array returned by [getLineNumbers]. *)
Record NumberedLine : Type := mkNumberedLine {
  number : Z;
  lineContent : string
}.

Definition getLineNumbers (content : string) : list NumberedLine :=
  imap (fun index line => mkNumberedLine (Z.of_nat index + 1) line)
       (split_char LF content).

End DiffPreview.

Module DiffStreaming.
Import JsString Regex Patterns JsValue LatexDiff.

(** [hasStreamingLatexDiffs(content)]: the pattern of [hasLatexDiffs]. *)
Definition hasStreamingLatexDiffs (content : string) : bool :=
  test markerRegex content.

(** [/```latex-diff\s*\n@@\s*(.*?)\s*@@\s*\n([\s\S]*?)(?:\n```|$)/g]
    without its last group: everything up to the body. *)
Definition streamingHead : regex :=
  RSeq (RLit fence_open)
 (RSeq (RStar true CSpace)
 (RSeq (RSet (CChar LF))
 (RSeq (RLit "@@")
 (RSeq (RStar true CSpace)
 (RSeq (RGroup (RStar false CDot))
 (RSeq (RStar true CSpace)
 (RSeq (RLit "@@")
 (RSeq (RStar true CSpace)
 (RSeq (RSet (CChar LF))
       (RGroup (RStar false CAll))))))))))).

(** The last group [(?:\n```|$)] in front of the continuation [k]: a
    line feed and a fence, or else the end of the text. *)
Definition fenceOrEnd {R : Type} (k : string -> list string -> option R)
           (s : string) (caps : list string) : option R :=
  match rmatch (RLit (nl +:+ "```")) s caps k with
  | Some r => Some r
  | None =>
      match s with
      | EmptyString => k s caps
      | String _ _ => None
      end
  end.

(** A match of the streaming pattern at the head of [s]. *)
Definition streaming_here (s : string) : option rmatch_result :=
  rmatch streamingHead s []
    (fenceOrEnd (fun s' caps => Some (MatchResult (consumed s s') caps s'))).

(** [diffBlockRegex.exec(s)] with [lastIndex] at the start of [s]. *)
Fixpoint streaming_exec (s : string) : option rmatch_result :=
  match streaming_here s with
  | Some m => Some m
  | None =>
      match s with
      | String _ s' => streaming_exec s'
      | EmptyString => None
      end
  end.

(** The object pushed by [parseStreamingDiff]. *)
Record StreamingBlock : Type := mkStreamingBlock {
  streamOperation : jsval;
  streamLine : jsval;
  streamDeleteCount : jsval;
  streamInsertContent : string;
  streamMetadata : gmap string jsval;
  streaming : bool;
  blockIndex : Z
}.

(** The block built from one match, if it has an operation and a line
    that are truthy; [index] is the value of the counter. *)
Definition buildStreamingBlock (m : rmatch_result) (index : Z)
  : option StreamingBlock :=
  let metadataStr := nth 0 (groups m) "" in
  let code := nth 1 (groups m) "" in
  let metadata := parseMetadata metadataStr in
  if truthy (prop metadata "operation") && truthy (prop metadata "line") then
    Some {| streamOperation := prop metadata "operation";
            streamLine := prop metadata "line";
            streamDeleteCount := js_or (prop metadata "delete") (VInt 0);
            streamInsertContent := trim code;
            streamMetadata := metadata;
            streaming := true;
            blockIndex := index |}
  else None.

(** The [while] loop of [parseStreamingDiff]; [index] is [blockIndex],
    incremented when a block is pushed. *)
Fixpoint streamLoop (fuel : nat) (content : string) (index : Z)
  : list StreamingBlock :=
  match fuel with
  | O => []
  | S fuel' =>
      match streaming_exec content with
      | None => []
      | Some m =>
          match buildStreamingBlock m index with
          | Some b => b :: streamLoop fuel' (rest m) (index + 1)
          | None => streamLoop fuel' (rest m) index
          end
      end
  end.

(** What [parseStreamingDiff] returns. *)
Record StreamingDiff : Type := mkStreamingDiff {
  streamContent : string;
  diffBlocks : list StreamingBlock;
  hasStreamingDiffs : bool
}.

Definition parseStreamingDiff (content : string) : StreamingDiff :=
  let diffBlocks := streamLoop (S (String.length content)) content 0 in
  {| streamContent := content;
     diffBlocks := diffBlocks;
     hasStreamingDiffs := (0 <? length diffBlocks)%nat |}.





End DiffStreaming.

Module LatexBlocks.
Import JsString Regex Patterns JsValue LatexDiff.

(** [/```latex\n([\s\S]*?)\n```/g] *)
Definition regularBlockRegex : regex :=
  RSeq (RLit "```latex")
 (RSeq (RSet (CChar LF))
 (RSeq (RGroup (RStar false CAll))
 (RSeq (RSet (CChar LF))
       (RLit "```")))).

(** The object pushed by [extractRegularLatexBlocks]. *)
Record LatexBlock : Type := mkLatexBlock {
  blockType : string;
  blockContent : string;
  blockRaw : string
}.

Fixpoint extractLoop (fuel : nat) (content : string) : list LatexBlock :=
  match fuel with
  | O => []
  | S fuel' =>
      match exec regularBlockRegex content with
      | None => []
      | Some m =>
          mkLatexBlock "latex" (nth 0 (groups m) "") (matched m)
          :: extractLoop fuel' (rest m)
      end
  end.

Definition extractRegularLatexBlocks (content : string) : list LatexBlock :=
  extractLoop (S (String.length content)) content.

End LatexBlocks.

(** ** The first simple agent: a document store without undo history *)

Module BasicAgent.
Import JsString Regex Patterns JsValue SimpleAgent.

(** [documentContent], [changeCallback], and the calls made to the
    callback. *)
Record Store : Type := mkStore {
  storeContent : string;
  storeCallback : option nat;
  storeNotified : list (nat * string)
}.

(** [initializeDocument(content, onChangeCallback)] for a string. *)
Definition initializeDocument (content : string) (onChangeCallback : option nat)
           (st : Store) : Store :=
  {| storeContent := content; storeCallback := onChangeCallback;
     storeNotified := storeNotified st |}.

Definition getDocument (st : Store) : string := storeContent st.

(** [setDocument(newContent)]. *)
Definition setDocument (newContent : string) (st : Store) : Store :=
  {| storeContent := newContent;
     storeCallback := storeCallback st;
     storeNotified :=
       match storeCallback st with
       | Some cb => storeNotified st ++ [(cb, newContent)]
       | None => storeNotified st
       end |}.

(** [askAI] from the point where the stream has ended: the new store
    and the [newContent] returned when the document was updated. *)
Definition askAI (fullResponse : string) (st : Store) : Store * option string :=
  match exec latexRegex fullResponse with
  | Some latexMatch =>
      let newContent := nth 0 (groups latexMatch) "" in
      (setDocument newContent st, Some newContent)
  | None => (st, None)
  end.

End BasicAgent.

(** ** More vocabulary *)

Module Vocabulary2.
Import JsString Regex Patterns JsValue LatexDiff SimpleAgent Vocabulary.

(** An operation that the [switch] of the applicator does not know. *)
Definition unknownOperation (b : DiffBlock) : Prop :=
  operation b <> VString "add"
  /\ operation b <> VString "replace"
  /\ operation b <> VString "delete".

Definition knownOperation (b : DiffBlock) : Prop :=
  operation b = VString "add"
  \/ operation b = VString "replace"
  \/ operation b = VString "delete".

(** [a] may come before [b] in ascending order of [line]. *)
Definition ascending (a b : DiffBlock) : Prop := lineOf a <= lineOf b.

(** A line has no line feed in it. *)
Definition oneLine (s : string) : bool :=
  all_chars (fun c => negb (Ascii.eqb c LF)) s.

Definition notBacktick (c : ascii) : bool := negb (Ascii.eqb c "`").

(** No occurrence of [pat] begins inside [body] when [pat] follows it. *)
Fixpoint no_early (pat body : string) : bool :=
  match body with
  | EmptyString => true
  | String _ body' =>
      match strip_prefix pat (body +:+ pat) with
      | Some _ => false
      | None => no_early pat body'
      end
  end.

(** The end of a full-document block: a line feed and a fence. *)
Definition closeFence : string := nl +:+ "```".

(** A document in a full-document block. *)
Definition wrapLatex (doc : string) : string :=
  "```latex" +:+ nl +:+ doc +:+ closeFence.

(** An open fence, a complete metadata line and the part of the body
    received so far. *)
Definition arrivingBlock (meta body : string) : string :=
  fence_open +:+ nl +:+ "@@ " +:+ meta +:+ " @@" +:+ nl +:+ body.

(** [n] times [undoLastChange]. *)
Fixpoint undoTimes (n : nat) (st : Agent) : Agent :=
  match n with
  | O => st
  | S n' => undoTimes n' (undoLastChange st).2
  end.

(** A metadata text as the prompt shows it: no [@], no line terminator,
    no white space at its ends, and pairs that give a truthy operation
    and a line. *)
Definition metadataLine (meta : string) : Prop :=
  starts_nonspace meta = true
  /\ ends_nonspace meta = true
  /\ all_chars metaChar meta = true
  /\ truthy (prop (parseMetadata meta) "operation") = true
  /\ prop (parseMetadata meta) "line" <> VUndefined.



(** Three add blocks, one per line of the response, whose line tokens
    are [1], nothing, and [2]. *)
Definition unorderedResponse : string :=
  patchBlock "operation:add line:1" ("X" +:+ nl) +:+ nl
    +:+ patchBlock "operation:add line:" ("N" +:+ nl) +:+ nl
    +:+ patchBlock "operation:add line:2" ("Y" +:+ nl).


(** Up to here every integer is a Number exactly. *)
Definition maxExactInteger : Z := 2 ^ 53.

(** A decimal digit. *)
Definition is_digit (c : ascii) : bool :=
  let n := Z.of_nat (nat_of_ascii c) in
  (48 <=? n) && (n <=? 57).

(** The number that a text of decimal digits writes, on top of [acc]. *)
Fixpoint decimalValue (acc : Z) (ds : string) : Z :=
  match ds with
  | EmptyString => acc
  | String c ds' =>
      decimalValue (acc * 10 + (Z.of_nat (nat_of_ascii c) - 48)) ds'
  end.

(** One decimal digit at least, and nothing else. *)
Definition digitText (ds : string) : Prop :=
  ds <> "" /\ all_chars is_digit ds = true.

Definition noColon (s : string) : bool :=
  all_chars (fun c => negb (Ascii.eqb c ":")) s.

Definition noSpace (s : string) : bool :=
  all_chars (fun c => negb (is_space c)) s.

(** The three operations of the protocol. *)
Definition operationName (op : string) : Prop :=
  op = "add" \/ op = "replace" \/ op = "delete".

(** The metadata text with its three pairs, as the prompt writes it. *)
Definition metadataText (op dl dd : string) : string :=
  "operation:" +:+ op +:+ " line:" +:+ dl +:+ " delete:" +:+ dd.

(** The delete count of the record when the metadata writes [d]. *)
Definition recordedCount (op : string) (d : Z) : Z :=
  if d =? 0 then (if String.eqb op "delete" then 1 else 0) else d.

(** Every match of the pattern goes over a backtick. *)
Fixpoint needs_backtick (r : regex) : bool :=
  match r with
  | RSet (CChar c) => Ascii.eqb c "`"
  | RSeq r1 r2 => needs_backtick r1 || needs_backtick r2
  | RGroup r1 => needs_backtick r1
  | _ => false
  end.

(** [pat] occurs nowhere in [s]. *)
Fixpoint lacks (pat s : string) : bool :=
  match strip_prefix pat s with
  | Some _ => false
  | None =>
      match s with
      | String _ s' => lacks pat s'
      | EmptyString => true
      end
  end.

(** A complete patch block whose metadata stands on the line after the
    first [@@]. *)
Definition splitHeaderBlock (meta body : string) : string :=
  fence_open +:+ nl +:+ "@@" +:+ nl +:+ meta +:+ " @@" +:+ nl +:+ body +:+ "```".

(** From [st] to [st'] the callback was not called, or the callback
    registered in [st'] was called once, with the text of [st']. *)
Definition one_call (st st' : Agent) : Prop :=
  notified st' = notified st
  \/ exists cb, changeCallback st' = Some cb
                /\ notified st' = notified st ++ [(cb, documentContent st')].

(** The store of the first agent inside the state of the second. *)
Definition forgetHistory (st : Agent) : BasicAgent.Store :=
  {| BasicAgent.storeContent := documentContent st;
     BasicAgent.storeCallback := changeCallback st;
     BasicAgent.storeNotified := notified st |}.

End Vocabulary2.

(** * Properties *)

Import JsString Regex Patterns JsValue LatexDiff SimpleAgent Vocabulary.

(** ** Undo log and document store *)

Section UndoLog.

Implicit Types (st : Agent) (h : list UndoEntry) (e : UndoEntry).

Lemma addToUndoHistory_history c d now st :
  undoHistory (addToUndoHistory c d now st)
  = drop (length (undoHistory st) + 1 - MAX_UNDO_HISTORY)
         (undoHistory st ++ [mkUndoEntry c d now]).
Proof.
  unfold addToUndoHistory; simpl. rewrite length_app; simpl.
  destruct (Nat.ltb_spec MAX_UNDO_HISTORY (length (undoHistory st) + 1)) as [Hlt|Hge].
  - reflexivity.
  - replace (length (undoHistory st) + 1 - MAX_UNDO_HISTORY)%nat with 0%nat by lia.
    reflexivity.
Qed.

Lemma addToUndoHistory_length c d now st :
  (length (undoHistory (addToUndoHistory c d now st)) <= MAX_UNDO_HISTORY)%nat.
Proof.
  rewrite addToUndoHistory_history, length_drop, length_app; simpl.
  unfold MAX_UNDO_HISTORY. lia.
Qed.

Lemma addToUndoHistory_frame c d now st :
  documentContent (addToUndoHistory c d now st) = documentContent st
  /\ changeCallback (addToUndoHistory c d now st) = changeCallback st
  /\ notified (addToUndoHistory c d now st) = notified st.
Proof. done. Qed.

Lemma notify_frame st :
  documentContent (notify st) = documentContent st
  /\ changeCallback (notify st) = changeCallback st
  /\ undoHistory (notify st) = undoHistory st.
Proof. unfold notify. destruct (changeCallback st) eqn:E; simpl; auto. Qed.

Lemma notify_notified st :
  notified (notify st)
  = match changeCallback st with
    | Some cb => notified st ++ [(cb, documentContent st)]
    | None => notified st
    end.
Proof. unfold notify. destruct (changeCallback st) eqn:E; simpl; auto. Qed.

Lemma setDocument_content c a now st :
  documentContent (setDocument c a now st) = c.
Proof. unfold setDocument. by rewrite (proj1 (notify_frame _)). Qed.

Lemma setDocument_history c a now st :
  undoHistory (setDocument c a now st)
  = if a && negb (String.eqb (documentContent st) c)
    then undoHistory (addToUndoHistory (documentContent st) "Document replaced" now st)
    else undoHistory st.
Proof.
  unfold setDocument.
  rewrite (proj2 (proj2 (notify_frame _))); simpl.
  by destruct (a && negb (String.eqb (documentContent st) c)).
Qed.

Lemma setDocument_notified c a now st :
  notified (setDocument c a now st)
  = match changeCallback st with
    | Some cb => notified st ++ [(cb, c)]
    | None => notified st
    end.
Proof.
  unfold setDocument. rewrite notify_notified; simpl.
  by destruct (a && negb (String.eqb (documentContent st) c)).
Qed.

Lemma setDocument_callback c a now st :
  changeCallback (setDocument c a now st) = changeCallback st.
Proof.
  unfold setDocument. rewrite (proj1 (proj2 (notify_frame _))); simpl.
  by destruct (a && negb (String.eqb (documentContent st) c)).
Qed.

Lemma setDocument_length c a now st :
  (length (undoHistory st) <= MAX_UNDO_HISTORY)%nat ->
  (length (undoHistory (setDocument c a now st)) <= MAX_UNDO_HISTORY)%nat.
Proof.
  intros Hst. rewrite setDocument_history.
  destruct (a && negb (String.eqb (documentContent st) c)); [|done].
  apply addToUndoHistory_length.
Qed.

Lemma askAI_history r now st :
  undoHistory (askAI r now st).1
  = if hasLatexDiffs r then
      undoHistory (addToUndoHistory (documentContent st)
        ("Applied " +:+ num_to_string (Dec (Z.of_nat (length (parseLatexDiff r))) 0)
           +:+ " diff changes") now st)
    else match exec latexRegex r with
         | Some m => undoHistory (setDocument (nth 0 (groups m) "") true now st)
         | None => undoHistory st
         end.
Proof.
  unfold askAI. destruct (hasLatexDiffs r).
  - simpl. by rewrite (proj2 (proj2 (notify_frame _))).
  - by destruct (exec latexRegex r).
Qed.

Lemma pop_snoc h e : pop (h ++ [e]) = (Some e, h).
Proof.
  unfold pop. rewrite last_snoc, length_app; simpl.
  replace (length h + 1 - 1)%nat with (length h) by lia.
  by rewrite take_app_length.
Qed.

Lemma undoLastChange_snoc st h e :
  undoHistory st = h ++ [e] ->
  undoLastChange st
  = (true, setDocument (content e) false 0
             {| documentContent := documentContent st;
                changeCallback := changeCallback st;
                undoHistory := h;
                notified := notified st |}).
Proof.
  intros Hh. unfold undoLastChange. rewrite Hh, pop_snoc, length_app; simpl.
  by replace (length h + 1)%nat with (S (length h)) by lia.
Qed.

Lemma undoLastChange_length st :
  (length (undoHistory st) <= MAX_UNDO_HISTORY)%nat ->
  (length (undoHistory (undoLastChange st).2) <= MAX_UNDO_HISTORY)%nat.
Proof.
  intros Hst.
  destruct (undoHistory st) as [|e0 h0] eqn:Hh using rev_ind.
  - unfold undoLastChange. rewrite Hh; simpl. rewrite Hh; simpl.
    unfold MAX_UNDO_HISTORY. lia.
  - rewrite (undoLastChange_snoc st _ _ Hh); simpl.
    rewrite setDocument_history; simpl.
    rewrite length_app in Hst; simpl in Hst. lia.
Qed.

Lemma step_length st a :
  (length (undoHistory st) <= MAX_UNDO_HISTORY)%nat ->
  (length (undoHistory (step st a)) <= MAX_UNDO_HISTORY)%nat.
Proof.
  intros Hst. destruct a as [now []]; unfold step; simpl.
  - done.
  - by apply setDocument_length.
  - rewrite askAI_history. destruct (hasLatexDiffs fullResponse).
    + apply addToUndoHistory_length.
    + destruct (exec latexRegex fullResponse); [|done].
      by apply setDocument_length.
  - by apply setDocument_length.
  - by apply setDocument_length.
  - by apply undoLastChange_length.
  - unfold MAX_UNDO_HISTORY. lia.
Qed.

Lemma run_length acts st :
  (length (undoHistory st) <= MAX_UNDO_HISTORY)%nat ->
  (length (undoHistory (run acts st)) <= MAX_UNDO_HISTORY)%nat.
Proof.
  unfold run. revert st.
  induction acts as [|a acts IH]; intros st Hst; simpl; [done|].
  apply IH. by apply step_length.
Qed.

End UndoLog.

(** C4.  The undo history holds at most 20 entries after any run of the
    exported operations from the freshly loaded module.
    [addToUndoHistory] appends the new entry and keeps the last 20
    entries of the result, whatever the state; on a reachable state this
    means the entry is appended and the oldest entry is dropped exactly
    when the history was full, so the 21st push evicts the first. *)
Theorem undo_history_capacity :
  (forall acts : list (Z * action),
      (length (undoHistory (run acts loaded)) <= 20)%nat)
  /\ (forall c d now st,
         let pushed := undoHistory st ++ [mkUndoEntry c d now] in
         undoHistory (addToUndoHistory c d now st)
         = drop (length pushed - 20) pushed
         /\ (length (undoHistory (addToUndoHistory c d now st)) <= 20)%nat)
  /\ (forall (acts : list (Z * action)) c d now,
         let st := run acts loaded in
         undoHistory (addToUndoHistory c d now st)
         = (if Nat.eqb (length (undoHistory st)) 20
            then drop 1 (undoHistory st) else undoHistory st)
           ++ [mkUndoEntry c d now]).
Proof.
  split; [|split].
  - intros acts. apply (run_length acts loaded). simpl. lia.
  - intros c d now st pushed. split.
    + rewrite addToUndoHistory_history. subst pushed.
      rewrite length_app; simpl. reflexivity.
    + apply addToUndoHistory_length.
  - intros acts c d now st.
    assert (Hst : (length (undoHistory st) <= 20)%nat).
    { apply (run_length acts loaded). simpl. lia. }
    rewrite addToUndoHistory_history. unfold MAX_UNDO_HISTORY.
    destruct (Nat.eqb_spec (length (undoHistory st)) 20) as [Heq|Hne].
    + rewrite Heq. simpl. rewrite drop_app_le by lia. reflexivity.
    + replace (length (undoHistory st) + 1 - 20)%nat with 0%nat by lia.
      reflexivity.
Qed.

(** C9.  With an empty undo history [undoLastChange] returns [false] and
    leaves the whole state as it was (document, history, callback and the
    calls made to it); [canUndo] is true exactly when the history is not
    empty. *)
Theorem undo_on_empty_history (st : Agent) :
  (undoHistory st = [] -> undoLastChange st = (false, st))
  /\ (canUndo st = true <-> undoHistory st <> []).
Proof.
  split.
  - intros Hh. unfold undoLastChange. rewrite Hh. reflexivity.
  - unfold canUndo. destruct (undoHistory st) as [|e h]; simpl.
    + split; [discriminate | congruence].
    + split; [discriminate | reflexivity].
Qed.

Lemma undo_on_empty_history_witness :
  undoHistory loaded = [] /\ undoLastChange loaded = (false, loaded).
Proof.
  split; [reflexivity|].
  apply (proj1 (undo_on_empty_history loaded)). reflexivity.
Defined.

(** C10.  [setDocument] called with the text the store already holds and
    [addToHistory = true] pushes nothing on the undo history and keeps
    the text, yet calls the registered callback, if there is one, with
    that text; and for any text whatever the callback is called once per
    [setDocument]. *)
Theorem setDocument_same_content (st : Agent) (now : Z) :
  let st' := setDocument (documentContent st) true now st in
  undoHistory st' = undoHistory st
  /\ documentContent st' = documentContent st
  /\ changeCallback st' = changeCallback st
  /\ notified st'
     = match changeCallback st with
       | Some cb => notified st ++ [(cb, documentContent st)]
       | None => notified st
       end
  /\ forall newContent addToHistory,
       notified (setDocument newContent addToHistory now st)
       = match changeCallback st with
         | Some cb => notified st ++ [(cb, newContent)]
         | None => notified st
         end.
Proof.
  simpl. repeat split.
  - rewrite setDocument_history, String.eqb_refl. reflexivity.
  - apply setDocument_content.
  - apply setDocument_callback.
  - apply setDocument_notified.
  - intros. apply setDocument_notified.
Qed.

(** ** Undo after an applied batch *)

Lemma pushed_history_snoc c d now st :
  exists h, undoHistory (addToUndoHistory c d now st) = h ++ [mkUndoEntry c d now].
Proof.
  rewrite addToUndoHistory_history. unfold MAX_UNDO_HISTORY.
  rewrite drop_app_le by lia. eauto.
Qed.

Lemma undo_after_push st1 h e :
  undoHistory st1 = h ++ [e] ->
  (undoLastChange st1).1 = true
  /\ documentContent (undoLastChange st1).2 = content e.
Proof.
  intros Hh. rewrite (undoLastChange_snoc st1 h e Hh); simpl.
  split; [reflexivity | apply setDocument_content].
Qed.

(** C3, amended.  After the latex-diff branch of [askAI] has applied the
    batch parsed from the response, and after [applyDiffs] has applied a
    batch whose result differs from the stored text, the store holds the
    patched text and an immediate [undoLastChange] returns [true] and
    puts back the text held before. *)
Theorem undo_restores_applied_batch (st : Agent) (now : Z) :
  (forall fullResponse,
      hasLatexDiffs fullResponse = true ->
      let st1 := (askAI fullResponse now st).1 in
      documentContent st1
      = applyLatexDiffs (documentContent st) (parseLatexDiff fullResponse)
      /\ (undoLastChange st1).1 = true
      /\ documentContent (undoLastChange st1).2 = documentContent st)
  /\ (forall P,
         applyLatexDiffs (documentContent st) P <> documentContent st ->
         let st1 := (applyDiffs P now st).1 in
         documentContent st1 = applyLatexDiffs (documentContent st) P
         /\ (undoLastChange st1).1 = true
         /\ documentContent (undoLastChange st1).2 = documentContent st).
Proof.
  split.
  - intros r Hr st1. split.
    + subst st1. unfold askAI. rewrite Hr; simpl.
      by rewrite (proj1 (notify_frame _)).
    + pose proof (askAI_history r now st) as Hh. rewrite Hr in Hh.
      destruct (pushed_history_snoc (documentContent st)
                  ("Applied " +:+ num_to_string (Dec (Z.of_nat (length (parseLatexDiff r))) 0)
                     +:+ " diff changes") now st) as [h Hpush].
      rewrite Hpush in Hh. apply (undo_after_push st1 h _ Hh).
  - intros P HP st1. split.
    + subst st1. unfold applyDiffs; simpl. apply setDocument_content.
    + assert (Hne : String.eqb (documentContent st)
                      (applyLatexDiffs (documentContent st) P) = false).
      { apply String.eqb_neq. congruence. }
      pose proof (setDocument_history (applyLatexDiffs (documentContent st) P)
                    true now st) as Hh.
      rewrite Hne in Hh; cbn [andb negb] in Hh.
      destruct (pushed_history_snoc (documentContent st) "Document replaced" now st)
        as [h Hpush].
      rewrite Hpush in Hh. apply (undo_after_push st1 h _ Hh).
Qed.

Lemma undo_restores_applied_batch_witness :
  let st := initializeDocument ("L1" +:+ nl +:+ "L2") (Some 0%nat) loaded in
  let P := [addAtLine2 ∅ ""] in
  hasLatexDiffs (patchBlock "operation:delete line:1" "") = true
  /\ applyLatexDiffs (documentContent st) P <> documentContent st
  /\ documentContent
       (undoLastChange (askAI (patchBlock "operation:delete line:1" "") 5 st).1).2
     = documentContent st
  /\ documentContent (undoLastChange (applyDiffs P 5 st).1).2 = documentContent st.
Proof.
  intros st P.
  assert (H1 : hasLatexDiffs (patchBlock "operation:delete line:1" "") = true)
    by (vm_compute; reflexivity).
  assert (H2 : applyLatexDiffs (documentContent st) P <> documentContent st)
    by (vm_compute; discriminate).
  split; [exact H1|]. split; [exact H2|]. split.
  - exact (proj2 (proj2 (proj1 (undo_restores_applied_batch st 5) _ H1))).
  - exact (proj2 (proj2 (proj2 (undo_restores_applied_batch st 5) _ H2))).
Defined.

(** C3 as stated fails for [applyDiffs] when the batch leaves the text as
    it is, here a replace of line 1 of the document [a] by [a]: no entry
    is pushed, so the undo that follows finds an empty history and
    returns [false], or pops an older entry and installs a text that is
    not the one held before the batch. *)
Lemma undo_after_unchanged_applyDiffs :
  (applyDiffs [replaceLine1 "a"] 1 (initializeDocument "a" None loaded)).2 = "a"
  /\ (undoLastChange
        (applyDiffs [replaceLine1 "a"] 1 (initializeDocument "a" None loaded)).1).1
     = false
  /\ documentContent (setDocument "a" true 0 (initializeDocument "b" None loaded))
     = "a"
  /\ (applyDiffs [replaceLine1 "a"] 1
        (setDocument "a" true 0 (initializeDocument "b" None loaded))).2
     = "a"
  /\ undoLastChange
       (applyDiffs [replaceLine1 "a"] 1
          (setDocument "a" true 0 (initializeDocument "b" None loaded))).1
     = (true, {| documentContent := "b"; changeCallback := None;
                 undoHistory := []; notified := [] |}).
Proof. vm_compute. repeat split. Qed.

(** ** Values of integer records *)

Section IntegerValues.

Lemma strict_eq_string v s : strict_eq v (VString s) = true <-> v = VString s.
Proof.
  destruct v as [|[| |]|t]; simpl; try (split; [discriminate|congruence]).
  rewrite String.eqb_eq. split; congruence.
Qed.

Lemma strict_eq_string_false v s : strict_eq v (VString s) = false <-> v <> VString s.
Proof.
  rewrite <- strict_eq_string. destruct (strict_eq v (VString s)); split; congruence.
Qed.

Lemma js_or_count d : js_or (optInt d) (VInt 1) = VInt (countOrOne d).
Proof.
  destruct d as [z|]; [|reflexivity].
  unfold js_or; simpl. by destruct (z =? 0).
Qed.

Lemma js_sub_int a b : js_sub (VInt a) (VInt b) = Dec (a - b) 0.
Proof. reflexivity. Qed.

Lemma js_add_int a b : js_add (VInt a) (VInt b) = VInt (a + b).
Proof. reflexivity. Qed.

Lemma num_ltb_int a b : num_ltb (Dec a 0) (Dec b 0) = (a <? b).
Proof. reflexivity. Qed.

Lemma split_char_nonempty sep s : split_char sep s <> [].
Proof.
  destruct s as [|c s]; simpl; [done|].
  destruct (Ascii.eqb c sep); [done|].
  by destruct (split_char sep s).
Qed.

Lemma lineCount_pos content : 1 <= lineCount content.
Proof.
  unfold lineCount. pose proof (split_char_nonempty LF content).
  destruct (split_char LF content); simpl in *; [done | lia].
Qed.

End IntegerValues.

(** ** Validation *)




(** ** Application of one record *)

Section Splice.

Lemma splice_in_range lines l c items :
  1 <= l <= Z.of_nat (length lines) + 1 ->
  0 <= c ->
  splice lines (Dec (l - 1) 0) (VInt c) items
  = take (Z.to_nat (l - 1)) lines ++ items
      ++ drop (Z.to_nat (l - 1) + Z.to_nat c) lines.
Proof.
  intros Hl Hc. unfold splice. cbn [ToIntegerOrInfinity ToNumber].
  destruct (Z.ltb_spec (l - 1) 0) as [?|_]; [lia|].
  rewrite (Z.min_l (l - 1)) by lia.
  rewrite (Z.max_l c 0) by lia.
  f_equal. f_equal.
  destruct (Z.le_gt_cases c (Z.of_nat (length lines) - (l - 1))) as [Hle|Hgt].
  - rewrite Z.min_l by lia. f_equal. lia.
  - rewrite Z.min_r by lia.
    rewrite !drop_ge by lia. reflexivity.
Qed.

Lemma applyLatexDiffs_one content b :
  applyLatexDiffs content [b] = join nl (applyBlock (split_char LF content) b).
Proof. reflexivity. Qed.

End Splice.

(** ** Order of application *)

Section SortByLine.

Lemma sort_insert_perm {A} (cmp : A -> A -> jsnum) x l :
  sort_insert cmp x l ≡ₚ x :: l.
Proof.
  induction l as [|y l IH]; cbn [sort_insert]; [done|].
  destruct (num_ltb (Dec 0 0) (cmp x y)); [|done].
  rewrite IH. apply Permutation_swap.
Qed.

Lemma sort_by_perm {A} (cmp : A -> A -> jsnum) l : sort_by cmp l ≡ₚ l.
Proof.
  induction l as [|x l IH]; simpl; [done|].
  rewrite sort_insert_perm. by constructor.
Qed.

Lemma byLineDescending_positive a b :
  integerLine a -> integerLine b ->
  num_ltb (Dec 0 0) (byLineDescending a b) = (lineOf a <? lineOf b).
Proof.
  intros [x Hx] [y Hy]. unfold byLineDescending, lineOf.
  rewrite Hx, Hy, js_sub_int, num_ltb_int.
  destruct (Z.ltb_spec 0 (y - x)), (Z.ltb_spec x y); auto; lia.
Qed.

Lemma sort_insert_sorted x l :
  integerLine x -> Forall integerLine l ->
  StronglySorted descending l ->
  StronglySorted descending (sort_insert byLineDescending x l).
Proof.
  intros Hx Hl Hs. induction Hs as [|y l Hs IH Hy]; cbn [sort_insert].
  - repeat constructor.
  - inversion Hl as [|? ? Hiy Hil]; subst.
    rewrite (byLineDescending_positive x y Hx Hiy).
    destruct (Z.ltb_spec (lineOf x) (lineOf y)) as [Hlt|Hge].
    + constructor; [by apply IH|].
      rewrite sort_insert_perm. constructor; [unfold descending; lia | done].
    + constructor; [by constructor|].
      constructor; [done|].
      eapply Forall_impl; [exact Hy|]. unfold descending. intros; simpl in *; lia.
Qed.

Lemma sort_by_integer l :
  Forall integerLine l -> Forall integerLine (sort_by byLineDescending l).
Proof. intros Hl. by rewrite sort_by_perm. Qed.

Lemma sort_by_sorted l :
  Forall integerLine l ->
  StronglySorted descending (sort_by byLineDescending l).
Proof.
  induction 1 as [|x l Hx Hl IH]; simpl; [constructor|].
  apply sort_insert_sorted; auto. by apply sort_by_integer.
Qed.

End SortByLine.

(** C1 as stated fails for a parsed batch in which a line is not a
    number.  The token [line:] gives the line NaN; every comparison
    with it returns NaN, which the sort takes for 0, so the batch of
    lines 1, NaN, 2 stays in the order of the response and the record
    of line 1 is applied before the record of line 2: [Y] lands before
    [X] and [a], where the two integer records alone put it before
    [b]. *)
Lemma nan_line_breaks_descending_order :
  map line (parseLatexDiff Vocabulary2.unorderedResponse) = [VInt 1; VNumber NaN; VInt 2]
  /\ map line (sort_by byLineDescending (parseLatexDiff Vocabulary2.unorderedResponse))
     = [VInt 1; VNumber NaN; VInt 2]
  /\ applyLatexDiffs ("a" +:+ nl +:+ "b") (parseLatexDiff Vocabulary2.unorderedResponse)
     = join nl ["N"; "Y"; "X"; "a"; "b"]
  /\ match parseLatexDiff Vocabulary2.unorderedResponse with
     | [r1; _; r2] =>
         applyLatexDiffs ("a" +:+ nl +:+ "b") [r1; r2]
         = join nl ["X"; "a"; "Y"; "b"]
     | _ => False
     end.
Proof. vm_compute. repeat split. Qed.

(** C1, amended.  For a batch of records with integer lines,
    [applyLatexDiffs] applies to the lines of the document, one after
    the other, the records of the batch rearranged in descending order
    of [line].  In
    Scenario D, on a document of at least 7 lines, the batch made of
    [{delete, line 7, deleteCount 1}] and [{add, line 2, "A"}], in either
    order, gives original line 1, then "A", then original lines 2 to 6,
    then what followed original line 7. *)
Theorem applies_in_descending_line_order :
  (forall content P,
      Forall integerLine P ->
      exists S,
        S ≡ₚ P
        /\ StronglySorted descending S
        /\ applyLatexDiffs content P
           = join nl (foldl applyBlock (split_char LF content) S))
  /\ (forall content md1 rw1 md2 rw2,
         7 <= lineCount content ->
         let lines := split_char LF content in
         let result :=
           join nl (take 1 lines ++ ["A"] ++ take 5 (drop 1 lines) ++ drop 7 lines) in
         applyLatexDiffs content [deleteLine7 md1 rw1; addAtLine2 md2 rw2] = result
         /\ applyLatexDiffs content [addAtLine2 md2 rw2; deleteLine7 md1 rw1] = result).
Proof.
  split.
  - intros content P HP. exists (sort_by byLineDescending P).
    split; [apply sort_by_perm|]. split; [by apply sort_by_sorted | reflexivity].
  - intros content md1 rw1 md2 rw2 Hlen lines result.
    assert (Hsteps :
      foldl applyBlock lines [deleteLine7 md1 rw1; addAtLine2 md2 rw2]
      = take 1 lines ++ ["A"] ++ take 5 (drop 1 lines) ++ drop 7 lines).
    { unfold lineCount in Hlen. fold lines in Hlen.
      assert (Hdel : applyBlock lines (deleteLine7 md1 rw1)
                     = take 6 lines ++ drop 7 lines).
      { unfold applyBlock.
        cbn [operation line deleteCount insertContent deleteLine7 strict_eq
             String.eqb Ascii.eqb Bool.eqb js_or truthy Z.eqb negb].
        rewrite js_sub_int, (splice_in_range lines 7 1 []) by lia.
        reflexivity. }
      assert (Hadd : forall L, (1 <= length L)%nat ->
                applyBlock L (addAtLine2 md2 rw2) = take 1 L ++ ["A"] ++ drop 1 L).
      { intros L HL. unfold applyBlock.
        cbn [operation line deleteCount insertContent addAtLine2 strict_eq
             String.eqb Ascii.eqb Bool.eqb].
        rewrite js_sub_int, (splice_in_range L 2 0) by lia.
        reflexivity. }
      cbn [foldl]. rewrite Hdel, Hadd
        by (rewrite length_app, length_take, length_drop; lia).
      rewrite take_app_le by (rewrite length_take; lia).
      rewrite take_take. cbn [Nat.min].
      rewrite drop_app_le by (rewrite length_take; lia).
      change 6%nat with (1 + 5)%nat.
      rewrite <- (take_drop_commute lines 5 1).
      reflexivity. }
    split; unfold applyLatexDiffs; fold lines; subst result; f_equal;
      rewrite <- Hsteps; reflexivity.
Qed.

Lemma applies_in_descending_line_order_witness :
  Forall integerLine [addAtLine2 ∅ ""; deleteLine7 ∅ ""]
  /\ 7 <= lineCount eightLines
  /\ (exists S,
         S ≡ₚ [addAtLine2 ∅ ""; deleteLine7 ∅ ""]
         /\ StronglySorted descending S
         /\ applyLatexDiffs eightLines [addAtLine2 ∅ ""; deleteLine7 ∅ ""]
            = join nl (foldl applyBlock (split_char LF eightLines) S))
  /\ applyLatexDiffs eightLines [addAtLine2 ∅ ""; deleteLine7 ∅ ""]
     = join nl ["L1"; "A"; "L2"; "L3"; "L4"; "L5"; "L6"; "L8"].
Proof.
  assert (Hint : Forall integerLine [addAtLine2 ∅ ""; deleteLine7 ∅ ""]).
  { repeat constructor; eexists; reflexivity. }
  assert (Hlen : 7 <= lineCount eightLines) by (vm_compute; congruence).
  split; [exact Hint|]. split; [exact Hlen|]. split.
  - exact (proj1 applies_in_descending_line_order eightLines _ Hint).
  - exact (proj2 (proj2 applies_in_descending_line_order eightLines ∅ "" ∅ "" Hlen)).
Defined.

(** ** The patch-marker predicate *)

(** C5 as stated fails: on the text made of the open fence, a newline
    and [@@ operation:add], the predicate answers [false]. *)
Lemma hasLatexDiffs_unclosed_metadata :
  hasLatexDiffs (openBlock "operation:add" false) = false.
Proof. vm_compute. reflexivity. Qed.

(** C5, amended.  On the text made of the open fence, a newline and
    [@@ operation:add], with the metadata line not closed, both
    [hasLatexDiffs] and [parseLatexDiff] find nothing.  The predicate
    answers [true] once the second [@@] has arrived; the block having no
    close fence, [parseLatexDiff] still returns no record then. *)
Theorem marker_needs_closed_metadata :
  openBlock "operation:add" false
  = "```latex-diff" +:+ nl +:+ "@@ operation:add"
  /\ hasLatexDiffs (openBlock "operation:add" false) = false
  /\ parseLatexDiff (openBlock "operation:add" false) = []
  /\ hasLatexDiffs (openBlock "operation:add" true) = true
  /\ parseLatexDiff (openBlock "operation:add" true) = [].
Proof. vm_compute. repeat split. Qed.

(** ** Records built by the parser *)

Section ParsedRecords.

Lemma parseLoop_matches fuel content :
  parseLoop fuel content = omap buildBlock (matchesFrom fuel content).
Proof.
  revert content. induction fuel as [|fuel IH]; intros content; [done|].
  cbn [parseLoop matchesFrom].
  destruct (exec blockRegex content) as [m|]; [|done].
  cbn [omap list_omap]. rewrite <- IH.
  by destruct (buildBlock m).
Qed.

Lemma strict_eq_undefined v : strict_eq v VUndefined = false <-> v <> VUndefined.
Proof. destruct v as [|[| |]|]; simpl; split; congruence. Qed.

Lemma all_space_trimStart s :
  all_chars is_space (trimStart s) = all_chars is_space s.
Proof.
  induction s as [|c s IH]; [done|]. cbn [trimStart all_chars].
  destruct (is_space c) eqn:Hc; [done|]. cbn [all_chars]. by rewrite Hc.
Qed.

Lemma trimEnd_empty s : trimEnd s = "" <-> all_chars is_space s = true.
Proof.
  induction s as [|c s IH]; [done|]. cbn [trimEnd all_chars].
  destruct (trimEnd s) as [|c' t] eqn:Ht.
  - destruct (is_space c); simpl; [tauto|].
    split; [discriminate | done].
  - split; [discriminate|]. intros [_ H]%andb_prop.
    apply IH in H. discriminate.
Qed.

Lemma trim_empty s : trim s = "" <-> all_chars is_space s = true.
Proof. unfold trim. by rewrite trimEnd_empty, all_space_trimStart. Qed.

Lemma prop_insert_ne (md : gmap string jsval) k k' v :
  k <> k' -> prop (<[k := v]> md) k' = prop md k'.
Proof. intros Hk. unfold prop. by rewrite lookup_insert_ne. Qed.

Lemma prop_insert_eq (md : gmap string jsval) k v :
  prop (<[k := v]> md) k = v.
Proof. unfold prop. by rewrite lookup_insert_eq. Qed.

Lemma buildBlock_fields m r :
  buildBlock m = Some r ->
  operation r = prop (parseMetadata (nth 0 (groups m) "")) "operation"
  /\ truthy (operation r) = true
  /\ line r = prop (parseMetadata (nth 0 (groups m) "")) "line"
  /\ line r <> VUndefined
  /\ insertContent r = trim (nth 1 (groups m) "")
  /\ (operation r = VString "delete" -> truthy (deleteCount r) = true)
  /\ raw r = matched m.
Proof.
  intros Hb. unfold buildBlock in Hb.
  set (md := parseMetadata (nth 0 (groups m) "")) in *.
  destruct (truthy (prop md "operation")) eqn:Hop; [|done].
  destruct (strict_eq (prop md "line") VUndefined) eqn:Hline; [done|].
  cbn [negb orb] in Hb. apply strict_eq_undefined in Hline.
  destruct (strict_eq (prop md "operation") (VString "delete")) eqn:Hdel;
    destruct (truthy (prop md "delete")) eqn:Htd;
    cbn [negb andb] in Hb; injection Hb as <-;
    cbn [operation line deleteCount insertContent raw];
    rewrite ?prop_insert_ne, ?prop_insert_eq, ?Hdel by done;
    repeat split; auto.
  - intros _. unfold js_or. by rewrite Htd.
  - intros _. unfold js_or. by rewrite Htd.
  - intros Hd. apply strict_eq_string in Hd. congruence.
Qed.

End ParsedRecords.

(** C6 as stated fails: a delete block with a body gives a delete record
    with a non-empty insert text, and the token [line:0] gives line 0. *)
Lemma parsed_delete_with_body_and_line_zero :
  map (fun r => (operation r, line r, deleteCount r, insertContent r))
      (parseLatexDiff (patchBlock "operation:delete line:0" ("foo" +:+ nl)))
  = [(VString "delete", VInt 0, VInt 1, "foo")].
Proof. vm_compute. reflexivity. Qed.

(** C6, amended.  Every record returned by [parseLatexDiff] comes from
    one block matched in the text.  Its operation and its line are the
    converted values of the [operation] and [line] tokens of the block:
    the operation is truthy and the line is defined, nothing more (a
    line may be 0, negative, NaN or a string).  Its insert text is the
    trimmed body of the block whatever the operation, hence empty exactly
    when the body is blank.  A delete record has a truthy delete
    count. *)
Theorem parsed_record_fields (content : string) (r : DiffBlock) :
  r ∈ parseLatexDiff content ->
  exists m,
    m ∈ blockMatches content
    /\ operation r = prop (parseMetadata (nth 0 (groups m) "")) "operation"
    /\ truthy (operation r) = true
    /\ line r = prop (parseMetadata (nth 0 (groups m) "")) "line"
    /\ line r <> VUndefined
    /\ insertContent r = trim (nth 1 (groups m) "")
    /\ (insertContent r = "" <-> all_chars is_space (nth 1 (groups m) "") = true)
    /\ (operation r = VString "delete" -> truthy (deleteCount r) = true).
Proof.
  unfold parseLatexDiff, blockMatches. rewrite parseLoop_matches.
  intros (m & Hm & Hb)%list_elem_of_omap.
  exists m. split; [exact Hm|].
  destruct (buildBlock_fields m r Hb) as (H1 & H2 & H3 & H4 & H5 & H6 & _).
  repeat split; auto.
  - rewrite H5. apply trim_empty.
  - rewrite H5. apply trim_empty.
Qed.

Lemma parsed_record_fields_witness :
  exists r,
    r ∈ parseLatexDiff (patchBlock "operation:delete line:0" ("foo" +:+ nl))
    /\ exists m,
        m ∈ blockMatches (patchBlock "operation:delete line:0" ("foo" +:+ nl))
        /\ operation r = prop (parseMetadata (nth 0 (groups m) "")) "operation"
        /\ truthy (operation r) = true
        /\ line r = prop (parseMetadata (nth 0 (groups m) "")) "line"
        /\ line r <> VUndefined
        /\ insertContent r = trim (nth 1 (groups m) "")
        /\ (insertContent r = ""
            <-> all_chars is_space (nth 1 (groups m) "") = true)
        /\ (operation r = VString "delete" -> truthy (deleteCount r) = true).
Proof.
  assert (Hex : exists r0,
             parseLatexDiff (patchBlock "operation:delete line:0" ("foo" +:+ nl))
             = [r0]) by (vm_compute; eauto).
  destruct Hex as [r0 Hr0]. exists r0.
  assert (Hin : r0 ∈ parseLatexDiff
                  (patchBlock "operation:delete line:0" ("foo" +:+ nl))).
  { rewrite Hr0. apply list_elem_of_here. }
  split; [exact Hin|].
  exact (parsed_record_fields _ r0 Hin).
Defined.

(** ** Matching one complete block *)

Section MatchBlock.

Context {R : Type}.
Implicit Types (k : string -> option R) (s t u w : string).

Lemma app_cons c u s : String c u +:+ s = String c (u +:+ s).
Proof. reflexivity. Qed.

Lemma app_empty s : "" +:+ s = s.
Proof. reflexivity. Qed.

Lemma length_app_str u s :
  String.length (u +:+ s) = (String.length u + String.length s)%nat.
Proof. induction u as [|c u IH]; [done|]. rewrite app_cons; simpl. by rewrite IH. Qed.

Lemma take_str_app u s : take_str (String.length u) (u +:+ s) = u.
Proof. induction u as [|c u IH]; [by destruct s|]. rewrite app_cons; simpl. by rewrite IH. Qed.

Lemma consumed_app u s : consumed (u +:+ s) s = u.
Proof.
  unfold consumed. rewrite length_app_str.
  replace (String.length u + String.length s - String.length s)%nat
    with (String.length u) by lia.
  apply take_str_app.
Qed.

Lemma consumed_all s : consumed s "" = s.
Proof.
  unfold consumed; simpl. rewrite Nat.sub_0_r.
  induction s as [|c s IH]; [done|]. simpl. by rewrite IH.
Qed.

Lemma strip_prefix_app l s : strip_prefix l (l +:+ s) = Some s.
Proof.
  induction l as [|c l IH]; [by destruct s|].
  rewrite app_cons; simpl. by rewrite Ascii.eqb_refl.
Qed.

Lemma rmatch_lit l s caps (k : string -> list string -> option R) :
  rmatch (RLit l) s caps k
  = match strip_prefix l s with
    | Some s' => k s' caps
    | None => None
    end.
Proof.
  revert s. induction l as [|c l IH]; intros s; [by destruct s|].
  destruct s as [|a s]; [done|]. cbn [RLit rmatch cmatch strip_prefix].
  destruct (Ascii.eqb a c); [apply IH | done].
Qed.

(** Greedy white space stops at the first character that is not white
    space when the continuation succeeds there. *)
Lemma greedy_stop s k r :
  starts_nonspace s = true ->
  k s = Some r ->
  star_greedy CSpace s k = Some r.
Proof.
  destruct s as [|c s]; [done|]. cbn [starts_nonspace star_greedy cmatch].
  intros Hc Hk. by destruct (is_space c).
Qed.

(** Greedy white space followed by a line feed finds nothing when the
    white space has no line feed. *)
Lemma greedy_newline_none s (k' : string -> option R) :
  after_last_nl s = None ->
  star_greedy CSpace s
    (fun s' => match s' with
               | String c s'' => if Ascii.eqb c LF then k' s'' else None
               | EmptyString => None
               end) = None.
Proof.
  induction s as [|c s IH]; [done|].
  cbn [after_last_nl star_greedy cmatch].
  destruct (is_space c) eqn:Hc.
  - destruct (after_last_nl s) as [t'|]; [done|].
    destruct (Ascii.eqb c LF); [done|]. intros _. by rewrite IH.
  - intros _. destruct (Ascii.eqb_spec c LF) as [->|]; [done|done].
Qed.

(** Greedy white space followed by a line feed: the line feed matched is
    the last one of the white space, when the continuation succeeds
    after it. *)
Lemma greedy_newline s t (k' : string -> option R) r :
  after_last_nl s = Some t ->
  k' t = Some r ->
  star_greedy CSpace s
    (fun s' => match s' with
               | String c s'' => if Ascii.eqb c LF then k' s'' else None
               | EmptyString => None
               end) = Some r.
Proof.
  revert t. induction s as [|c s IH]; intros t; [done|].
  cbn [after_last_nl star_greedy cmatch].
  destruct (is_space c); [|done].
  destruct (after_last_nl s) as [t'|] eqn:Hs.
  - intros [= ->] Hk. by rewrite (IH _ eq_refl Hk).
  - destruct (Ascii.eqb c LF) eqn:Hc; [|done]. intros [= <-] Hk.
    rewrite (greedy_newline_none s k' Hs). exact Hk.
Qed.

(** Greedy white space fails when the continuation wants an [@] and the
    first character after the white space is something else. *)
Lemma greedy_no_marker s k :
  (forall t, (forall t', t <> String "@" t') -> k t = None) ->
  no_marker_ahead s = true ->
  star_greedy CSpace s k = None.
Proof.
  intros Hk. induction s as [|c s IH]; [done|].
  cbn [no_marker_ahead star_greedy cmatch].
  destruct (is_space c) eqn:Hc.
  - intros Hs. rewrite (IH Hs). apply Hk. intros t' [= -> _]. done.
  - intros Hne. apply Hk. intros t' [= -> _]. done.
Qed.

Lemma no_marker_ahead_app u s :
  all_chars metaChar u = true ->
  ends_nonspace u = true ->
  no_marker_ahead (u +:+ s) = true.
Proof.
  induction u as [|c u IH]; [done|].
  rewrite app_cons. cbn [all_chars no_marker_ahead].
  intros [Hc Hu]%andb_prop He.
  destruct (is_space c) eqn:Hsp.
  - destruct u as [|c' u]; [cbn in He; by rewrite Hsp in He|]. by apply IH.
  - unfold metaChar in Hc. by apply andb_prop in Hc as [_ Hc].
Qed.

Lemma ends_nonspace_tail c u :
  u <> "" -> ends_nonspace (String c u) = ends_nonspace u.
Proof. by destruct u. Qed.

(** The lazy metadata group takes the whole metadata text. *)
Lemma lazy_metadata u s k r :
  all_chars metaChar u = true ->
  (u = "" \/ ends_nonspace u = true) ->
  (forall t, no_marker_ahead t = true -> k t = None) ->
  k s = Some r ->
  star_lazy CDot (u +:+ s) k = Some r.
Proof.
  intros Hu He Hk Hs. induction u as [|c u IH].
  - rewrite app_empty. destruct s; simpl; by rewrite Hs.
  - destruct He as [|He]; [done|].
    assert (Hfail : k (String c (u +:+ s)) = None).
    { rewrite <- app_cons. apply Hk. by apply no_marker_ahead_app. }
    rewrite app_cons. cbn [star_lazy]. rewrite Hfail.
    cbn [all_chars] in Hu. apply andb_prop in Hu as [Hc Hu].
    unfold metaChar in Hc. apply andb_prop in Hc as [Hc _].
    cbn [cmatch]. rewrite Hc. apply IH; [done|].
    destruct u as [|c' u]; [by left|]. right.
    by rewrite ends_nonspace_tail in He.
Qed.

(** The lazy body group stops at the first close fence. *)
Lemma lazy_body body k r :
  no_early_fence body = true ->
  (forall t, strip_prefix "```" t = None -> k t = None) ->
  k "```" = Some r ->
  star_lazy CAll (body +:+ "```") k = Some r.
Proof.
  intros Hb Hk Hend. induction body as [|c body IH].
  - rewrite app_empty. cbn [star_lazy]. by rewrite Hend.
  - cbn [no_early_fence] in Hb.
    destruct (strip_prefix "```" (String c body +:+ "```")) eqn:Hp; [done|].
    rewrite app_cons in Hp |- *. cbn [star_lazy cmatch]. rewrite (Hk _ Hp).
    by apply IH.
Qed.

End MatchBlock.

Lemma rmatch_seq {R} a b s caps (k : string -> list string -> option R) :
  rmatch (RSeq a b) s caps k = rmatch a s caps (fun s' caps' => rmatch b s' caps' k).
Proof. reflexivity. Qed.



(** The pieces of [blockRegex], one after the other. *)
Section Stages.
Context {R : Type}.
Implicit Types (K : string -> list string -> option R) (r : regex).

Lemma stage_literal l r s caps K :
  rmatch (RSeq (RLit l) r) (l +:+ s) caps K = rmatch r s caps K.
Proof. cbn [rmatch]. by rewrite rmatch_lit, strip_prefix_app. Qed.

Lemma greedy_stop_after w s (k : string -> option R) res :
  all_chars is_space w = true ->
  starts_nonspace s = true ->
  k s = Some res ->
  star_greedy CSpace (w +:+ s) k = Some res.
Proof.
  intros Hw Hs Hk. induction w as [|c w IH]; [by apply greedy_stop|].
  cbn [all_chars] in Hw. apply andb_prop in Hw as [Hc Hw].
  rewrite app_cons. cbn [star_greedy cmatch]. by rewrite Hc, IH.
Qed.

Lemma stage_space w r s caps K res :
  all_chars is_space w = true ->
  starts_nonspace s = true ->
  rmatch r s caps K = Some res ->
  rmatch (RSeq (RStar true CSpace) r) (w +:+ s) caps K = Some res.
Proof. intros. cbn [rmatch]. by apply greedy_stop_after. Qed.

Lemma stage_space_newline r s t caps K res :
  after_last_nl s = Some t ->
  rmatch r t caps K = Some res ->
  rmatch (RSeq (RStar true CSpace) (RSeq (RSet (CChar LF)) r)) s caps K = Some res.
Proof.
  intros Hs Hr. cbn [rmatch].
  by apply (greedy_newline s t (fun s'' => rmatch r s'' caps K)).
Qed.

Lemma stage_metadata u r s caps K res :
  all_chars metaChar u = true ->
  ends_nonspace u = true ->
  (forall t caps', no_marker_ahead t = true -> rmatch r t caps' K = None) ->
  rmatch r s (caps ++ [u]) K = Some res ->
  rmatch (RSeq (RGroup (RStar false CDot)) r) (u +:+ s) caps K = Some res.
Proof.
  intros Hu He Hfail Hr. cbn [rmatch].
  apply lazy_metadata; auto.
  by rewrite consumed_app.
Qed.

Lemma no_marker_fails r t caps K :
  no_marker_ahead t = true ->
  rmatch (RSeq (RStar true CSpace) (RSeq (RLit "@@") r)) t caps K = None.
Proof.
  intros Ht. cbn [rmatch]. apply greedy_no_marker; [|done].
  intros t' Hne. rewrite rmatch_lit.
  destruct t' as [|c t']; [done|]. cbn [strip_prefix].
  destruct (Ascii.eqb_spec c "@") as [->|]; [|done].
  by destruct (Hne t').
Qed.

Lemma stage_body body caps K res :
  no_early_fence body = true ->
  K "" (caps ++ [body]) = Some res ->
  rmatch (RSeq (RGroup (RStar false CAll)) (RLit "```")) (body +:+ "```") caps K
  = Some res.
Proof.
  intros Hb HK. cbn [rmatch RLit].
  apply lazy_body; [done| |].
  - intros t Ht. destruct t as [|c1 [|c2 [|c3 t]]]; try done;
      cbn [strip_prefix cmatch] in *;
      destruct (Ascii.eqb c1 "`"); try done;
      destruct (Ascii.eqb c2 "`"); try done;
      destruct (Ascii.eqb c3 "`"); done.
  - cbn. by rewrite consumed_app.
Qed.

End Stages.

Lemma no_early_fence_suffix w code :
  no_early_fence (w +:+ code) = true -> no_early_fence code = true.
Proof.
  induction w as [|c w IH]; [done|]. rewrite app_cons. cbn [no_early_fence].
  destruct (strip_prefix "```" (String c (w +:+ code) +:+ "```")); [done|].
  exact IH.
Qed.

Lemma trimStart_app_space w s :
  all_chars is_space w = true -> trimStart (w +:+ s) = trimStart s.
Proof.
  induction w as [|c w IH]; [done|]. cbn [all_chars].
  intros [Hc Hw]%andb_prop. rewrite app_cons. cbn [trimStart].
  rewrite Hc. by apply IH.
Qed.


Lemma exec_here r s m : match_here r s = Some m -> exec r s = Some m.
Proof. intros Hm. destruct s; cbn [exec]; by rewrite Hm. Qed.

Lemma parseLoop_end fuel : parseLoop fuel "" = [].
Proof. by destruct fuel. Qed.





(** ** The loop of the parser ends before its fuel does *)

Section Fuel.

Lemma star_greedy_le {R} cl s (k : string -> option R) res :
  star_greedy cl s k = Some res ->
  exists s', k s' = Some res /\ (String.length s' <= String.length s)%nat.
Proof.
  induction s as [|c s IH]; cbn [star_greedy]; [eauto|].
  destruct (cmatch cl c); [|eauto].
  destruct (star_greedy cl s k) as [res'|] eqn:Hg; [|eauto].
  intros [= ->]. destruct (IH eq_refl) as (s' & Hk & Hle).
  exists s'. split; [done|]. simpl. lia.
Qed.

Lemma star_lazy_le {R} cl s (k : string -> option R) res :
  star_lazy cl s k = Some res ->
  exists s', k s' = Some res /\ (String.length s' <= String.length s)%nat.
Proof.
  induction s as [|c s IH]; cbn [star_lazy].
  - destruct (k "") eqn:Hk; [|done]. intros [= ->]. eauto.
  - destruct (k (String c s)) eqn:Hk; [intros [= ->]; eauto|].
    destruct (cmatch cl c); [|done].
    intros (s' & Hk' & Hle)%IH. exists s'. split; [done|]. simpl. lia.
Qed.

Lemma rmatch_le {R} r :
  forall s caps (K : string -> list string -> option R) res,
    rmatch r s caps K = Some res ->
    exists s' caps', K s' caps' = Some res
                     /\ (String.length s' <= String.length s)%nat.
Proof.
  induction r as [|cl|greedy cl|r1 IH1 r2 IH2|r1 IH1];
    intros s caps K res; cbn [rmatch].
  - eauto.
  - destruct s as [|c s]; [done|]. destruct (cmatch cl c); [|done].
    intros HK. exists s, caps. split; [done|]. simpl. lia.
  - destruct greedy.
    + intros (s' & HK & Hle)%star_greedy_le. eauto.
    + intros (s' & HK & Hle)%star_lazy_le. eauto.
  - intros (s1 & caps1 & H1 & Hle1)%IH1.
    apply IH2 in H1 as (s2 & caps2 & H2 & Hle2).
    exists s2, caps2. split; [done|]. lia.
  - intros (s1 & caps1 & H1 & Hle1)%IH1. eauto.
Qed.

Lemma strip_prefix_length l s s' :
  strip_prefix l s = Some s' ->
  String.length s = (String.length l + String.length s')%nat.
Proof.
  revert s. induction l as [|a l IH]; intros s.
  - destruct s; intros [= <-]; reflexivity.
  - destruct s as [|b s]; [done|]. cbn [strip_prefix].
    destruct (Ascii.eqb b a); [|done]. intros Hs%IH. simpl. lia.
Qed.

Lemma match_here_block_shrinks s m :
  match_here blockRegex s = Some m ->
  (String.length (rest m) < String.length s)%nat.
Proof.
  unfold match_here, blockRegex. rewrite rmatch_seq, rmatch_lit.
  destruct (strip_prefix fence_open s) as [s1|] eqn:Hp; [|done].
  apply strip_prefix_length in Hp.
  intros (s' & caps' & [= <-] & Hle)%rmatch_le.
  cbn [rest]. rewrite Hp. simpl. lia.
Qed.

Lemma exec_block_shrinks s m :
  exec blockRegex s = Some m ->
  (String.length (rest m) < String.length s)%nat.
Proof.
  induction s as [|c s IH]; cbn [exec].
  - destruct (match_here blockRegex "") eqn:Hm; [|done].
    intros [= <-]. by apply match_here_block_shrinks.
  - destruct (match_here blockRegex (String c s)) eqn:Hm.
    + intros [= <-]. by apply match_here_block_shrinks.
    + intros Hs%IH. simpl. lia.
Qed.

Lemma parseLoop_fuel f1 f2 s :
  (String.length s < f1)%nat -> (String.length s < f2)%nat ->
  parseLoop f1 s = parseLoop f2 s.
Proof.
  revert f2 s. induction f1 as [|f1 IH]; intros f2 s H1 H2; [lia|].
  destruct f2 as [|f2]; [lia|]. cbn [parseLoop].
  destruct (exec blockRegex s) as [m|] eqn:Hm; [|done].
  apply exec_block_shrinks in Hm.
  rewrite (IH f2 (rest m)) by lia. reflexivity.
Qed.

(** Any fuel above the length of the text gives the result of
    [parseLatexDiff]. *)
Lemma parseLatexDiff_fuel fuel content :
  (String.length content < fuel)%nat ->
  parseLoop fuel content = parseLatexDiff content.
Proof. intros Hf. unfold parseLatexDiff. apply parseLoop_fuel; lia. Qed.

End Fuel.

(** * Further properties of the applicator *)

Import DiffPreview DiffStreaming LatexBlocks Vocabulary2.

(** ** Splitting into lines and joining back *)

Section SplitJoin.

Lemma app_assoc_str s t u : (s +:+ t) +:+ u = s +:+ t +:+ u.
Proof. induction s as [|c s IH]; [done|]. rewrite !app_cons. by rewrite IH. Qed.

Lemma app_empty_r s : s +:+ "" = s.
Proof. induction s as [|c s IH]; [done|]. rewrite app_cons. by rewrite IH. Qed.

Lemma join_cons sep x l : l <> [] -> join sep (x :: l) = x +:+ sep +:+ join sep l.
Proof. by destruct l. Qed.

Lemma join_split s : join nl (split_char LF s) = s.
Proof.
  induction s as [|c s IH]; [done|]. cbn [split_char].
  pose proof (split_char_nonempty LF s) as Hne.
  destruct (Ascii.eqb_spec c LF) as [->|Hc].
  - rewrite join_cons by done. by rewrite IH.
  - destruct (split_char LF s) as [|w ws]; [done|].
    destruct ws as [|w' ws].
    + cbn [join] in *. by rewrite IH.
    + rewrite join_cons in IH by done. rewrite join_cons by done.
      rewrite app_cons. by rewrite IH.
Qed.

Lemma split_char_oneLine s : Forall (fun l => oneLine l = true) (split_char LF s).
Proof.
  induction s as [|c s IH]; [by repeat constructor|]. cbn [split_char].
  destruct (Ascii.eqb c LF) eqn:Hc; [by constructor|].
  destruct (split_char LF s) as [|w ws]; [repeat constructor; cbn; by rewrite Hc|].
  inversion IH as [|? ? Hw Hws]; subst. constructor; [|done].
  unfold oneLine in *. cbn [all_chars]. by rewrite Hc, Hw.
Qed.

Lemma split_line_then x r :
  oneLine x = true -> split_char LF (x +:+ nl +:+ r) = x :: split_char LF r.
Proof.
  induction x as [|c x IH]; [done|]. unfold oneLine. cbn [all_chars].
  intros [Hc Hx]%andb_prop. rewrite app_cons. cbn [split_char].
  apply negb_true_iff in Hc. rewrite Hc. by rewrite (IH Hx).
Qed.

Lemma split_one_line x : oneLine x = true -> split_char LF x = [x].
Proof.
  induction x as [|c x IH]; [done|]. unfold oneLine. cbn [all_chars split_char].
  intros [Hc Hx]%andb_prop. apply negb_true_iff in Hc. rewrite Hc.
  by rewrite (IH Hx).
Qed.

Lemma split_join L :
  L <> [] -> Forall (fun l => oneLine l = true) L ->
  split_char LF (join nl L) = L.
Proof.
  induction L as [|x L IH]; [done|]. intros _ HL.
  inversion HL as [|? ? Hx HL']; subst.
  destruct L as [|y L]; [by apply split_one_line|].
  rewrite join_cons by done. rewrite split_line_then by done.
  by rewrite IH.
Qed.

Lemma insertLines_oneLine t : Forall (fun l => oneLine l = true) (insertLines t).
Proof.
  unfold insertLines. destruct (String.eqb t ""); [constructor|].
  apply split_char_oneLine.
Qed.

Lemma splice_oneLine lines start dc items :
  Forall (fun l => oneLine l = true) lines ->
  Forall (fun l => oneLine l = true) items ->
  Forall (fun l => oneLine l = true) (splice lines start dc items).
Proof.
  intros Hl Hi. unfold splice. rewrite !Forall_app.
  split; [by apply Forall_take|]. split; [done | by apply Forall_drop].
Qed.

Lemma applyBlock_oneLine lines b :
  Forall (fun l => oneLine l = true) lines ->
  Forall (fun l => oneLine l = true) (applyBlock lines b).
Proof.
  intros Hl. unfold applyBlock.
  repeat match goal with |- context [if ?c then _ else _] => destruct c end;
    auto using splice_oneLine, insertLines_oneLine.
Qed.

Lemma foldl_applyBlock_oneLine S lines :
  Forall (fun l => oneLine l = true) lines ->
  Forall (fun l => oneLine l = true) (foldl applyBlock lines S).
Proof.
  revert lines. induction S as [|b S IH]; intros lines Hl; [done|].
  cbn [foldl]. by apply IH, applyBlock_oneLine.
Qed.

Lemma applyBlock_unknown lines b : unknownOperation b -> applyBlock lines b = lines.
Proof.
  intros (Ha & Hr & Hd). unfold applyBlock.
  apply strict_eq_string_false in Ha, Hr, Hd. by rewrite Ha, Hr, Hd.
Qed.

End SplitJoin.

(** X1.  A batch with no record, or whose records all carry an operation
    other than add, replace and delete, leaves the text exactly as it
    was. *)
Theorem unknown_operations_change_nothing :
  (forall content, applyLatexDiffs content [] = content)
  /\ (forall content P,
         Forall unknownOperation P -> applyLatexDiffs content P = content).
Proof.
  split.
  - intros content. unfold applyLatexDiffs. cbn. apply join_split.
  - intros content P HP. unfold applyLatexDiffs.
    assert (HS : Forall unknownOperation (sort_by byLineDescending P))
      by (by rewrite sort_by_perm).
    revert HS. generalize (sort_by byLineDescending P) as S.
    intros S HS. induction HS as [|b S Hb HS IH]; cbn [foldl].
    + apply join_split.
    + by rewrite applyBlock_unknown.
Qed.

Lemma unknown_operations_change_nothing_witness :
  Forall unknownOperation
    [mkDiffBlock (VString "insert") (VInt 2) (VInt 0) "A" ∅ "";
     mkDiffBlock (VInt 5) (VInt 1) (VInt 1) "" ∅ ""]
  /\ applyLatexDiffs eightLines
       [mkDiffBlock (VString "insert") (VInt 2) (VInt 0) "A" ∅ "";
        mkDiffBlock (VInt 5) (VInt 1) (VInt 1) "" ∅ ""]
     = eightLines.
Proof.
  assert (H : Forall unknownOperation
                [mkDiffBlock (VString "insert") (VInt 2) (VInt 0) "A" ∅ "";
                 mkDiffBlock (VInt 5) (VInt 1) (VInt 1) "" ∅ ""]).
  { repeat constructor; simpl; discriminate. }
  split; [exact H|].
  exact (proj2 unknown_operations_change_nothing eightLines _ H).
Defined.

(** ** Order of the batch *)

Section BatchOrder.

Lemma sorted_strict (l : list DiffBlock) :
  StronglySorted descending l ->
  NoDup (lineOf <$> l) ->
  StronglySorted (fun a b => lineOf b < lineOf a) l.
Proof.
  induction 1 as [|x l Hs IH Hx]; intros Hnd; [constructor|].
  rewrite fmap_cons in Hnd. apply NoDup_cons in Hnd as [Hnotin Hnd].
  constructor; [by apply IH|].
  rewrite Forall_forall in Hx |- *. intros y Hy.
  specialize (Hx y Hy). unfold descending in Hx.
  assert (lineOf y <> lineOf x).
  { intros Heq. apply Hnotin. rewrite <- Heq. by apply list_elem_of_fmap_2. }
  lia.
Qed.

Lemma sort_by_unique P P' :
  P ≡ₚ P' ->
  Forall integerLine P ->
  NoDup (lineOf <$> P) ->
  sort_by byLineDescending P = sort_by byLineDescending P'.
Proof.
  intros Hperm Hint Hnd.
  assert (Hint' : Forall integerLine P') by (by rewrite <- Hperm).
  assert (Hnd' : NoDup (lineOf <$> P')) by (by rewrite <- Hperm).
  apply (StronglySorted_unique_strong (fun a b => lineOf b < lineOf a)).
  - intros; lia.
  - apply sorted_strict; [by apply sort_by_sorted | by rewrite sort_by_perm].
  - apply sorted_strict; [by apply sort_by_sorted | by rewrite sort_by_perm].
  - by rewrite !sort_by_perm.
Qed.

End BatchOrder.

(** X2.  When the records of a batch have integer lines that are all
    different, the result does not depend on the order in which the
    batch lists them. *)
Theorem batch_order_is_irrelevant (content : string) (P P' : list DiffBlock) :
  P ≡ₚ P' ->
  Forall integerLine P ->
  NoDup (lineOf <$> P) ->
  applyLatexDiffs content P = applyLatexDiffs content P'.
Proof.
  intros Hperm Hint Hnd. unfold applyLatexDiffs.
  by rewrite (sort_by_unique P P' Hperm Hint Hnd).
Qed.

Lemma batch_order_is_irrelevant_witness :
  [replaceLine1 "Z"; deleteLine7 ∅ ""; addAtLine2 ∅ ""]
    ≡ₚ [addAtLine2 ∅ ""; replaceLine1 "Z"; deleteLine7 ∅ ""]
  /\ Forall integerLine [replaceLine1 "Z"; deleteLine7 ∅ ""; addAtLine2 ∅ ""]
  /\ NoDup (lineOf <$> [replaceLine1 "Z"; deleteLine7 ∅ ""; addAtLine2 ∅ ""])
  /\ applyLatexDiffs eightLines [replaceLine1 "Z"; deleteLine7 ∅ ""; addAtLine2 ∅ ""]
     = applyLatexDiffs eightLines
         [addAtLine2 ∅ ""; replaceLine1 "Z"; deleteLine7 ∅ ""].
Proof.
  assert (H1 : [replaceLine1 "Z"; deleteLine7 ∅ ""; addAtLine2 ∅ ""]
                 ≡ₚ [addAtLine2 ∅ ""; replaceLine1 "Z"; deleteLine7 ∅ ""]).
  { change [replaceLine1 "Z"; deleteLine7 ∅ ""; addAtLine2 ∅ ""]
      with ([replaceLine1 "Z"; deleteLine7 ∅ ""] ++ [addAtLine2 ∅ ""]).
    rewrite Permutation_app_comm. reflexivity. }
  assert (H2 : Forall integerLine
                 [replaceLine1 "Z"; deleteLine7 ∅ ""; addAtLine2 ∅ ""]).
  { repeat constructor; eexists; reflexivity. }
  assert (H3 : NoDup (lineOf <$>
                 [replaceLine1 "Z"; deleteLine7 ∅ ""; addAtLine2 ∅ ""])).
  { apply (bool_decide_unpack _). vm_compute. exact I. }
  split; [exact H1|]. split; [exact H2|]. split; [exact H3|].
  exact (batch_order_is_irrelevant eightLines _ _ H1 H2 H3).
Defined.

(** ** Lines outside the document *)

Section OutOfRange.

Lemma splice_past_end lines z dcv items :
  Z.of_nat (length lines) <= z ->
  splice lines (Dec z 0) dcv items = lines ++ items.
Proof.
  intros Hz. unfold splice. cbn [ToIntegerOrInfinity].
  destruct (Z.ltb_spec z 0) as [?|_]; [lia|].
  rewrite (Z.min_r z) by lia.
  assert (Hdrop : forall c, c = 0 ->
            drop (Z.to_nat (Z.of_nat (length lines) + c)) lines = []).
  { intros c ->. apply drop_ge. lia. }
  rewrite Nat2Z.id, firstn_all.
  f_equal. rewrite Hdrop; [by rewrite app_nil_r|].
  destruct (ToIntegerOrInfinity (ToNumber dcv)) as [|[]|z' k]; lia.
Qed.

Lemma splice_from_end lines z c items :
  z < 0 -> 0 <= c ->
  splice lines (Dec z 0) (VInt c) items
  = take (Z.to_nat (Z.max (Z.of_nat (length lines) + z) 0)) lines ++ items
      ++ drop (Z.to_nat (Z.max (Z.of_nat (length lines) + z) 0) + Z.to_nat c) lines.
Proof.
  intros Hz Hc. unfold splice. cbn [ToIntegerOrInfinity ToNumber].
  destruct (Z.ltb_spec z 0) as [_|?]; [|lia].
  set (i := Z.max (Z.of_nat (length lines) + z) 0).
  rewrite (Z.max_l c 0) by lia. f_equal. f_equal.
  destruct (Z.le_gt_cases c (Z.of_nat (length lines) - i)) as [Hle|Hgt].
  - rewrite Z.min_l by lia. f_equal. lia.
  - rewrite Z.min_r by lia. rewrite !drop_ge by lia. reflexivity.
Qed.

End OutOfRange.

(** X3.  A record whose integer line lies past the last line of the
    document is not refused: an add or a replace appends its insert
    lines after the last line and removes nothing, a delete leaves the
    text as it was, whatever the delete count. *)
Theorem line_past_the_end (content : string) (b : DiffBlock) (l : Z) :
  line b = VInt l ->
  lineCount content < l ->
  (operation b = VString "add" \/ operation b = VString "replace" ->
   applyLatexDiffs content [b]
   = join nl (split_char LF content ++ insertLines (insertContent b)))
  /\ (operation b = VString "delete" -> applyLatexDiffs content [b] = content).
Proof.
  intros Hl Hpast. unfold lineCount in Hpast.
  rewrite applyLatexDiffs_one. unfold applyBlock. rewrite Hl, js_sub_int.
  split.
  - intros [Hop|Hop]; rewrite Hop; simpl strict_eq; cbn iota;
      by rewrite splice_past_end by lia.
  - intros Hop. rewrite Hop; simpl strict_eq; cbn iota.
    rewrite splice_past_end by lia. rewrite app_nil_r. apply join_split.
Qed.

Lemma line_past_the_end_witness :
  line (mkDiffBlock (VString "replace") (VInt 12) (VInt 3) "Z" ∅ "") = VInt 12
  /\ lineCount eightLines < 12
  /\ applyLatexDiffs eightLines
       [mkDiffBlock (VString "replace") (VInt 12) (VInt 3) "Z" ∅ ""]
     = join nl ["L1"; "L2"; "L3"; "L4"; "L5"; "L6"; "L7"; "L8"; "Z"].
Proof.
  assert (H : lineCount eightLines < 12) by (vm_compute; reflexivity).
  split; [reflexivity|]. split; [exact H|].
  exact (proj1 (line_past_the_end eightLines
                  (mkDiffBlock (VString "replace") (VInt 12) (VInt 3) "Z" ∅ "")
                  12 eq_refl H) (or_intror eq_refl)).
Defined.

(** X4.  A record whose integer line is 0 or negative is not refused
    either: its place is counted from the end of the document, at
    zero-based index [lineCount + line - 1] (0 when that is negative).
    With line 0 an add inserts before the last line and a delete removes
    the last line. *)
Theorem line_before_the_start (content : string) (b : DiffBlock)
        (l : Z) (d : option Z) :
  line b = VInt l ->
  deleteCount b = optInt d ->
  l <= 0 ->
  0 <= countOrOne d ->
  let lines := split_char LF content in
  let i := Z.to_nat (Z.max (lineCount content + l - 1) 0) in
  let dc := Z.to_nat (countOrOne d) in
  let ins := insertLines (insertContent b) in
  (operation b = VString "add" ->
   applyLatexDiffs content [b] = join nl (take i lines ++ ins ++ drop i lines))
  /\ (operation b = VString "replace" ->
      applyLatexDiffs content [b]
      = join nl (take i lines ++ ins ++ drop (i + dc) lines))
  /\ (operation b = VString "delete" ->
      applyLatexDiffs content [b] = join nl (take i lines ++ drop (i + dc) lines)).
Proof.
  intros Hl Hd Hneg Hcount lines i dc ins.
  rewrite applyLatexDiffs_one. unfold applyBlock.
  rewrite Hl, Hd, js_or_count, js_sub_int. fold lines.
  assert (Hi : Z.max (Z.of_nat (length lines) + (l - 1)) 0
               = Z.max (lineCount content + l - 1) 0).
  { unfold lineCount. fold lines. f_equal. lia. }
  repeat split; intros Hop; rewrite Hop; simpl strict_eq; cbn iota;
    rewrite splice_from_end by lia; rewrite Hi; fold i; try reflexivity.
  by rewrite Nat.add_0_r.
Qed.

Lemma line_before_the_start_witness :
  line (mkDiffBlock (VString "delete") (VInt 0) (VInt 1) "" ∅ "") = VInt 0
  /\ deleteCount (mkDiffBlock (VString "delete") (VInt 0) (VInt 1) "" ∅ "")
     = optInt (Some 1)
  /\ 0 <= 0
  /\ 0 <= countOrOne (Some 1)
  /\ applyLatexDiffs eightLines
       [mkDiffBlock (VString "delete") (VInt 0) (VInt 1) "" ∅ ""]
     = join nl ["L1"; "L2"; "L3"; "L4"; "L5"; "L6"; "L7"].
Proof.
  assert (H0 : 0 <= 0) by lia.
  assert (Hc : 0 <= countOrOne (Some 1)) by (vm_compute; congruence).
  split; [reflexivity|]. split; [reflexivity|]. split; [exact H0|].
  split; [exact Hc|].
  exact (proj2 (proj2 (line_before_the_start eightLines
                  (mkDiffBlock (VString "delete") (VInt 0) (VInt 1) "" ∅ "")
                  0 (Some 1) eq_refl eq_refl H0 Hc)) eq_refl).
Defined.

(** ** The lines of the result *)

Section ResultLines.

Lemma applyLatexDiffs_lines content P :
  split_char LF (applyLatexDiffs content P)
  = match foldl applyBlock (split_char LF content) (sort_by byLineDescending P) with
    | [] => [""]
    | R => R
    end.
Proof.
  unfold applyLatexDiffs.
  pose proof (foldl_applyBlock_oneLine (sort_by byLineDescending P)
                (split_char LF content) (split_char_oneLine content)) as HR.
  destruct (foldl applyBlock (split_char LF content) (sort_by byLineDescending P))
    as [|x R] eqn:E; [done|].
  by apply split_join.
Qed.

Lemma lineCount_join L :
  Forall (fun l => oneLine l = true) L ->
  lineCount (join nl L) = Z.max 1 (Z.of_nat (length L)).
Proof.
  intros HL. unfold lineCount. destruct L as [|x L]; [done|].
  rewrite split_join by done. simpl length. lia.
Qed.

Lemma validate_accepts content b l d :
  line b = VInt l ->
  deleteCount b = optInt d ->
  valid (validateDiffBlock content b) = true ->
  1 <= l <= lineCount content + 1
  /\ (operation b = VString "replace" \/ operation b = VString "delete" ->
      l + countOrOne d - 1 <= lineCount content).
Proof.
  intros Hl Hd. unfold validateDiffBlock. fold (lineCount content).
  rewrite Hl, Hd, js_or_count, js_add_int, js_sub_int, num_ltb_int.
  unfold js_lt, js_gt; cbn [ToNumber]. rewrite !num_ltb_int.
  destruct (l <? 1) eqn:E1, (lineCount content + 1 <? l) eqn:E2;
    cbn [orb app length Nat.eqb valid]; try discriminate.
  apply Z.ltb_ge in E1, E2.
  destruct (strict_eq (operation b) (VString "replace")) eqn:Er;
    destruct (strict_eq (operation b) (VString "delete")) eqn:Ed;
    destruct (lineCount content <? l + countOrOne d - 1) eqn:E3;
    cbn [orb app length Nat.eqb valid]; try discriminate; intros _;
    (split; [lia|]); try apply Z.ltb_ge in E3; try (intros; lia);
    apply strict_eq_string_false in Er, Ed; intros [?|?]; congruence.
Qed.

End ResultLines.

(** X5.  Splitting the result of [applyLatexDiffs] into lines gives back
    exactly the line sequence that the splices produced: no inserted
    line holds a line feed.  The one exception is a document emptied of
    all its lines, which reads back as one empty line. *)
Theorem result_splits_into_patched_lines (content : string) (P : list DiffBlock) :
  split_char LF (applyLatexDiffs content P)
  = match foldl applyBlock (split_char LF content) (sort_by byLineDescending P) with
    | [] => [""]
    | R => R
    end.
Proof. apply applyLatexDiffs_lines. Qed.

(** X6.  A record that [validateDiffBlock] accepts (integer line, delete
    count unset or a non-negative integer), applied alone, changes the
    number of lines by exactly the lines it inserts minus the lines it
    removes: an add gives [lineCount + inserted], a replace
    [lineCount - count + inserted], a delete [lineCount - count], count
    being 1 when the delete count is 0 or unset; a document left with
    no line counts one empty line. *)
Theorem accepted_record_line_count (content : string) (b : DiffBlock)
        (l : Z) (d : option Z) :
  line b = VInt l ->
  deleteCount b = optInt d ->
  0 <= countOrOne d ->
  valid (validateDiffBlock content b) = true ->
  let n := lineCount content in
  let inserted := Z.of_nat (length (insertLines (insertContent b))) in
  (operation b = VString "add" ->
   lineCount (applyLatexDiffs content [b]) = n + inserted)
  /\ (operation b = VString "replace" ->
      lineCount (applyLatexDiffs content [b])
      = Z.max 1 (n - countOrOne d + inserted))
  /\ (operation b = VString "delete" ->
      lineCount (applyLatexDiffs content [b]) = Z.max 1 (n - countOrOne d)).
Proof.
  intros Hl Hd Hcount Hvalid n inserted.
  destruct (validate_accepts content b l d Hl Hd Hvalid) as [Hrange Hfit].
  pose proof (lineCount_pos content) as Hpos. fold n in Hpos, Hrange, Hfit.
  pose proof (split_char_oneLine content) as Hlines.
  pose proof (insertLines_oneLine (insertContent b)) as Hins.
  rewrite applyLatexDiffs_one. unfold applyBlock.
  rewrite Hl, Hd, js_or_count, js_sub_int.
  assert (Hn : n = Z.of_nat (length (split_char LF content))) by done.
  repeat split; intros Hop; rewrite Hop in *; simpl strict_eq; cbn iota;
    rewrite splice_in_range by lia;
    (rewrite lineCount_join
      by (rewrite !Forall_app; auto using Forall_take, Forall_drop));
    rewrite !length_app, length_take, length_drop; fold inserted.
  - lia.
  - assert (l + countOrOne d - 1 <= n) by auto. lia.
  - assert (l + countOrOne d - 1 <= n) by auto. simpl length. lia.
Qed.

Lemma accepted_record_line_count_witness :
  line (replaceLine1 "") = VInt 1
  /\ deleteCount (replaceLine1 "") = optInt (Some 1)
  /\ 0 <= countOrOne (Some 1)
  /\ valid (validateDiffBlock "only line" (replaceLine1 "")) = true
  /\ lineCount (applyLatexDiffs "only line" [replaceLine1 ""]) = 1
  /\ applyLatexDiffs "only line" [replaceLine1 ""] = "".
Proof.
  assert (Hc : 0 <= countOrOne (Some 1)) by (vm_compute; congruence).
  assert (Hv : valid (validateDiffBlock "only line" (replaceLine1 "")) = true)
    by reflexivity.
  split; [reflexivity|]. split; [reflexivity|]. split; [exact Hc|].
  split; [exact Hv|]. split; [|reflexivity].
  exact (proj1 (proj2 (accepted_record_line_count "only line" (replaceLine1 "")
                         1 (Some 1) eq_refl eq_refl Hc Hv)) eq_refl).
Defined.

(** ** Numbered lines *)

Section LineNumbers.

Lemma imap_numbers (L : list string) (k : Z) :
  number <$> imap (fun index line => mkNumberedLine (Z.of_nat index + k) line) L
  = seqZ k (Z.of_nat (length L)).
Proof.
  revert k. induction L as [|x L IH]; intros k; [done|].
  rewrite imap_cons, fmap_cons. cbn [number length].
  rewrite Nat2Z.inj_succ, seqZ_cons by lia. rewrite Z.pred_succ.
  f_equal; try lia.
  erewrite imap_ext; [apply (IH (Z.succ k))|].
  intros i y _. cbn. f_equal. lia.
Qed.

Lemma imap_contents (L : list string) (k : Z) :
  lineContent <$> imap (fun index line => mkNumberedLine (Z.of_nat index + k) line) L
  = L.
Proof.
  revert k. induction L as [|x L IH]; intros k; [done|].
  rewrite imap_cons, fmap_cons. cbn [lineContent]. f_equal.
  erewrite imap_ext; [apply (IH (Z.succ k))|].
  intros i y _. cbn. f_equal. lia.
Qed.

End LineNumbers.

(** X7.  [getLineNumbers] lists every line of the text once, in order,
    numbered 1, 2, ... up to the number of lines; joining the listed
    contents with line feeds gives back the text. *)
Theorem getLineNumbers_numbers_and_contents (content : string) :
  number <$> getLineNumbers content = seqZ 1 (lineCount content)
  /\ lineContent <$> getLineNumbers content = split_char LF content
  /\ join nl (lineContent <$> getLineNumbers content) = content.
Proof.
  unfold getLineNumbers, lineCount. split; [apply imap_numbers|].
  rewrite imap_contents. split; [done | apply join_split].
Qed.

(** ** Previews *)

Section Previews.

Lemma clampIndex_int len z :
  0 <= z -> clampIndex len (VInt z) = Z.min z len.
Proof.
  intros Hz. unfold clampIndex. cbn [ToNumber ToIntegerOrInfinity].
  destruct (Z.ltb_spec z 0); [lia | done].
Qed.

Lemma slice_int lines a b :
  0 <= a -> a <= b ->
  slice lines (VInt a) (VInt b)
  = take (Z.to_nat (b - a)) (drop (Z.to_nat a) lines).
Proof.
  intros Ha Hab. unfold slice. rewrite !clampIndex_int by lia.
  set (len := Z.of_nat (length lines)).
  destruct (Z.le_gt_cases a len) as [Hin|Hout].
  - rewrite (Z.min_l a) by lia.
    destruct (Z.le_gt_cases b len) as [Hb|Hb].
    + by rewrite Z.min_l by lia.
    + rewrite Z.min_r by lia.
      rewrite !take_ge by (rewrite length_drop; lia). reflexivity.
  - rewrite !Z.min_r by lia. rewrite Z.sub_diag.
    rewrite (drop_ge lines (Z.to_nat a)) by lia.
    by rewrite take_nil.
Qed.

Lemma num_max_zero z : num_max (Dec 0 0) (Dec z 0) = Dec (Z.max 0 z) 0.
Proof.
  unfold num_max. rewrite num_ltb_int.
  destruct (Z.ltb_spec 0 z); f_equal; lia.
Qed.

Lemma previewLatexDiffs_one content b :
  previewLatexDiffs content [b] = [previewChange (split_char LF content) b].
Proof. reflexivity. Qed.

Lemma byLineAscending_positive a b :
  integerLine a -> integerLine b ->
  num_ltb (Dec 0 0) (byLineAscending a b) = (lineOf b <? lineOf a).
Proof.
  intros [x Hx] [y Hy]. unfold byLineAscending, lineOf.
  rewrite Hx, Hy, js_sub_int, num_ltb_int.
  destruct (Z.ltb_spec 0 (x - y)), (Z.ltb_spec y x); auto; lia.
Qed.

Lemma sort_insert_ascending x l :
  integerLine x -> Forall integerLine l ->
  StronglySorted ascending l ->
  StronglySorted ascending (sort_insert byLineAscending x l).
Proof.
  intros Hx Hl Hs. induction Hs as [|y l Hs IH Hy]; cbn [sort_insert].
  - repeat constructor.
  - inversion Hl as [|? ? Hiy Hil]; subst.
    rewrite (byLineAscending_positive x y Hx Hiy).
    destruct (Z.ltb_spec (lineOf y) (lineOf x)) as [Hlt|Hge].
    + constructor; [by apply IH|].
      rewrite sort_insert_perm. constructor; [unfold ascending; lia | done].
    + constructor; [by constructor|].
      constructor; [done|].
      eapply Forall_impl; [exact Hy|]. unfold ascending. intros; simpl in *; lia.
Qed.

Lemma sort_by_ascending l :
  Forall integerLine l ->
  StronglySorted ascending (sort_by byLineAscending l).
Proof.
  induction 1 as [|x l Hx Hl IH]; simpl; [constructor|].
  apply sort_insert_ascending; auto. by rewrite sort_by_perm.
Qed.

Lemma sorted_strict_ascending (l : list DiffBlock) :
  StronglySorted ascending l ->
  NoDup (lineOf <$> l) ->
  StronglySorted (fun a b => lineOf a < lineOf b) l.
Proof.
  induction 1 as [|x l Hs IH Hx]; intros Hnd; [constructor|].
  rewrite fmap_cons in Hnd. apply NoDup_cons in Hnd as [Hnotin Hnd].
  constructor; [by apply IH|].
  rewrite Forall_forall in Hx |- *. intros y Hy.
  specialize (Hx y Hy). unfold ascending in Hx.
  assert (lineOf y <> lineOf x).
  { intros Heq. apply Hnotin. rewrite <- Heq. by apply list_elem_of_fmap_2. }
  lia.
Qed.

Lemma sorted_reverse (l : list DiffBlock) :
  StronglySorted (fun a b => lineOf b < lineOf a) l ->
  StronglySorted (fun a b => lineOf a < lineOf b) (reverse l).
Proof.
  induction 1 as [|x l Hs IH Hx]; [constructor|].
  rewrite reverse_cons. apply StronglySorted_app_2.
  - intros y z Hy Hz. apply list_elem_of_singleton in Hz as ->.
    rewrite Forall_forall in Hx. apply Hx. by apply elem_of_reverse.
  - exact IH.
  - repeat constructor.
Qed.

Lemma ascending_is_reversed_descending P :
  Forall integerLine P ->
  NoDup (lineOf <$> P) ->
  sort_by byLineAscending P = reverse (sort_by byLineDescending P).
Proof.
  intros Hint Hnd.
  apply (StronglySorted_unique_strong (fun a b => lineOf a < lineOf b)).
  - intros; lia.
  - apply sorted_strict_ascending; [by apply sort_by_ascending|].
    by rewrite sort_by_perm.
  - apply sorted_reverse, sorted_strict; [by apply sort_by_sorted|].
    by rewrite sort_by_perm.
  - by rewrite reverse_Permutation, !sort_by_perm.
Qed.

End Previews.

(** X8.  For one record with a known operation, an integer line between
    1 and [lineCount + 1] and a delete count unset or a non-negative
    integer, the preview tells what the application does: [before] is
    the run of document lines found at index [line - 1] that are taken
    out (none for an add), and the applied text is the document with
    that run replaced by [after] (nothing for a delete).  The context
    holds the two lines, or fewer, that stand before index [line - 1],
    and the two lines that start at index [line - 1 + count], where the
    count is 1 for an add too: the line at the place of an insertion is
    in neither context. *)
Theorem preview_shows_the_edit (content : string) (b : DiffBlock)
        (l : Z) (d : option Z) :
  line b = VInt l ->
  deleteCount b = optInt d ->
  1 <= l <= lineCount content + 1 ->
  0 <= countOrOne d ->
  knownOperation b ->
  let lines := split_char LF content in
  let i := Z.to_nat (l - 1) in
  exists ch,
    previewLatexDiffs content [b] = [ch]
    /\ lines = take i lines ++ before ch ++ drop (i + length (before ch)) lines
    /\ applyLatexDiffs content [b]
       = join nl (take i lines ++ after ch ++ drop (i + length (before ch)) lines)
    /\ contextBefore ch = drop (i - 2) (take i lines)
    /\ contextAfter ch = take 2 (drop (i + Z.to_nat (countOrOne d)) lines)
    /\ (operation b = VString "add" -> before ch = [])
    /\ (operation b = VString "delete" -> after ch = []).
Proof.
  intros Hl Hd Hrange Hcount Hknown lines i.
  exists (previewChange lines b). split; [apply previewLatexDiffs_one|].
  unfold lineCount in Hrange. fold lines in Hrange.
  set (dc := Z.to_nat (countOrOne d)).
  assert (Hbefore : slice lines (VInt (l - 1)) (VInt (l - 1 + countOrOne d))
                    = take dc (drop i lines)).
  { rewrite slice_int by lia. subst dc i. do 2 f_equal. lia. }
  assert (Hcut : forall k, take i lines ++ take k (drop i lines)
                            ++ drop (i + length (take k (drop i lines))) lines
                           = lines).
  { intros k. rewrite <- drop_drop.
    destruct (Nat.le_gt_cases k (length (drop i lines))) as [Hle|Hgt].
    - rewrite length_take, Nat.min_l by lia. rewrite take_drop. apply take_drop.
    - rewrite (take_ge (drop i lines) k) by lia.
      rewrite drop_all, app_nil_r. apply take_drop. }
  assert (Hrest : drop (i + length (take dc (drop i lines))) lines
                  = drop (i + dc) lines).
  { rewrite length_take, length_drop.
    destruct (Nat.le_gt_cases dc (length lines - i)) as [Hle|Hgt].
    - by rewrite Nat.min_l by lia.
    - rewrite Nat.min_r by lia. rewrite !drop_ge by lia. reflexivity. }
  assert (Hctx1 : contextBefore (previewChange lines b)
                  = drop (i - 2) (take i lines)).
  { unfold previewChange; cbn [contextBefore].
    rewrite Hl, js_sub_int. unfold num_sub; cbn [num_neg num_add Nat.max
      Nat.sub scale]. rewrite num_max_zero, slice_int by lia.
    rewrite take_drop_commute.
    match goal with
    | |- drop ?a (take ?c _) = _ =>
        replace c with i by (subst i; lia);
        replace a with (i - 2)%nat by (subst i; lia)
    end.
    reflexivity. }
  assert (Hctx2 : contextAfter (previewChange lines b)
                  = take 2 (drop (i + dc) lines)).
  { unfold previewChange; cbn [contextAfter].
    rewrite Hl, Hd, js_sub_int, js_or_count, !js_add_int, slice_int by lia.
    subst i dc. do 2 f_equal; lia. }
  rewrite applyLatexDiffs_one, Hctx1, Hctx2. fold lines.
  unfold applyBlock, previewChange.
  cbn [before after].
  rewrite Hl, Hd, js_sub_int, js_or_count, !js_add_int, Hbefore.
  destruct Hknown as [Hop|[Hop|Hop]]; rewrite Hop; simpl strict_eq;
    cbn [orb negb andb]; cbn iota;
    rewrite ?splice_in_range by lia; fold i dc; rewrite ?Hrest;
    cbn [length Nat.add app Z.to_nat]; rewrite ?Nat.add_0_r;
    (split; [first [by rewrite take_drop | by rewrite <- Hrest, Hcut]|]);
    (split; [reflexivity|]); (split; [reflexivity|]); (split; [reflexivity|]);
    split; first [reflexivity | discriminate | (intros; reflexivity)].
Qed.

Lemma preview_shows_the_edit_witness :
  line (deleteLine7 ∅ "") = VInt 7
  /\ deleteCount (deleteLine7 ∅ "") = optInt (Some 1)
  /\ 1 <= 7 <= lineCount eightLines + 1
  /\ 0 <= countOrOne (Some 1)
  /\ knownOperation (deleteLine7 ∅ "")
  /\ exists ch,
      previewLatexDiffs eightLines [deleteLine7 ∅ ""] = [ch]
      /\ before ch = ["L7"] /\ after ch = []
      /\ contextBefore ch = ["L5"; "L6"] /\ contextAfter ch = ["L8"].
Proof.
  assert (Hr : 1 <= 7 <= lineCount eightLines + 1) by (vm_compute; split; congruence).
  assert (Hc : 0 <= countOrOne (Some 1)) by (vm_compute; congruence).
  assert (Hk : knownOperation (deleteLine7 ∅ "")) by (right; right; reflexivity).
  split; [reflexivity|]. split; [reflexivity|]. split; [exact Hr|].
  split; [exact Hc|]. split; [exact Hk|].
  destruct (preview_shows_the_edit eightLines (deleteLine7 ∅ "") 7 (Some 1)
              eq_refl eq_refl Hr Hc Hk) as (ch & Hch & _ & _ & Hb & Ha & _ & Hd).
  exists ch. split; [exact Hch|].
  injection Hch as <-. repeat split; reflexivity.
Defined.

(** X9.  For a batch whose records have integer lines that are all
    different, [previewLatexDiffs] gives one preview per record, each
    computed on the unpatched document, in ascending order of line: the
    reverse of the order in which [applyLatexDiffs] applies the
    records. *)
Theorem previews_reverse_the_application_order (content : string)
        (P : list DiffBlock) :
  Forall integerLine P ->
  NoDup (lineOf <$> P) ->
  previewLatexDiffs content P
  = previewChange (split_char LF content)
      <$> reverse (sort_by byLineDescending P)
  /\ applyLatexDiffs content P
     = join nl (foldl applyBlock (split_char LF content)
                  (sort_by byLineDescending P))
  /\ length (previewLatexDiffs content P) = length P
  /\ StronglySorted (fun x y => lineOf x < lineOf y)
       (reverse (sort_by byLineDescending P)).
Proof.
  intros Hint Hnd. unfold previewLatexDiffs.
  rewrite (ascending_is_reversed_descending P Hint Hnd).
  split; [reflexivity|]. split; [reflexivity|]. split.
  - rewrite length_map, length_reverse.
    apply Permutation_length, sort_by_perm.
  - apply sorted_reverse, sorted_strict; [by apply sort_by_sorted|].
    by rewrite sort_by_perm.
Qed.

Lemma previews_reverse_the_application_order_witness :
  Forall integerLine [deleteLine7 ∅ ""; addAtLine2 ∅ ""]
  /\ NoDup (lineOf <$> [deleteLine7 ∅ ""; addAtLine2 ∅ ""])
  /\ changeLine <$> previewLatexDiffs eightLines [deleteLine7 ∅ ""; addAtLine2 ∅ ""]
     = [VInt 2; VInt 7].
Proof.
  assert (H1 : Forall integerLine [deleteLine7 ∅ ""; addAtLine2 ∅ ""]).
  { repeat constructor; eexists; reflexivity. }
  assert (H2 : NoDup (lineOf <$> [deleteLine7 ∅ ""; addAtLine2 ∅ ""])).
  { apply (bool_decide_unpack _). vm_compute. exact I. }
  split; [exact H1|]. split; [exact H2|].
  rewrite (proj1 (previews_reverse_the_application_order eightLines _ H1 H2)).
  reflexivity.
Defined.

(** ** Text without a backtick *)

Section NoBacktick.

Lemma rmatch_lit_fail {R} l r s caps (K : string -> list string -> option R) :
  strip_prefix l s = None -> rmatch (RSeq (RLit l) r) s caps K = None.
Proof. intros Hs. by rewrite rmatch_seq, rmatch_lit, Hs. Qed.

Lemma strip_prefix_backtick p u s :
  all_chars notBacktick u = true ->
  u <> "" \/ s = "" ->
  strip_prefix (String "`" p) (u +:+ s) = None.
Proof.
  destruct u as [|c u].
  - intros _ [ ? | -> ]; done.
  - rewrite app_cons. cbn [all_chars strip_prefix].
    intros [Hc _]%andb_prop _. unfold notBacktick in Hc.
    by destruct (Ascii.eqb c "`").
Qed.

Lemma all_chars_tail p c s : all_chars p (String c s) = true -> all_chars p s = true.
Proof. cbn [all_chars]. by intros [_ Hs]%andb_prop. Qed.

Lemma all_chars_app p u s :
  all_chars p (u +:+ s) = (all_chars p u && all_chars p s).
Proof.
  induction u as [|c u IH]; [done|]. rewrite app_cons. cbn [all_chars].
  by rewrite IH, andb_assoc.
Qed.

(** A pattern that opens with a backtick finds nothing in the part of
    the text that comes before the first backtick. *)
Lemma exec_skip_no_backtick p r u s :
  all_chars notBacktick u = true ->
  exec (RSeq (RLit (String "`" p)) r) (u +:+ String "`" s)
  = exec (RSeq (RLit (String "`" p)) r) (String "`" s).
Proof.
  induction u as [|c u IH]; [done|]. intros Hu.
  pose proof (strip_prefix_backtick p (String c u) (String "`" s) Hu) as Hp.
  rewrite app_cons in Hp |- *. cbn [exec]. unfold match_here at 1.
  rewrite rmatch_lit_fail by (apply Hp; by left).
  apply IH. by apply all_chars_tail in Hu.
Qed.

Lemma exec_no_backtick p r s :
  all_chars notBacktick s = true ->
  exec (RSeq (RLit (String "`" p)) r) s = None.
Proof.
  induction s as [|c s IH]; intros Hs.
  - cbn [exec]. unfold match_here. by rewrite rmatch_lit_fail.
  - pose proof (strip_prefix_backtick p (String c s) "" Hs) as Hp.
    rewrite app_empty_r in Hp.
    cbn [exec]. unfold match_here.
    rewrite rmatch_lit_fail by (apply Hp; by left).
    apply IH. by apply all_chars_tail in Hs.
Qed.

Lemma streaming_exec_no_backtick s :
  all_chars notBacktick s = true -> streaming_exec s = None.
Proof.
  induction s as [|c s IH]; intros Hs.
  - reflexivity.
  - pose proof (strip_prefix_backtick "``latex-diff" (String c s) "" Hs) as Hp.
    rewrite app_empty_r in Hp.
    cbn [streaming_exec]. unfold streaming_here, streamingHead.
    rewrite rmatch_lit_fail by (apply Hp; by left).
    apply IH. by apply all_chars_tail in Hs.
Qed.

End NoBacktick.

(** X10.  A response in which no backtick occurs carries nothing for any
    of the recognisers: both marker predicates are false, the two
    parsers and the extractor of plain blocks return no element, and
    [askAI], in this agent and in the first one, answers as plain
    conversation and leaves the store as it is: same text, same undo
    history, no call of the callback. *)
Theorem text_without_backtick_is_conversation (r : string) :
  all_chars notBacktick r = true ->
  hasLatexDiffs r = false
  /\ hasStreamingLatexDiffs r = false
  /\ parseLatexDiff r = []
  /\ diffBlocks (parseStreamingDiff r) = []
  /\ hasStreamingDiffs (parseStreamingDiff r) = false
  /\ extractRegularLatexBlocks r = []
  /\ (forall now st, askAI r now st = (st, Conversation r))
  /\ (forall st, BasicAgent.askAI r st = (st, None)).
Proof.
  intros Hr.
  assert (Hmarker : exec markerRegex r = None) by (by apply exec_no_backtick).
  assert (Hblock : exec blockRegex r = None) by (by apply exec_no_backtick).
  assert (Hlatex : exec latexRegex r = None) by (by apply exec_no_backtick).
  assert (Hregular : exec regularBlockRegex r = None) by (by apply exec_no_backtick).
  assert (Hstream : streaming_exec r = None) by (by apply streaming_exec_no_backtick).
  assert (Hhas : hasLatexDiffs r = false).
  { unfold hasLatexDiffs, test. by rewrite Hmarker. }
  split; [exact Hhas|]. split; [exact Hhas|].
  split; [unfold parseLatexDiff; cbn [parseLoop]; by rewrite Hblock|].
  assert (Hnone : streamLoop (S (String.length r)) r 0 = []).
  { cbn [streamLoop]. by rewrite Hstream. }
  split; [unfold parseStreamingDiff; cbn [diffBlocks]; exact Hnone|].
  split; [unfold parseStreamingDiff; cbn [hasStreamingDiffs]; by rewrite Hnone|].
  split; [unfold extractRegularLatexBlocks; cbn [extractLoop]; by rewrite Hregular|].
  split.
  - intros now st. unfold askAI. by rewrite Hhas, Hlatex.
  - intros st. unfold BasicAgent.askAI. by rewrite Hlatex.
Qed.

Lemma text_without_backtick_is_conversation_witness :
  all_chars notBacktick "Use \section{Intro} on line 3." = true
  /\ askAI "Use \section{Intro} on line 3." 7 (initializeDocument "a" (Some 1%nat) loaded)
     = (initializeDocument "a" (Some 1%nat) loaded,
        Conversation "Use \section{Intro} on line 3.").
Proof.
  assert (H : all_chars notBacktick "Use \section{Intro} on line 3." = true)
    by reflexivity.
  split; [exact H|].
  apply (text_without_backtick_is_conversation _ H).
Defined.

(** ** Text that grows *)

Lemma star_greedy_zero {R} cl s (k : string -> option R) :
  k s <> None -> star_greedy cl s k <> None.
Proof.
  intros Hk. destruct s as [|c s]; cbn [star_greedy]; [done|].
  destruct (cmatch cl c); [|done].
  by destruct (star_greedy cl s k).
Qed.

Lemma star_lazy_zero {R} cl s (k : string -> option R) :
  k s <> None -> star_lazy cl s k <> None.
Proof.
  intros Hk. destruct s as [|c s]; cbn [star_lazy]; by destruct (k _).
Qed.

Section Extend.

Context {R R' : Type}.

Lemma star_greedy_extend cl t s (k : string -> option R) (k' : string -> option R') :
  (forall s', k s' <> None -> k' (s' +:+ t) <> None) ->
  star_greedy cl s k <> None -> star_greedy cl (s +:+ t) k' <> None.
Proof.
  intros Hk. induction s as [|c s IH].
  - cbn [star_greedy]. intros H%Hk. by apply star_greedy_zero.
  - rewrite app_cons. cbn [star_greedy].
    destruct (cmatch cl c).
    + destruct (star_greedy cl s k) eqn:Hs.
      * intros _. destruct (star_greedy cl (s +:+ t) k'); [done|].
        by destruct IH.
      * intros H%Hk. rewrite app_cons in H.
        by destruct (star_greedy cl (s +:+ t) k').
    + intros H%Hk. by rewrite app_cons in H.
Qed.

Lemma star_lazy_extend cl t s (k : string -> option R) (k' : string -> option R') :
  (forall s', k s' <> None -> k' (s' +:+ t) <> None) ->
  star_lazy cl s k <> None -> star_lazy cl (s +:+ t) k' <> None.
Proof.
  intros Hk. induction s as [|c s IH].
  - cbn [star_lazy]. destruct (k "") eqn:Hs; [|done].
    intros _. apply star_lazy_zero. apply (Hk ""). by rewrite Hs.
  - rewrite app_cons. cbn [star_lazy].
    destruct (k (String c s)) eqn:Hs.
    + intros _. pose proof (Hk (String c s)) as H. rewrite Hs, app_cons in H.
      destruct (k' (String c (s +:+ t))); [done|]. by destruct H.
    + destruct (cmatch cl c); [|done]. intros H%IH.
      by destruct (k' (String c (s +:+ t))).
Qed.

(** A match stays possible when text is added after the subject,
    whatever the pattern. *)
Lemma rmatch_extend t r :
  forall s caps caps' (K : string -> list string -> option R)
         (K' : string -> list string -> option R'),
    (forall s' c c', K s' c <> None -> K' (s' +:+ t) c' <> None) ->
    rmatch r s caps K <> None -> rmatch r (s +:+ t) caps' K' <> None.
Proof.
  induction r as [|cl|greedy cl|r1 IH1 r2 IH2|r1 IH1];
    intros s caps caps' K K' HK; cbn [rmatch].
  - apply HK.
  - destruct s as [|c s]; [done|]. rewrite app_cons.
    destruct (cmatch cl c); [apply HK | done].
  - destruct greedy.
    + apply star_greedy_extend. intros s'. apply HK.
    + apply star_lazy_extend. intros s'. apply HK.
  - apply IH1. intros s' c c'. apply IH2, HK.
  - apply IH1. intros s' c c'. apply HK.
Qed.

End Extend.

Lemma exec_extend r s t : exec r s <> None -> exec r (s +:+ t) <> None.
Proof.
  assert (Hhere : forall s, match_here r s <> None -> exec r (s +:+ t) <> None).
  { intros s' Hs'.
    assert (Hm : match_here r (s' +:+ t) <> None).
    { unfold match_here in *. revert Hs'. by apply rmatch_extend. }
    destruct (match_here r (s' +:+ t)) as [m|] eqn:Hm'; [|done].
    by rewrite (exec_here _ _ _ Hm'). }
  induction s as [|c s IH].
  - cbn [exec]. destruct (match_here r "") eqn:Hm; [|done].
    intros _. apply Hhere. by rewrite Hm.
  - cbn [exec]. destruct (match_here r (String c s)) eqn:Hm.
    + intros _. apply Hhere. by rewrite Hm.
    + intros H%IH. rewrite app_cons. cbn [exec].
      by destruct (match_here r (String c (s +:+ t))).
Qed.

Lemma test_extend r s t : test r s = true -> test r (s +:+ t) = true.
Proof.
  unfold test. intros Hs.
  pose proof (exec_extend r s t) as H.
  destruct (exec r s); [|done].
  destruct (exec r (s +:+ t)); [done|]. by destruct H.
Qed.

(** X11.  Once the marker of a patch block has been seen in the text
    received so far, it is seen in every longer text: the two marker
    predicates are monotone along a stream, and a response that
    continues such a text is handled by the diff branch of [askAI]. *)
Theorem marker_stays_once_seen (received later : string) :
  hasStreamingLatexDiffs received = true ->
  hasStreamingLatexDiffs (received +:+ later) = true
  /\ hasLatexDiffs (received +:+ later) = true
  /\ forall now st,
       (askAI (received +:+ later) now st).2
       = DiffsApplied (received +:+ later) (parseLatexDiff (received +:+ later)).
Proof.
  intros Hs.
  assert (H : hasLatexDiffs (received +:+ later) = true) by (by apply test_extend).
  split; [exact H|]. split; [exact H|].
  intros now st. unfold askAI. by rewrite H.
Qed.

Lemma marker_stays_once_seen_witness :
  hasStreamingLatexDiffs (openBlock "operation:add line:1" true) = true
  /\ hasLatexDiffs (openBlock "operation:add line:1" true +:+ nl +:+ "x```") = true.
Proof.
  assert (H : hasStreamingLatexDiffs (openBlock "operation:add line:1" true) = true)
    by (vm_compute; reflexivity).
  split; [exact H|].
  apply (marker_stays_once_seen _ (nl +:+ "x```") H).
Defined.

(** ** Previews of a stream *)

Section StreamLoop.

Lemma fenceOrEnd_le {R} (K : string -> list string -> option R) s caps res :
  fenceOrEnd K s caps = Some res ->
  exists s' caps', K s' caps' = Some res
                   /\ (String.length s' <= String.length s)%nat.
Proof.
  unfold fenceOrEnd.
  destruct (rmatch (RLit (nl +:+ "```")) s caps K) as [res'|] eqn:Hf.
  - intros [= ->]. by apply rmatch_le in Hf.
  - destruct s; [|done]. intros HK. eauto.
Qed.

Lemma streaming_here_shrinks s m :
  streaming_here s = Some m ->
  (String.length (rest m) < String.length s)%nat.
Proof.
  unfold streaming_here, streamingHead. rewrite rmatch_seq, rmatch_lit.
  destruct (strip_prefix fence_open s) as [s1|] eqn:Hp; [|done].
  apply strip_prefix_length in Hp.
  intros (s' & caps' & Hf & Hle)%rmatch_le.
  apply fenceOrEnd_le in Hf as (s'' & caps'' & [= <-] & Hle').
  cbn [rest]. rewrite Hp. simpl. lia.
Qed.

Lemma streaming_exec_shrinks s m :
  streaming_exec s = Some m ->
  (String.length (rest m) < String.length s)%nat.
Proof.
  induction s as [|c s IH]; cbn [streaming_exec].
  - destruct (streaming_here "") eqn:Hm; [|done].
    intros [= <-]. by apply streaming_here_shrinks.
  - destruct (streaming_here (String c s)) eqn:Hm.
    + intros [= <-]. by apply streaming_here_shrinks.
    + intros Hs%IH. simpl. lia.
Qed.

Lemma streamLoop_fuel f1 f2 s index :
  (String.length s < f1)%nat -> (String.length s < f2)%nat ->
  streamLoop f1 s index = streamLoop f2 s index.
Proof.
  revert f2 s index. induction f1 as [|f1 IH]; intros f2 s index H1 H2; [lia|].
  destruct f2 as [|f2]; [lia|]. cbn [streamLoop].
  destruct (streaming_exec s) as [m|] eqn:Hm; [|done].
  apply streaming_exec_shrinks in Hm.
  rewrite !(IH f2 (rest m)) by lia. reflexivity.
Qed.

Lemma buildStreamingBlock_fields m index b :
  buildStreamingBlock m index = Some b ->
  blockIndex b = index
  /\ streaming b = true
  /\ truthy (streamOperation b) = true
  /\ truthy (streamLine b) = true
  /\ streamOperation b = prop (streamMetadata b) "operation"
  /\ streamLine b = prop (streamMetadata b) "line"
  /\ streamDeleteCount b = js_or (prop (streamMetadata b) "delete") (VInt 0)
  /\ streamInsertContent b = trim (nth 1 (groups m) "")
  /\ streamMetadata b = parseMetadata (nth 0 (groups m) "").
Proof.
  unfold buildStreamingBlock.
  destruct (truthy (prop (parseMetadata (nth 0 (groups m) "")) "operation")) eqn:Hop;
    [|done].
  destruct (truthy (prop (parseMetadata (nth 0 (groups m) "")) "line")) eqn:Hline;
    [|done].
  intros [= <-]. by cbn.
Qed.

Lemma streamLoop_indices fuel content index :
  blockIndex <$> streamLoop fuel content index
  = seqZ index (Z.of_nat (length (streamLoop fuel content index))).
Proof.
  revert content index. induction fuel as [|fuel IH]; intros content index; [done|].
  cbn [streamLoop]. destruct (streaming_exec content) as [m|]; [|done].
  destruct (buildStreamingBlock m index) as [b|] eqn:Hb; [|apply IH].
  apply buildStreamingBlock_fields in Hb as [Hi _].
  rewrite fmap_cons, IH, Hi. cbn [length].
  rewrite (seqZ_cons index) by lia. do 2 f_equal; lia.
Qed.

Lemma streamLoop_blocks fuel content index b :
  b ∈ streamLoop fuel content index ->
  exists m i, buildStreamingBlock m i = Some b.
Proof.
  revert content index. induction fuel as [|fuel IH]; intros content index.
  - by intros ?%elem_of_nil.
  - cbn [streamLoop]. destruct (streaming_exec content) as [m|].
    + destruct (buildStreamingBlock m index) as [b'|] eqn:Hb.
      * intros [->|Hin]%elem_of_cons; [eauto | by eapply IH].
      * apply IH.
    + by intros ?%elem_of_nil.
Qed.

End StreamLoop.

(** X12.  What [parseStreamingDiff] returns for any text: the text
    itself; previews whose [blockIndex] counts 0, 1, 2, ... in the order
    of the list, matches without a preview taking no number; every
    preview has [streaming] set, an operation and a line that are truthy
    (so a line that is never the number 0) and a delete count that is
    truthy or the number 0; [hasStreamingDiffs] tells that the list is
    not empty.  The loop ends within any fuel above the length of the
    text. *)
Theorem streaming_previews_are_numbered (content : string) :
  let D := parseStreamingDiff content in
  streamContent D = content
  /\ blockIndex <$> diffBlocks D = seqZ 0 (Z.of_nat (length (diffBlocks D)))
  /\ Forall (fun b =>
               streaming b = true
               /\ truthy (streamOperation b) = true
               /\ truthy (streamLine b) = true
               /\ streamLine b <> VInt 0
               /\ (truthy (streamDeleteCount b) = true
                   \/ streamDeleteCount b = VInt 0))
            (diffBlocks D)
  /\ (hasStreamingDiffs D = true <-> diffBlocks D <> [])
  /\ forall fuel, (String.length content < fuel)%nat ->
                  streamLoop fuel content 0 = diffBlocks D.
Proof.
  intros D. split; [reflexivity|]. split; [apply streamLoop_indices|].
  split; [|split].
  - apply Forall_forall. intros b Hb.
    apply streamLoop_blocks in Hb as (m & i & Hb).
    apply buildStreamingBlock_fields in Hb
      as (_ & Hs & Hop & Hline & _ & _ & Hdc & _).
    split; [done|]. split; [done|]. split; [done|]. split.
    + intros Hz. by rewrite Hz in Hline.
    + rewrite Hdc. unfold js_or.
      destruct (truthy (prop (streamMetadata b) "delete")) eqn:Ht; auto.
  - subst D. unfold parseStreamingDiff. cbn [hasStreamingDiffs diffBlocks].
    destruct (streamLoop _ content 0); cbn; split; congruence.
  - intros fuel Hf. subst D. unfold parseStreamingDiff. cbn [diffBlocks].
    apply streamLoop_fuel; lia.
Qed.

(** ** The two agents *)

(** X13.  The agent with an undo history, seen without its history, is
    the first agent: [initializeDocument], [getDocument] and
    [setDocument] act alike on the text, the callback and the calls
    made to it, and so does [askAI] on every response in which
    [hasLatexDiffs] finds no marker. *)
Theorem first_agent_is_simulated (st : Agent) (now : Z) :
  (forall c cb,
      forgetHistory (initializeDocument c cb st)
      = BasicAgent.initializeDocument c cb (forgetHistory st))
  /\ BasicAgent.getDocument (forgetHistory st) = getDocument st
  /\ (forall c a,
         forgetHistory (setDocument c a now st)
         = BasicAgent.setDocument c (forgetHistory st))
  /\ (forall r,
         hasLatexDiffs r = false ->
         BasicAgent.askAI r (forgetHistory st)
         = (forgetHistory (askAI r now st).1,
            match (askAI r now st).2 with
            | DocumentReplaced _ newContent => Some newContent
            | _ => None
            end)).
Proof.
  assert (Hset : forall c a,
             forgetHistory (setDocument c a now st)
             = BasicAgent.setDocument c (forgetHistory st)).
  { intros c a. unfold forgetHistory, BasicAgent.setDocument.
    cbn [BasicAgent.storeCallback BasicAgent.storeNotified].
    by rewrite setDocument_content, setDocument_callback, setDocument_notified. }
  split; [done|]. split; [done|]. split; [exact Hset|].
  intros r Hr. unfold BasicAgent.askAI, askAI. rewrite Hr.
  destruct (exec latexRegex r) as [m|]; [|done].
  cbn [fst snd]. by rewrite Hset.
Qed.

(** ** Repeated undo *)

Section UndoOrder.

Lemma undoLastChange_pops st h e :
  undoHistory st = h ++ [e] ->
  undoHistory (undoLastChange st).2 = h
  /\ documentContent (undoLastChange st).2 = content e
  /\ changeCallback (undoLastChange st).2 = changeCallback st
  /\ notified (undoLastChange st).2
     = match changeCallback st with
       | Some cb => notified st ++ [(cb, content e)]
       | None => notified st
       end.
Proof.
  intros Hh. rewrite (undoLastChange_snoc st h e Hh). cbn [snd].
  rewrite setDocument_history, setDocument_content, setDocument_callback,
    setDocument_notified.
  done.
Qed.

Lemma undoTimes_pops n :
  forall st,
    (n <= length (undoHistory st))%nat ->
    undoHistory (undoTimes n st)
    = take (length (undoHistory st) - n) (undoHistory st)
    /\ (0 < n ->
        content <$> undoHistory st !! (length (undoHistory st) - n)%nat
        = Some (documentContent (undoTimes n st)))%nat
    /\ changeCallback (undoTimes n st) = changeCallback st
    /\ notified (undoTimes n st)
       = match changeCallback st with
         | Some cb =>
             notified st
             ++ ((fun e => (cb, content e))
                   <$> reverse (drop (length (undoHistory st) - n) (undoHistory st)))
         | None => notified st
         end.
Proof.
  induction n as [|n IH]; intros st Hn.
  - cbn [undoTimes]. rewrite Nat.sub_0_r, firstn_all, drop_all.
    split; [done|]. split; [lia|]. split; [done|].
    destruct (changeCallback st); [by rewrite app_nil_r | done].
  - destruct (undoHistory st) as [|e h _] eqn:Hh using rev_ind;
      [simpl in Hn; lia|].
    destruct (undoLastChange_pops st h e Hh) as (H1 & H2 & H3 & H4).
    rewrite length_app in Hn |- *. cbn [length] in Hn |- *.
    cbn [undoTimes].
    destruct (IH (undoLastChange st).2) as (I1 & I2 & I3 & I4);
      [rewrite H1; lia|].
    rewrite H1 in I1, I2, I4. rewrite H3 in I3, I4.
    replace (length h + 1 - S n)%nat with (length h - n)%nat by lia.
    split; [|split; [|split]].
    + rewrite I1. rewrite take_app_le by lia. reflexivity.
    + intros _. destruct n as [|n].
      * cbn [undoTimes]. rewrite H2, Nat.sub_0_r.
        rewrite lookup_app_r by lia. by rewrite Nat.sub_diag.
      * rewrite lookup_app_l by lia. apply I2. lia.
    + by rewrite I3.
    + rewrite I4, H4. destruct (changeCallback st) as [cb|]; [|done].
      rewrite drop_app_le by lia. rewrite reverse_app. cbn.
      by rewrite <- app_assoc.
Qed.

End UndoOrder.

(** X14.  Undo is last in, first out.  [n] calls of [undoLastChange],
    [n] at most the length of the history, take the last [n] entries
    off the history and leave in the store the text of the oldest of
    them; the registered callback has been called once per undo, with
    the texts of the entries from the newest to the oldest; no call
    adds an entry.  After as many undos as there were entries the
    history is empty, [canUndo] is false and further undos change
    nothing. *)
Theorem undo_is_last_in_first_out (st : Agent) (n : nat) :
  (n <= length (undoHistory st))%nat ->
  let h := undoHistory st in
  undoHistory (undoTimes n st) = take (length h - n) h
  /\ ((0 < n)%nat ->
      content <$> h !! (length h - n)%nat
      = Some (documentContent (undoTimes n st)))
  /\ (forall cb,
         changeCallback st = Some cb ->
         notified (undoTimes n st)
         = notified st
           ++ ((fun e => (cb, content e)) <$> reverse (drop (length h - n) h)))
  /\ (n = length h ->
      canUndo (undoTimes n st) = false
      /\ forall k, undoTimes k (undoTimes n st) = undoTimes n st).
Proof.
  intros Hn h. destruct (undoTimes_pops n st Hn) as (H1 & H2 & H3 & H4).
  fold h in H1, H2, H4.
  split; [exact H1|]. split; [exact H2|]. split.
  - intros cb Hcb. by rewrite H4, Hcb.
  - intros ->. rewrite Nat.sub_diag, take_0 in H1.
    split; [unfold canUndo; by rewrite H1|].
    intros k. induction k as [|k IH]; [done|].
    cbn [undoTimes]. unfold undoLastChange at 1. rewrite H1. exact IH.
Qed.

Lemma undo_is_last_in_first_out_witness :
  let st := setDocument "c" true 2
              (setDocument "b" true 1 (initializeDocument "a" (Some 0%nat) loaded)) in
  (2 <= length (undoHistory st))%nat
  /\ documentContent (undoTimes 2 st) = "a"
  /\ undoHistory (undoTimes 2 st) = []
  /\ notified (undoTimes 2 st)
     = [(0%nat, "b"); (0%nat, "c"); (0%nat, "b"); (0%nat, "a")].
Proof.
  intros st.
  assert (Hn : (2 <= length (undoHistory st))%nat) by (vm_compute; lia).
  split; [exact Hn|].
  destruct (undo_is_last_in_first_out st 2 Hn) as (H1 & H2 & H3 & _).
  split; [|split].
  - apply (inj Some). rewrite <- H2 by lia. reflexivity.
  - rewrite H1. reflexivity.
  - rewrite (H3 0%nat eq_refl). reflexivity.
Defined.

(** ** Undo of a replacement *)

(** X15.  A [setDocument] that records history and changes the text,
    followed by [undoLastChange], gives back the store: the text and the
    callback are those held before, and so is the history when it had
    fewer than 20 entries; when it had 20 its oldest entry is gone.  The
    entry pushed in between holds the old text, the description
    [Document replaced] and the clock value; the callback, if there is
    one, has been called twice, with the new text and then with the
    old. *)
Theorem undo_reverts_setDocument (st : Agent) (newContent : string) (now : Z) :
  documentContent st <> newContent ->
  let st1 := setDocument newContent true now st in
  let st2 := (undoLastChange st1).2 in
  (undoLastChange st1).1 = true
  /\ last (undoHistory st1)
     = Some (mkUndoEntry (documentContent st) "Document replaced" now)
  /\ documentContent st2 = documentContent st
  /\ changeCallback st2 = changeCallback st
  /\ undoHistory st2
     = drop (length (undoHistory st) + 1 - 20) (undoHistory st)
  /\ ((length (undoHistory st) < 20)%nat -> undoHistory st2 = undoHistory st)
  /\ (length (undoHistory st) = 20%nat -> undoHistory st2 = drop 1 (undoHistory st))
  /\ notified st2
     = match changeCallback st with
       | Some cb => notified st ++ [(cb, newContent); (cb, documentContent st)]
       | None => notified st
       end.
Proof.
  intros Hne st1 st2.
  assert (Hh : undoHistory st1
               = drop (length (undoHistory st) + 1 - 20) (undoHistory st)
                 ++ [mkUndoEntry (documentContent st) "Document replaced" now]).
  { subst st1. rewrite setDocument_history.
    apply String.eqb_neq in Hne. rewrite Hne. cbn [andb negb].
    rewrite addToUndoHistory_history. unfold MAX_UNDO_HISTORY.
    rewrite drop_app_le by lia. reflexivity. }
  destruct (undoLastChange_pops st1 _ _ Hh) as (H1 & H2 & H3 & H4).
  fold st2 in H1, H2, H3, H4.
  split; [by rewrite (undoLastChange_snoc st1 _ _ Hh)|].
  split; [by rewrite Hh, last_snoc|].
  split; [exact H2|].
  split; [subst st1; by rewrite H3, setDocument_callback|].
  split; [exact H1|]. split; [|split].
  - intros Hlt. rewrite H1.
    by replace (length (undoHistory st) + 1 - 20)%nat with 0%nat by lia.
  - intros Heq. by rewrite H1, Heq.
  - rewrite H4. subst st1. rewrite setDocument_callback, setDocument_notified.
    destruct (changeCallback st); [by rewrite <- app_assoc | done].
Qed.

Lemma undo_reverts_setDocument_witness :
  let st := initializeDocument "a" (Some 3%nat) loaded in
  documentContent st <> "b"
  /\ (undoLastChange (setDocument "b" true 9 st)).2
     = {| documentContent := "a"; changeCallback := Some 3%nat;
          undoHistory := [];
          notified := [(3%nat, "b"); (3%nat, "a")] |}.
Proof.
  intros st.
  assert (Hne : documentContent st <> "b") by (vm_compute; discriminate).
  split; [exact Hne|].
  destruct (undo_reverts_setDocument st "b" 9 Hne)
    as (_ & _ & H2 & H3 & H1 & _ & _ & H4).
  destruct (undoLastChange (setDocument "b" true 9 st)).2 as [d c h n].
  cbn [documentContent changeCallback undoHistory notified] in *.
  by rewrite H1, H2, H3, H4.
Defined.

(** X16.  [initializeDocument] installs a text and a callback, makes no
    call and keeps the undo history: an undo that follows puts the last
    snapshot of the document held earlier in place of the initialised
    text and reports it to the new callback.  After [clearUndoHistory]
    an undo returns [false] and changes nothing. *)
Theorem history_outlives_initializeDocument (st : Agent) (c : string)
        (cb : option nat) (h : list UndoEntry) (e : UndoEntry) :
  undoHistory st = h ++ [e] ->
  let st1 := initializeDocument c cb st in
  documentContent st1 = c
  /\ notified st1 = notified st
  /\ canUndo st1 = true
  /\ undoLastChange st1
     = (true,
        {| documentContent := content e;
           changeCallback := cb;
           undoHistory := h;
           notified :=
             match cb with
             | Some f => notified st ++ [(f, content e)]
             | None => notified st
             end |})
  /\ undoLastChange (clearUndoHistory st1) = (false, clearUndoHistory st1).
Proof.
  intros Hh st1.
  assert (Hh1 : undoHistory st1 = h ++ [e]) by exact Hh.
  split; [done|]. split; [done|]. split.
  - unfold canUndo. rewrite Hh1, length_app. cbn [length]. apply Nat.ltb_lt. lia.
  - split; [|done].
    rewrite (undoLastChange_snoc st1 h e Hh1). f_equal.
    unfold setDocument. cbn. unfold notify. cbn. by destruct cb.
Qed.

Lemma history_outlives_initializeDocument_witness :
  let st := setDocument "old text" true 1 (initializeDocument "first" None loaded) in
  undoHistory st = [] ++ [mkUndoEntry "first" "Document replaced" 1]
  /\ documentContent
       (undoLastChange (initializeDocument "new file" (Some 2%nat) st)).2
     = "first".
Proof.
  intros st.
  assert (Hh : undoHistory st = [] ++ [mkUndoEntry "first" "Document replaced" 1])
    by reflexivity.
  split; [exact Hh|].
  destruct (history_outlives_initializeDocument st "new file" (Some 2%nat) _ _ Hh)
    as (_ & _ & _ & -> & _).
  reflexivity.
Defined.

(** ** Calls of the callback *)

Section Notifications.

Lemma setDocument_one_call c a now st : one_call st (setDocument c a now st).
Proof.
  unfold one_call.
  rewrite setDocument_notified, setDocument_callback, setDocument_content.
  destruct (changeCallback st) as [cb|]; [right; eauto | by left].
Qed.

Lemma undoLastChange_one_call st : one_call st (undoLastChange st).2.
Proof.
  destruct (undoHistory st) as [|e h _] eqn:Hh using rev_ind.
  - unfold undoLastChange. rewrite Hh. by left.
  - destruct (undoLastChange_pops st h e Hh) as (_ & H2 & H3 & H4).
    unfold one_call. rewrite H2, H3, H4.
    destruct (changeCallback st) as [cb|]; [right; eauto | by left].
Qed.

Lemma askAI_one_call r now st : one_call st (askAI r now st).1.
Proof.
  unfold askAI. destruct (hasLatexDiffs r).
  - cbn [fst]. unfold one_call.
    rewrite notify_notified.
    rewrite (proj1 (notify_frame _)), (proj1 (proj2 (notify_frame _))).
    cbn [changeCallback notified documentContent addToUndoHistory].
    destruct (changeCallback st) as [cb|]; [right; eauto | by left].
  - destruct (exec latexRegex r); [apply setDocument_one_call | by left].
Qed.

Lemma step_one_call st a : one_call st (step st a).
Proof.
  destruct a as [now []]; unfold step; cbn [fst snd].
  - by left.
  - apply setDocument_one_call.
  - apply askAI_one_call.
  - apply setDocument_one_call.
  - apply setDocument_one_call.
  - apply undoLastChange_one_call.
  - by left.
Qed.

Lemma run_snoc acts a st : run (acts ++ [a]) st = step (run acts st) a.
Proof. unfold run. by rewrite foldl_app. Qed.

End Notifications.

(** X17.  One exported operation calls the callback at most once, and
    when it does, the callback is the one registered at that moment and
    the argument is the text the store holds when the operation
    returns.  Along a run the calls recorded so far are never removed
    or changed, and there are at most as many new calls as
    operations. *)
Theorem callback_gets_the_stored_text (st : Agent) (acts : list (Z * action)) :
  (forall a, one_call st (step st a))
  /\ (exists calls,
         notified (run acts st) = notified st ++ calls
         /\ (length calls <= length acts)%nat).
Proof.
  split; [apply step_one_call|].
  induction acts as [|a acts IH] using rev_ind.
  - exists []. by rewrite app_nil_r.
  - destruct IH as (calls & Hcalls & Hlen).
    rewrite run_snoc, length_app. cbn [length].
    destruct (step_one_call (run acts st) a) as [Hsame|(cb & _ & Hmore)].
    + exists calls. rewrite Hsame. split; [done | lia].
    + exists (calls ++ [(cb, documentContent (step (run acts st) a))]).
      rewrite Hmore, Hcalls, length_app, <- app_assoc. cbn [length].
      split; [done | lia].
Qed.

(** ** Full-document blocks *)

Section LazyUntil.

Context {R : Type}.
Implicit Types (k : string -> option R) (K : string -> list string -> option R).

Lemma strip_prefix_Some l s s' : strip_prefix l s = Some s' -> s = l +:+ s'.
Proof.
  revert s. induction l as [|a l IH]; intros s.
  - destruct s; by intros [= <-].
  - destruct s as [|b s]; [done|]. cbn [strip_prefix].
    destruct (Ascii.eqb_spec b a) as [->|]; [|done].
    intros ->%IH. by rewrite app_cons.
Qed.

Lemma strip_prefix_more l s t :
  strip_prefix l s = None ->
  (String.length l <= String.length s)%nat ->
  strip_prefix l (s +:+ t) = None.
Proof.
  revert s. induction l as [|a l IH]; intros s; [by destruct s|].
  destruct s as [|b s]; [simpl; lia|]. rewrite app_cons. cbn [strip_prefix].
  destruct (Ascii.eqb b a); [|done].
  intros Hs Hlen. apply IH; [done|]. simpl in Hlen. lia.
Qed.

Lemma strip_prefix_less l s t :
  strip_prefix l (s +:+ t) = None -> strip_prefix l s = None.
Proof.
  revert s. induction l as [|a l IH]; intros s; [by destruct s, t|].
  destruct s as [|b s]; [done|]. rewrite app_cons. cbn [strip_prefix].
  destruct (Ascii.eqb b a); [apply IH | done].
Qed.

(** A lazy [[\s\S]*?] stops where the pattern that follows it occurs
    first. *)
Lemma lazy_until pat body tail k r :
  no_early pat body = true ->
  (forall c t, strip_prefix pat (String c t) = None -> k (String c t) = None) ->
  k (pat +:+ tail) = Some r ->
  star_lazy CAll (body +:+ pat +:+ tail) k = Some r.
Proof.
  intros Hb Hk Hend. induction body as [|c body IH].
  - rewrite app_empty. destruct (pat +:+ tail); cbn [star_lazy]; by rewrite Hend.
  - cbn [no_early] in Hb.
    destruct (strip_prefix pat (String c body +:+ pat)) eqn:Hp; [done|].
    apply (strip_prefix_more _ _ tail) in Hp;
      [|rewrite length_app_str; lia].
    rewrite app_assoc_str in Hp. rewrite app_cons in Hp |- *.
    cbn [star_lazy cmatch]. rewrite (Hk _ _ Hp). by apply IH.
Qed.

(** A lazy [[\s\S]*?] runs to the end of a text in which the pattern
    that may follow it does not occur. *)
Lemma lazy_to_end pat s k :
  lacks pat s = true ->
  (forall c t, strip_prefix pat (String c t) = None -> k (String c t) = None) ->
  star_lazy CAll s k = k "".
Proof.
  intros Hs Hk. induction s as [|c s IH].
  - cbn [star_lazy]. by destruct (k "").
  - cbn [lacks] in Hs.
    destruct (strip_prefix pat (String c s)) eqn:Hp; [done|].
    cbn [star_lazy cmatch]. rewrite (Hk _ _ Hp). by apply IH.
Qed.

(** What a successful lazy star went over, and that the continuation
    failed at every earlier stop. *)
Lemma star_lazy_split cl s k res :
  star_lazy cl s k = Some res ->
  exists u s',
    s = u +:+ s'
    /\ k s' = Some res
    /\ forall u1 c u2, u = u1 +:+ String c u2 -> k (String c u2 +:+ s') = None.
Proof.
  induction s as [|c s IH]; cbn [star_lazy].
  - destruct (k "") eqn:Hk; [|done]. intros [= ->].
    exists "", "". split; [done|]. split; [done|].
    intros [|] ? ? ?; done.
  - destruct (k (String c s)) eqn:Hk.
    + intros [= ->]. exists "", (String c s). split; [done|]. split; [done|].
      intros [|] ? ? ?; done.
    + destruct (cmatch cl c); [|done].
      intros (u & s' & -> & Hs' & Hmin)%IH.
      exists (String c u), s'. split; [done|]. split; [done|].
      intros [|c1 u1] c2 u2.
      * rewrite app_empty. intros [= <- <-]. by rewrite app_cons.
      * rewrite app_cons. intros [= _ ->]. by eapply Hmin.
Qed.

Lemma no_early_intro pat body :
  (forall u1 c u2, body = u1 +:+ String c u2 ->
                   strip_prefix pat (String c u2 +:+ pat) = None) ->
  no_early pat body = true.
Proof.
  induction body as [|c body IH]; [done|]. intros H. cbn [no_early].
  rewrite (H "" c body eq_refl). apply IH.
  intros u1 c' u2 ->. by apply (H (String c u1) c' u2).
Qed.

End LazyUntil.

Section PlainBlocks.

Lemma latexRegex_lit :
  latexRegex
  = RSeq (RLit "```latex")
      (RSeq (RSet (CChar LF))
         (RSeq (RGroup (RStar false CAll)) (RLit closeFence))).
Proof. reflexivity. Qed.

Lemma wrapLatex_app doc tail :
  wrapLatex doc +:+ tail
  = "```latex" +:+ nl +:+ doc +:+ closeFence +:+ tail.
Proof. unfold wrapLatex. by rewrite !app_assoc_str. Qed.

Lemma match_here_wrapLatex doc tail :
  no_early closeFence doc = true ->
  match_here latexRegex (wrapLatex doc +:+ tail)
  = Some (MatchResult (wrapLatex doc) [doc] tail).
Proof.
  intros Hdoc. unfold match_here. rewrite latexRegex_lit.
  set (K := fun s' caps => Some _).
  rewrite wrapLatex_app, stage_literal. cbn [rmatch cmatch].
  unfold nl at 1. rewrite app_cons, app_empty, Ascii.eqb_refl.
  apply lazy_until; [done| |].
  - intros c t Ht. by rewrite rmatch_lit, Ht.
  - rewrite rmatch_lit, strip_prefix_app. subst K. cbn beta.
    by rewrite !consumed_app.
Qed.

(** Every match of the pattern is a wrapped text, the group is the text
    inside, and no close fence begins in it. *)
Lemma match_here_latex_inv s m :
  match_here latexRegex s = Some m ->
  exists doc,
    s = wrapLatex doc +:+ rest m
    /\ m = MatchResult (wrapLatex doc) [doc] (rest m)
    /\ no_early closeFence doc = true.
Proof.
  unfold match_here. rewrite latexRegex_lit, rmatch_seq, rmatch_lit.
  destruct (strip_prefix "```latex" s) as [s1|] eqn:H1; [|done].
  apply strip_prefix_Some in H1 as ->.
  destruct s1 as [|c s1]; [done|]. cbn [rmatch cmatch].
  destruct (Ascii.eqb_spec c LF) as [->|]; [|done].
  intros (doc & s2 & -> & Hk & Hmin)%star_lazy_split.
  rewrite rmatch_lit in Hk.
  destruct (strip_prefix closeFence s2) as [s3|] eqn:H3; [|done].
  apply strip_prefix_Some in H3 as ->.
  rewrite consumed_app in Hk. cbn [app] in Hk.
  assert (Hs : "```latex" +:+ String LF (doc +:+ closeFence +:+ s3)
               = wrapLatex doc +:+ s3) by (by rewrite wrapLatex_app).
  rewrite Hs, consumed_app in Hk. injection Hk as <-. cbn [rest].
  exists doc. split; [done|]. split; [done|].
  apply no_early_intro. intros u1 c u2 Hdoc.
  specialize (Hmin u1 c u2 Hdoc). rewrite rmatch_lit in Hmin.
  destruct (strip_prefix closeFence (String c u2 +:+ closeFence +:+ s3)) eqn:Hp;
    [done|].
  rewrite <- app_assoc_str in Hp. by apply strip_prefix_less in Hp.
Qed.

Lemma exec_latex_inv s m :
  exec latexRegex s = Some m ->
  exists pre doc,
    s = pre +:+ wrapLatex doc +:+ rest m
    /\ m = MatchResult (wrapLatex doc) [doc] (rest m)
    /\ no_early closeFence doc = true.
Proof.
  induction s as [|c s IH]; cbn [exec].
  - destruct (match_here latexRegex "") eqn:Hm; [|done]. intros [= <-].
    apply match_here_latex_inv in Hm as (doc & ? & ? & ?). by exists "", doc.
  - destruct (match_here latexRegex (String c s)) eqn:Hm.
    + intros [= <-].
      apply match_here_latex_inv in Hm as (doc & ? & ? & ?). by exists "", doc.
    + intros (pre & doc & -> & ? & ?)%IH. by exists (String c pre), doc.
Qed.

Lemma exec_latex_shrinks s m :
  exec latexRegex s = Some m -> (String.length (rest m) < String.length s)%nat.
Proof.
  intros (pre & doc & -> & _ & _)%exec_latex_inv.
  rewrite wrapLatex_app, !length_app_str. simpl. lia.
Qed.

Lemma extractLoop_fuel f1 f2 s :
  (String.length s < f1)%nat -> (String.length s < f2)%nat ->
  extractLoop f1 s = extractLoop f2 s.
Proof.
  revert f2 s. induction f1 as [|f1 IH]; intros f2 s H1 H2; [lia|].
  destruct f2 as [|f2]; [lia|]. cbn [extractLoop].
  change regularBlockRegex with latexRegex.
  destruct (exec latexRegex s) as [m|] eqn:Hm; [|done].
  apply exec_latex_shrinks in Hm.
  rewrite (IH f2 (rest m)) by lia. reflexivity.
Qed.

Lemma exec_wrapLatex prose doc tail :
  all_chars notBacktick prose = true ->
  no_early closeFence doc = true ->
  exec latexRegex (prose +:+ wrapLatex doc +:+ tail)
  = Some (MatchResult (wrapLatex doc) [doc] tail).
Proof.
  intros Hprose Hdoc.
  pose proof (exec_skip_no_backtick "``latex"
                (RSeq (RSet (CChar LF))
                   (RSeq (RGroup (RStar false CAll))
                      (RSeq (RSet (CChar LF)) (RLit "```"))))
                prose ("``latex" +:+ nl +:+ doc +:+ closeFence +:+ tail) Hprose)
    as Hskip.
  change (exec latexRegex (prose +:+ "```latex" +:+ nl +:+ doc +:+ closeFence +:+ tail)
          = exec latexRegex ("```latex" +:+ nl +:+ doc +:+ closeFence +:+ tail))
    in Hskip.
  rewrite <- !wrapLatex_app in Hskip. rewrite Hskip.
  apply exec_here. by apply match_here_wrapLatex.
Qed.

Lemma extractLoop_blocks fuel content b :
  b ∈ extractLoop fuel content ->
  exists pre post,
    content = pre +:+ blockRaw b +:+ post
    /\ blockType b = "latex"
    /\ blockRaw b = wrapLatex (blockContent b)
    /\ no_early closeFence (blockContent b) = true.
Proof.
  revert content. induction fuel as [|fuel IH]; intros content.
  - by intros ?%elem_of_nil.
  - cbn [extractLoop]. change regularBlockRegex with latexRegex.
    destruct (exec latexRegex content) as [m|] eqn:Hm;
      [|by intros ?%elem_of_nil].
    apply exec_latex_inv in Hm as (pre & doc & Hc & Hm & Hdoc).
    intros [->|Hin]%elem_of_cons.
    + rewrite Hm. cbn [groups matched nth blockRaw blockType blockContent].
      by exists pre, (rest m).
    + apply IH in Hin as (pre' & post' & Hrest & ? & ? & ?).
      exists (pre +:+ wrapLatex doc +:+ pre'), post'.
      split; [|done]. rewrite Hc, Hrest. by rewrite !app_assoc_str.
Qed.

End PlainBlocks.

(** X18.  A full-document block after prose without a backtick: when no
    close fence (a line feed and three backticks) begins inside the
    document text, [extractRegularLatexBlocks] returns first the block
    with that very text, not trimmed, and then the blocks of what
    follows the close fence; the first agent's [askAI] installs that
    text, and so does this agent's when [hasLatexDiffs] is false of the
    response. *)
Theorem full_document_block_round_trip (prose doc tail : string) :
  all_chars notBacktick prose = true ->
  no_early closeFence doc = true ->
  let r := prose +:+ wrapLatex doc +:+ tail in
  extractRegularLatexBlocks r
  = mkLatexBlock "latex" doc (wrapLatex doc) :: extractRegularLatexBlocks tail
  /\ (forall st, BasicAgent.askAI r st = (BasicAgent.setDocument doc st, Some doc))
  /\ (hasLatexDiffs r = false ->
      forall now st,
        askAI r now st = (setDocument doc true now st, DocumentReplaced r doc)).
Proof.
  intros Hprose Hdoc r.
  pose proof (exec_wrapLatex prose doc tail Hprose Hdoc) as Hexec. fold r in Hexec.
  split; [|split].
  - unfold extractRegularLatexBlocks.
    rewrite (extractLoop_fuel (S (String.length tail)) (String.length r) tail);
      [|lia|subst r; rewrite wrapLatex_app, !length_app_str; simpl; lia].
    cbn [extractLoop].
    change regularBlockRegex with latexRegex. by rewrite Hexec.
  - intros st. unfold BasicAgent.askAI. by rewrite Hexec.
  - intros Hno now st. unfold askAI. by rewrite Hno, Hexec.
Qed.

Lemma full_document_block_round_trip_witness :
  all_chars notBacktick "Here it is:" = true
  /\ no_early closeFence ("\title{T}" +:+ nl +:+ "``quoted''" +:+ nl) = true
  /\ extractRegularLatexBlocks
       ("Here it is:"
          +:+ wrapLatex ("\title{T}" +:+ nl +:+ "``quoted''" +:+ nl) +:+ " Done.")
     = [mkLatexBlock "latex" ("\title{T}" +:+ nl +:+ "``quoted''" +:+ nl)
          (wrapLatex ("\title{T}" +:+ nl +:+ "``quoted''" +:+ nl))].
Proof.
  assert (H1 : all_chars notBacktick "Here it is:" = true) by reflexivity.
  assert (H2 : no_early closeFence ("\title{T}" +:+ nl +:+ "``quoted''" +:+ nl) = true)
    by reflexivity.
  split; [exact H1|]. split; [exact H2|].
  rewrite (proj1 (full_document_block_round_trip _ _ " Done." H1 H2)).
  reflexivity.
Defined.

(** X19.  Whatever the text, every block that
    [extractRegularLatexBlocks] returns has type [latex]; its [raw] is
    its [content] between the open fence with a line feed and a line
    feed with the close fence, and occurs in the text; and no close
    fence begins inside its [content]: a block ends at the first close
    fence after its opening. *)
Theorem plain_blocks_end_at_first_fence (content : string) :
  Forall (fun b =>
            blockType b = "latex"
            /\ blockRaw b = wrapLatex (blockContent b)
            /\ no_early closeFence (blockContent b) = true
            /\ exists pre post, content = pre +:+ blockRaw b +:+ post)
         (extractRegularLatexBlocks content).
Proof.
  apply Forall_forall. intros b Hb.
  apply extractLoop_blocks in Hb as (pre & post & ? & ? & ? & ?).
  eauto 10.
Qed.

(** ** A patch block inside a response *)

Section BlockInResponse.

Lemma no_early_fence_is body : no_early_fence body = no_early "```" body.
Proof.
  induction body as [|c body IH]; [done|]. cbn [no_early_fence no_early].
  by rewrite IH.
Qed.

Lemma leading_space_split body s :
  after_last_nl s = None ->
  exists w code,
    body = w +:+ code
    /\ all_chars is_space w = true
    /\ after_last_nl (String LF (body +:+ s)) = Some (code +:+ s).
Proof.
  intros Hnone.
  assert (Hin : forall t, after_last_nl (body +:+ s) = Some t ->
                   exists w code, body = w +:+ code
                                  /\ all_chars is_space w = true /\ t = code +:+ s).
  { induction body as [|c body IH]; intros t.
    - rewrite app_empty, Hnone. done.
    - rewrite app_cons. cbn [after_last_nl].
      destruct (is_space c) eqn:Hc; [|done].
      destruct (after_last_nl (body +:+ s)) as [t'|] eqn:Hb.
      + intros [= <-]. destruct (IH _ eq_refl) as (w & code & -> & Hw & ->).
        exists (String c w), code. split; [done|]. split; [|done].
        cbn [all_chars]. by rewrite Hc.
      + destruct (Ascii.eqb c LF); [|done]. intros [= <-].
        exists (String c ""), body. split; [done|]. split; [|done].
        cbn [all_chars]. by rewrite Hc. }
  cbn [after_last_nl]. change (is_space LF) with true. cbn iota.
  destruct (after_last_nl (body +:+ s)) as [t|] eqn:Ht.
  - destruct (Hin t eq_refl) as (w & code & -> & Hw & ->). eauto.
  - exists "", body. rewrite Ascii.eqb_refl. eauto.
Qed.

Lemma no_early_suffix pat w code :
  no_early pat (w +:+ code) = true -> no_early pat code = true.
Proof.
  induction w as [|c w IH]; [done|]. rewrite app_cons. cbn [no_early].
  destruct (strip_prefix pat (String c (w +:+ code) +:+ pat)); [done|].
  exact IH.
Qed.

Lemma stage_body_tail {R} body tail caps
      (K : string -> list string -> option R) res :
  no_early "```" body = true ->
  K tail (caps ++ [body]) = Some res ->
  rmatch (RSeq (RGroup (RStar false CAll)) (RLit "```"))
         (body +:+ "```" +:+ tail) caps K
  = Some res.
Proof.
  intros Hb HK. cbn [rmatch]. apply lazy_until; [done| |].
  - intros c t Ht. by rewrite rmatch_lit, Ht.
  - by rewrite rmatch_lit, strip_prefix_app, consumed_app.
Qed.

Lemma patchBlock_app meta body tail :
  patchBlock meta body +:+ tail
  = fence_open +:+ nl +:+ "@@ " +:+ meta +:+ " @@" +:+ nl +:+ body +:+ "```" +:+ tail.
Proof. unfold patchBlock. by rewrite !app_assoc_str. Qed.

(** The stages of the head of a block, up to the body: the open fence,
    the line feed, the metadata between its two [@@], and the white
    space that ends with the last line feed before [code]. *)
Lemma block_head_stages {R} meta after code r
      (K : string -> list string -> option R) res :
  starts_nonspace meta = true ->
  ends_nonspace meta = true ->
  all_chars metaChar meta = true ->
  after_last_nl (String LF after) = Some code ->
  rmatch r code [meta] K = Some res ->
  rmatch
    (RSeq (RLit fence_open)
    (RSeq (RStar true CSpace)
    (RSeq (RSet (CChar LF))
    (RSeq (RLit "@@")
    (RSeq (RStar true CSpace)
    (RSeq (RGroup (RStar false CDot))
    (RSeq (RStar true CSpace)
    (RSeq (RLit "@@")
    (RSeq (RStar true CSpace)
    (RSeq (RSet (CChar LF)) r))))))))))
    (fence_open +:+ nl +:+ "@@ " +:+ meta +:+ " @@" +:+ nl +:+ after) [] K
  = Some res.
Proof.
  intros Hs He Hm Hnl Hr.
  rewrite stage_literal.
  apply (stage_space_newline _ _ ("@@ " +:+ meta +:+ " @@" +:+ nl +:+ after));
    [done|].
  change ("@@ " +:+ ?x) with ("@@" +:+ " " +:+ x).
  rewrite stage_literal.
  apply stage_space; [done| by destruct meta |].
  apply stage_metadata; [done|done| intros; by apply no_marker_fails |].
  change (" @@" +:+ ?x) with (" " +:+ "@@" +:+ x).
  apply stage_space; [done|done|].
  rewrite stage_literal.
  by apply (stage_space_newline _ _ _ _ _ _ Hnl).
Qed.

Lemma match_here_block_tail meta body tail :
  starts_nonspace meta = true ->
  ends_nonspace meta = true ->
  all_chars metaChar meta = true ->
  no_early_fence body = true ->
  exists w code,
    body = w +:+ code
    /\ all_chars is_space w = true
    /\ match_here blockRegex (patchBlock meta body +:+ tail)
       = Some (MatchResult (patchBlock meta body) [meta; code] tail).
Proof.
  intros Hs He Hm Hb.
  destruct (leading_space_split body ("```" +:+ tail) eq_refl)
    as (w & code & Hbody & Hw & Hnl).
  exists w, code. split; [done|]. split; [done|].
  unfold match_here. set (K := fun s' caps => Some _).
  rewrite patchBlock_app. unfold blockRegex.
  apply (block_head_stages meta _ _ _ K _ Hs He Hm Hnl).
  apply stage_body_tail.
  - apply (no_early_suffix _ w). by rewrite <- Hbody, <- no_early_fence_is.
  - subst K. cbn beta. cbn [app]. by rewrite consumed_app.
Qed.

Lemma exec_prefix r u s : exec r s <> None -> exec r (u +:+ s) <> None.
Proof.
  intros Hs. induction u as [|c u IH]; [done|].
  rewrite app_cons. cbn [exec].
  by destruct (match_here r (String c (u +:+ s))).
Qed.

(** The lazy [.*?] of the marker pattern runs to the second [@@]. *)
Lemma lazy_to_marker {R} u s (k : string -> option R) res :
  all_chars metaChar u = true ->
  (forall c t, Ascii.eqb c "@" = false -> k (String c t) = None) ->
  k s = Some res ->
  star_lazy CDot (u +:+ s) k = Some res.
Proof.
  intros Hu Hk Hs. induction u as [|c u IH].
  - rewrite app_empty. destruct s; cbn [star_lazy]; by rewrite Hs.
  - cbn [all_chars] in Hu. apply andb_prop in Hu as [Hc Hu].
    unfold metaChar in Hc. apply andb_prop in Hc as [Hc1 Hc2].
    rewrite app_cons. cbn [star_lazy cmatch].
    rewrite Hk by (by destruct (Ascii.eqb c "@")).
    rewrite Hc1. by apply IH.
Qed.

Lemma marker_in_block prose meta tail :
  all_chars metaChar meta = true ->
  hasLatexDiffs (prose +:+ openBlock meta true +:+ tail) = true.
Proof.
  intros Hm.
  assert (Hhere : match_here markerRegex (openBlock meta true +:+ tail)
                  = Some (MatchResult (openBlock meta true) [] tail)).
  { unfold match_here, markerRegex.
    set (K := fun s' caps => Some _).
    unfold openBlock. rewrite !app_assoc_str, stage_literal.
    apply (stage_space_newline _ _ ("@@ " +:+ meta +:+ " @@" +:+ tail)); [done|].
    change ("@@ " +:+ ?x) with ("@@" +:+ " " +:+ x).
    rewrite stage_literal. cbn [rmatch].
    change (" @@" +:+ tail) with (" " +:+ "@@" +:+ tail).
    rewrite <- (app_assoc_str meta " "), <- (app_assoc_str " " (meta +:+ " ")).
    apply lazy_to_marker.
    - by rewrite !all_chars_app, Hm.
    - intros c t Hc. rewrite rmatch_lit. cbn [strip_prefix]. by rewrite Hc.
    - rewrite rmatch_lit, strip_prefix_app. subst K. cbn beta.
      do 2 f_equal.
      replace (openBlock meta true +:+ tail) with ((openBlock meta true) +:+ tail)
        by done.
      apply consumed_app. }
  unfold hasLatexDiffs, test.
  pose proof (exec_prefix markerRegex prose (openBlock meta true +:+ tail)) as H.
  destruct (exec markerRegex (prose +:+ openBlock meta true +:+ tail)); [done|].
  destruct H; [|done].
  by rewrite (exec_here _ _ _ Hhere).
Qed.

Lemma patchBlock_openBlock meta body tail :
  patchBlock meta body +:+ tail
  = openBlock meta true +:+ nl +:+ body +:+ "```" +:+ tail.
Proof. unfold patchBlock, openBlock. by rewrite !app_assoc_str. Qed.

Lemma buildBlock_deleteCount m r :
  buildBlock m = Some r ->
  deleteCount r
  = if truthy (prop (parseMetadata (nth 0 (groups m) "")) "delete")
    then prop (parseMetadata (nth 0 (groups m) "")) "delete"
    else if strict_eq (prop (parseMetadata (nth 0 (groups m) "")) "operation")
                      (VString "delete")
         then VInt 1 else VInt 0.
Proof.
  intros Hb. unfold buildBlock in Hb.
  set (md := parseMetadata (nth 0 (groups m) "")) in *.
  destruct (truthy (prop md "operation")) eqn:Hop; [|done].
  destruct (strict_eq (prop md "line") VUndefined) eqn:Hline; [done|].
  cbn [negb orb] in Hb.
  destruct (strict_eq (prop md "operation") (VString "delete")) eqn:Hdel;
    destruct (truthy (prop md "delete")) eqn:Htd;
    cbn [negb andb] in Hb; injection Hb as <-;
    cbn [deleteCount];
    rewrite ?prop_insert_ne, ?prop_insert_eq, ?Hdel by done;
    unfold js_or; by rewrite ?Htd.
Qed.

Lemma buildBlock_metadataLine meta code mt rst :
  metadataLine meta ->
  exists r,
    buildBlock (MatchResult mt [meta; code] rst) = Some r
    /\ raw r = mt
    /\ insertContent r = trim code
    /\ operation r = prop (parseMetadata meta) "operation"
    /\ line r = prop (parseMetadata meta) "line".
Proof.
  intros (_ & _ & _ & Hop & Hline).
  destruct (buildBlock (MatchResult mt [meta; code] rst)) as [r|] eqn:Hr.
  - exists r. destruct (buildBlock_fields _ r Hr) as (H1 & _ & H3 & _ & H5 & _ & H7).
    cbn [groups matched nth] in *. done.
  - exfalso. unfold buildBlock in Hr. cbn [groups nth] in Hr.
    rewrite Hop in Hr. apply strict_eq_undefined in Hline. rewrite Hline in Hr.
    discriminate.
Qed.

Lemma parse_block_then prose meta body tail :
  all_chars notBacktick prose = true ->
  metadataLine meta ->
  no_early_fence body = true ->
  exists r,
    parseLatexDiff (prose +:+ patchBlock meta body +:+ tail)
    = r :: parseLatexDiff tail
    /\ raw r = patchBlock meta body
    /\ insertContent r = trim body
    /\ operation r = prop (parseMetadata meta) "operation"
    /\ line r = prop (parseMetadata meta) "line"
    /\ deleteCount r
       = if truthy (prop (parseMetadata meta) "delete")
         then prop (parseMetadata meta) "delete"
         else if strict_eq (prop (parseMetadata meta) "operation") (VString "delete")
              then VInt 1 else VInt 0.
Proof.
  intros Hprose Hmeta Hbody.
  pose proof Hmeta as (Hs & He & Hm & _ & _).
  destruct (match_here_block_tail meta body tail Hs He Hm Hbody)
    as (w & code & Hsplit & Hw & Hmatch).
  apply exec_here in Hmatch.
  destruct (buildBlock_metadataLine meta code (patchBlock meta body) tail Hmeta)
    as (r & Hr & Hraw & Hins & Hop & Hline).
  pose proof (buildBlock_deleteCount _ r Hr) as Hdc. cbn [groups nth] in Hdc.
  exists r. split; [|split; [done|split; [|done]]].
  - assert (Hexec : exec blockRegex (prose +:+ patchBlock meta body +:+ tail)
                    = Some (MatchResult (patchBlock meta body) [meta; code] tail)).
    { rewrite <- Hmatch. rewrite patchBlock_app.
      apply (exec_skip_no_backtick "``latex-diff" _ prose
               ("``latex-diff" +:+ nl +:+ "@@ " +:+ meta +:+ " @@" +:+ nl
                  +:+ body +:+ "```" +:+ tail) Hprose). }
    unfold parseLatexDiff at 1. cbn [parseLoop]. rewrite Hexec, Hr. cbn [rest].
    f_equal. apply parseLatexDiff_fuel.
    rewrite patchBlock_app, !length_app_str. simpl. lia.
  - rewrite Hins, Hsplit. unfold trim. by rewrite trimStart_app_space.
Qed.

End BlockInResponse.

(** X20.  Blocks are parsed one after the other.  A complete patch
    block with a metadata line as the prompt shows it and a body in
    which no close fence begins, after prose without a backtick: the
    first record of [parseLatexDiff] is the record of that block (its
    raw text the block, its insert text the trimmed body, operation and
    line from the metadata), the other records are those of the text
    after the close fence, and [hasLatexDiffs] is true of the whole
    response. *)
Theorem blocks_are_parsed_in_sequence (prose meta body tail : string) :
  all_chars notBacktick prose = true ->
  metadataLine meta ->
  no_early_fence body = true ->
  exists r,
    parseLatexDiff (prose +:+ patchBlock meta body +:+ tail)
    = r :: parseLatexDiff tail
    /\ raw r = patchBlock meta body
    /\ insertContent r = trim body
    /\ operation r = prop (parseMetadata meta) "operation"
    /\ line r = prop (parseMetadata meta) "line"
    /\ hasLatexDiffs (prose +:+ patchBlock meta body +:+ tail) = true.
Proof.
  intros Hprose Hmeta Hbody.
  destruct (parse_block_then prose meta body tail Hprose Hmeta Hbody)
    as (r & H1 & H2 & H3 & H4 & H5 & _).
  exists r. repeat (split; [assumption|]).
  rewrite patchBlock_openBlock. apply marker_in_block. apply Hmeta.
Qed.

Lemma blocks_are_parsed_in_sequence_witness :
  all_chars notBacktick "Two edits. " = true
  /\ metadataLine "operation:delete line:7"
  /\ no_early_fence "" = true
  /\ map line
         (parseLatexDiff
            ("Two edits. " +:+ patchBlock "operation:delete line:7" ""
               +:+ patchBlock "operation:add line:2" ("A" +:+ nl)))
     = [VInt 7; VInt 2].
Proof.
  assert (H1 : all_chars notBacktick "Two edits. " = true) by reflexivity.
  assert (H2 : metadataLine "operation:delete line:7").
  { repeat split; try reflexivity; vm_compute; discriminate. }
  assert (H3 : no_early_fence "" = true) by reflexivity.
  split; [exact H1|]. split; [exact H2|]. split; [exact H3|].
  destruct (blocks_are_parsed_in_sequence "Two edits. " _ ""
              (patchBlock "operation:add line:2" ("A" +:+ nl)) H1 H2 H3)
    as (r & -> & _ & _ & _ & Hl & _).
  cbn [map]. rewrite Hl. vm_compute. reflexivity.
Defined.

(** X21.  [askAI] on a response that is prose without a backtick, one
    complete patch block as in X20, and text without a backtick: the
    record of the block is applied to the stored text, the result is
    stored and reported to the callback, and the text held before is
    the last entry of the undo history, described as
    [Applied 1 diff changes], whether or not the text has changed. *)
Theorem askAI_applies_one_block (prose meta body tail : string)
        (now : Z) (st : Agent) :
  all_chars notBacktick prose = true ->
  metadataLine meta ->
  no_early_fence body = true ->
  all_chars notBacktick tail = true ->
  let response := prose +:+ patchBlock meta body +:+ tail in
  exists r,
    parseLatexDiff response = [r]
    /\ (askAI response now st).2 = DiffsApplied response [r]
    /\ documentContent (askAI response now st).1
       = applyLatexDiffs (documentContent st) [r]
    /\ last (undoHistory (askAI response now st).1)
       = Some (mkUndoEntry (documentContent st) "Applied 1 diff changes" now)
    /\ changeCallback (askAI response now st).1 = changeCallback st
    /\ notified (askAI response now st).1
       = match changeCallback st with
         | Some cb =>
             notified st ++ [(cb, applyLatexDiffs (documentContent st) [r])]
         | None => notified st
         end.
Proof.
  intros Hprose Hmeta Hbody Htail response.
  destruct (parse_block_then prose meta body tail Hprose Hmeta Hbody)
    as (r & Hparse & _).
  assert (Hnone : parseLatexDiff tail = []).
  { assert (Hblock : exec blockRegex tail = None) by (by apply exec_no_backtick).
    unfold parseLatexDiff. cbn [parseLoop]. by rewrite Hblock. }
  rewrite Hnone in Hparse. fold response in Hparse.
  assert (Hhas : hasLatexDiffs response = true).
  { subst response. rewrite patchBlock_openBlock. apply marker_in_block.
    apply Hmeta. }
  exists r. split; [exact Hparse|].
  unfold askAI. rewrite Hhas, Hparse. cbn [fst snd length].
  split; [done|].
  rewrite (proj1 (notify_frame _)), (proj1 (proj2 (notify_frame _))),
    (proj2 (proj2 (notify_frame _))), notify_notified.
  cbn [documentContent changeCallback undoHistory notified].
  split; [done|]. split; [|split; [done|]].
  - destruct (pushed_history_snoc (documentContent st)
                ("Applied " +:+ num_to_string (Dec (Z.of_nat 1) 0) +:+ " diff changes")
                now st) as [h ->].
    by rewrite last_snoc.
  - destruct (addToUndoHistory_frame (documentContent st)
                ("Applied " +:+ num_to_string (Dec (Z.of_nat 1) 0) +:+ " diff changes")
                now st) as (_ & -> & ->).
    done.
Qed.

Lemma askAI_applies_one_block_witness :
  let st := initializeDocument eightLines (Some 0%nat) loaded in
  all_chars notBacktick "I remove line 7. " = true
  /\ metadataLine "operation:delete line:7 delete:1"
  /\ no_early_fence "" = true
  /\ all_chars notBacktick " Done." = true
  /\ documentContent
       (askAI ("I remove line 7. "
                 +:+ patchBlock "operation:delete line:7 delete:1" "" +:+ " Done.")
              4 st).1
     = join nl ["L1"; "L2"; "L3"; "L4"; "L5"; "L6"; "L8"].
Proof.
  intros st.
  assert (H1 : all_chars notBacktick "I remove line 7. " = true) by reflexivity.
  assert (H2 : metadataLine "operation:delete line:7 delete:1").
  { repeat split; try reflexivity; vm_compute; discriminate. }
  assert (H3 : no_early_fence "" = true) by reflexivity.
  assert (H4 : all_chars notBacktick " Done." = true) by reflexivity.
  split; [exact H1|]. split; [exact H2|]. split; [exact H3|]. split; [exact H4|].
  destruct (askAI_applies_one_block _ _ _ _ 4 st H1 H2 H3 H4)
    as (r & Hr & _ & -> & _).
  assert (Hblocks : parseLatexDiff
                      ("I remove line 7. "
                         +:+ patchBlock "operation:delete line:7 delete:1" ""
                         +:+ " Done.") = [r]) by exact Hr.
  vm_compute in Hblocks. injection Hblocks as <-.
  vm_compute. reflexivity.
Defined.

(** ** Blocks in a stream *)

Section StreamingBlocks.

Lemma star_greedy_keeps {R} cl s (k : string -> option R) res :
  all_chars notBacktick s = true ->
  star_greedy cl s k = Some res ->
  exists s', k s' = Some res /\ all_chars notBacktick s' = true.
Proof.
  induction s as [|c s IH]; cbn [star_greedy]; [eauto|]. intros Hs.
  destruct (cmatch cl c); [|eauto].
  destruct (star_greedy cl s k) as [res'|] eqn:Hg; [|eauto].
  intros [= ->]. apply IH; [by apply all_chars_tail in Hs | done].
Qed.

Lemma star_lazy_keeps {R} cl s (k : string -> option R) res :
  all_chars notBacktick s = true ->
  star_lazy cl s k = Some res ->
  exists s', k s' = Some res /\ all_chars notBacktick s' = true.
Proof.
  induction s as [|c s IH]; cbn [star_lazy]; intros Hs.
  - destruct (k "") eqn:Hk; [|done]. intros [= ->]. eauto.
  - destruct (k (String c s)) eqn:Hk; [intros [= ->]; eauto|].
    destruct (cmatch cl c); [|done].
    apply IH. by apply all_chars_tail in Hs.
Qed.

Lemma rmatch_keeps {R} r :
  forall s caps (K : string -> list string -> option R) res,
    all_chars notBacktick s = true ->
    rmatch r s caps K = Some res ->
    exists s' caps', K s' caps' = Some res /\ all_chars notBacktick s' = true.
Proof.
  induction r as [|cl|greedy cl|r1 IH1 r2 IH2|r1 IH1];
    intros s caps K res Hs; cbn [rmatch].
  - eauto.
  - destruct s as [|c s]; [done|]. destruct (cmatch cl c); [|done].
    intros HK. exists s, caps. split; [done|]. by apply all_chars_tail in Hs.
  - destruct greedy.
    + intros (s' & HK & Hs')%star_greedy_keeps; eauto.
    + intros (s' & HK & Hs')%star_lazy_keeps; eauto.
  - intros (s1 & caps1 & H1 & Hs1)%IH1; [|done].
    by apply IH2 in H1.
  - intros (s1 & caps1 & H1 & Hs1)%IH1; eauto.
Qed.

(** A pattern that needs a backtick finds no match at the head of a
    text without one. *)
Lemma needs_backtick_fails {R} r :
  forall s caps (K : string -> list string -> option R),
    needs_backtick r = true ->
    all_chars notBacktick s = true ->
    rmatch r s caps K = None.
Proof.
  induction r as [|cl|greedy cl|r1 IH1 r2 IH2|r1 IH1];
    intros s caps K Hr Hs; cbn [needs_backtick] in Hr; try done.
  - destruct cl as [c| | |]; try done.
    apply Ascii.eqb_eq in Hr as ->.
    destruct s as [|a s]; [done|]. cbn [rmatch cmatch].
    cbn [all_chars] in Hs. apply andb_prop in Hs as [Ha _].
    unfold notBacktick in Ha. by destruct (Ascii.eqb a "`").
  - cbn [rmatch]. apply orb_prop in Hr as [Hr|Hr]; [by apply IH1|].
    destruct (rmatch r1 s caps _) as [res|] eqn:E; [|done].
    apply rmatch_keeps in E as (s' & caps' & E & Hs'); [|done].
    by rewrite IH2 in E.
  - cbn [rmatch]. by apply IH1.
Qed.

Lemma strip_closeFence_backtick_free s :
  all_chars notBacktick s = true -> strip_prefix closeFence s = None.
Proof.
  intros Hs. destruct (strip_prefix closeFence s) as [s'|] eqn:Hp; [|done].
  apply strip_prefix_Some in Hp as ->.
  rewrite all_chars_app in Hs. apply andb_prop in Hs as [Hs _].
  vm_compute in Hs. discriminate.
Qed.

Lemma backtick_free_lacks s :
  all_chars notBacktick s = true -> lacks closeFence s = true.
Proof.
  induction s as [|c s IH]; intros Hs; [done|].
  cbn [lacks]. rewrite (strip_closeFence_backtick_free _ Hs).
  apply IH. by apply all_chars_tail in Hs.
Qed.

Lemma backtick_free_no_early_fence s :
  all_chars notBacktick s = true -> no_early_fence s = true.
Proof.
  intros Hs. rewrite no_early_fence_is. apply no_early_intro.
  intros u1 c u2 ->. rewrite all_chars_app in Hs.
  apply andb_prop in Hs as [_ Hs]. cbn [all_chars] in Hs.
  apply andb_prop in Hs as [Hc _]. rewrite app_cons. cbn [strip_prefix].
  unfold notBacktick in Hc. by destruct (Ascii.eqb c "`").
Qed.

Lemma lacks_suffix pat w s : lacks pat (w +:+ s) = true -> lacks pat s = true.
Proof.
  induction w as [|c w IH]; [done|]. rewrite app_cons. cbn [lacks].
  destruct (strip_prefix pat (String c (w +:+ s))); [done|]. exact IH.
Qed.

Lemma fenceOrEnd_fails {R} (K : string -> list string -> option R) c t caps :
  strip_prefix closeFence (String c t) = None ->
  fenceOrEnd K (String c t) caps = None.
Proof.
  intros Hp. unfold fenceOrEnd. rewrite rmatch_lit.
  change (nl +:+ "```") with closeFence. by rewrite Hp.
Qed.

Lemma fenceOrEnd_end {R} (K : string -> list string -> option R) caps :
  fenceOrEnd K "" caps = K "" caps.
Proof. reflexivity. Qed.

Lemma fenceOrEnd_fence {R} (K : string -> list string -> option R) tail caps res :
  K tail caps = Some res ->
  fenceOrEnd K (closeFence +:+ tail) caps = Some res.
Proof.
  intros HK. unfold fenceOrEnd. rewrite rmatch_lit.
  change (nl +:+ "```") with closeFence. by rewrite strip_prefix_app, HK.
Qed.

(** The body of a block of a stream, when the text ends before a close
    fence on a line of its own: the body is all that is left. *)
Lemma stage_stream_body_end {R} s caps
      (K : string -> list string -> option R) res :
  lacks closeFence s = true ->
  K "" (caps ++ [s]) = Some res ->
  rmatch (RGroup (RStar false CAll)) s caps (fenceOrEnd K) = Some res.
Proof.
  intros Hs HK. cbn [rmatch].
  rewrite (lazy_to_end closeFence); [|done|].
  - by rewrite fenceOrEnd_end, consumed_all.
  - intros c t Hp. by apply fenceOrEnd_fails.
Qed.

(** The same, when a close fence on a line of its own follows. *)
Lemma stage_stream_body_fence {R} x tail caps
      (K : string -> list string -> option R) res :
  no_early closeFence x = true ->
  K tail (caps ++ [x]) = Some res ->
  rmatch (RGroup (RStar false CAll)) (x +:+ closeFence +:+ tail) caps (fenceOrEnd K)
  = Some res.
Proof.
  intros Hx HK. cbn [rmatch]. apply lazy_until; [done| |].
  - intros c t Hp. by apply fenceOrEnd_fails.
  - apply fenceOrEnd_fence. by rewrite consumed_app.
Qed.

Lemma streaming_exec_here s m : streaming_here s = Some m -> streaming_exec s = Some m.
Proof. intros Hm. destruct s; cbn [streaming_exec]; by rewrite Hm. Qed.

Lemma streaming_exec_skip u s :
  all_chars notBacktick u = true ->
  streaming_exec (u +:+ String "`" s) = streaming_exec (String "`" s).
Proof.
  induction u as [|c u IH]; [done|]. intros Hu.
  pose proof (strip_prefix_backtick "``latex-diff" (String c u) (String "`" s) Hu)
    as Hp.
  rewrite app_cons in Hp |- *. cbn [streaming_exec].
  unfold streaming_here at 1, streamingHead.
  rewrite rmatch_lit_fail by (apply Hp; by left).
  apply IH. by apply all_chars_tail in Hu.
Qed.

Lemma streamLoop_no_backtick fuel s index :
  all_chars notBacktick s = true -> streamLoop fuel s index = [].
Proof.
  intros Hs. destruct fuel; [done|]. cbn [streamLoop].
  by rewrite streaming_exec_no_backtick.
Qed.

Lemma buildStreamingBlock_metadataLine meta code mt rst index :
  truthy (prop (parseMetadata meta) "operation") = true ->
  truthy (prop (parseMetadata meta) "line") = true ->
  exists b,
    buildStreamingBlock (MatchResult mt [meta; code] rst) index = Some b
    /\ streamInsertContent b = trim code
    /\ streamOperation b = prop (parseMetadata meta) "operation"
    /\ streamLine b = prop (parseMetadata meta) "line"
    /\ streamDeleteCount b = js_or (prop (parseMetadata meta) "delete") (VInt 0)
    /\ blockIndex b = index.
Proof.
  intros Hop Hline. unfold buildStreamingBlock. cbn [groups nth].
  rewrite Hop, Hline. cbn [andb]. eexists. split; [reflexivity|]. by cbn.
Qed.

Lemma arrivingBlock_backtick_free meta body :
  all_chars notBacktick meta = true ->
  all_chars notBacktick body = true ->
  all_chars notBacktick (nl +:+ "@@ " +:+ meta +:+ " @@" +:+ nl +:+ body) = true.
Proof. intros Hm Hb. by rewrite !all_chars_app, Hm, Hb. Qed.

Lemma streaming_here_arriving meta body :
  starts_nonspace meta = true ->
  ends_nonspace meta = true ->
  all_chars metaChar meta = true ->
  all_chars notBacktick body = true ->
  exists w code,
    body = w +:+ code
    /\ all_chars is_space w = true
    /\ streaming_here (arrivingBlock meta body)
       = Some (MatchResult (arrivingBlock meta body) [meta; code] "").
Proof.
  intros Hs He Hm Hb.
  destruct (leading_space_split body "" eq_refl) as (w & code & Hbody & Hw & Hnl).
  rewrite !app_empty_r in Hnl.
  exists w, code. split; [done|]. split; [done|].
  unfold streaming_here, streamingHead. set (K := fun s' caps => Some _).
  unfold arrivingBlock.
  apply (block_head_stages meta _ _ _ (fenceOrEnd K) _ Hs He Hm Hnl).
  apply stage_stream_body_end.
  - apply backtick_free_lacks. rewrite Hbody, all_chars_app in Hb.
    by apply andb_prop in Hb as [_ Hb].
  - subst K. cbn beta. cbn [app]. by rewrite consumed_all.
Qed.

Lemma exec_block_arriving prose meta body :
  all_chars notBacktick prose = true ->
  all_chars notBacktick meta = true ->
  all_chars notBacktick body = true ->
  exec blockRegex (prose +:+ arrivingBlock meta body) = None.
Proof.
  intros Hprose Hmeta Hbody.
  pose proof (arrivingBlock_backtick_free meta body Hmeta Hbody) as Hfree.
  set (s1 := nl +:+ "@@ " +:+ meta +:+ " @@" +:+ nl +:+ body) in *.
  assert (Hskip : exec blockRegex (prose +:+ arrivingBlock meta body)
                  = exec blockRegex
                      (String "`" (String "`" (String "`" ("latex-diff" +:+ s1))))).
  { apply (exec_skip_no_backtick "``latex-diff" _ prose
             ("``latex-diff" +:+ s1) Hprose). }
  rewrite Hskip. cbn [exec].
  assert (H0 : match_here blockRegex
                 (String "`" (String "`" (String "`" ("latex-diff" +:+ s1)))) = None).
  { change (String "`" (String "`" (String "`" ("latex-diff" +:+ s1))))
      with (fence_open +:+ s1).
    unfold match_here, blockRegex. rewrite stage_literal.
    by apply needs_backtick_fails. }
  assert (H1 : match_here blockRegex (String "`" (String "`" ("latex-diff" +:+ s1)))
               = None).
  { unfold match_here, blockRegex. by rewrite rmatch_lit_fail. }
  assert (H2 : match_here blockRegex (String "`" ("latex-diff" +:+ s1)) = None).
  { unfold match_here, blockRegex. by rewrite rmatch_lit_fail. }
  rewrite H0, H1, H2.
  apply exec_no_backtick. by rewrite all_chars_app, Hfree.
Qed.

Lemma streaming_one_block fuel s m b tail :
  streaming_exec s = Some m ->
  rest m = tail ->
  buildStreamingBlock m 0 = Some b ->
  all_chars notBacktick tail = true ->
  streamLoop (S fuel) s 0 = [b].
Proof.
  intros Hm Hrest Hb Htail. cbn [streamLoop]. rewrite Hm, Hb, Hrest.
  by rewrite streamLoop_no_backtick.
Qed.

End StreamingBlocks.

(** X22.  A block that is still arriving.  After prose without a
    backtick, an open fence, a complete metadata line that gives a
    truthy operation and a truthy line, and the part of the body
    received so far, with no backtick in it: [parseStreamingDiff]
    returns one preview, numbered 0, whose insert text is that part of
    the body, trimmed; the marker predicate is true; and
    [parseLatexDiff] returns no record, for want of a close fence. *)
Theorem arriving_block_is_previewed (prose meta body : string) :
  all_chars notBacktick prose = true ->
  metadataLine meta ->
  truthy (prop (parseMetadata meta) "line") = true ->
  all_chars notBacktick meta = true ->
  all_chars notBacktick body = true ->
  let received := prose +:+ arrivingBlock meta body in
  exists b,
    diffBlocks (parseStreamingDiff received) = [b]
    /\ hasStreamingDiffs (parseStreamingDiff received) = true
    /\ streamInsertContent b = trim body
    /\ streamOperation b = prop (parseMetadata meta) "operation"
    /\ streamLine b = prop (parseMetadata meta) "line"
    /\ blockIndex b = 0
    /\ hasStreamingLatexDiffs received = true
    /\ parseLatexDiff received = [].
Proof.
  intros Hprose Hmeta Hline Hmfree Hbody received.
  pose proof Hmeta as (Hs & He & Hm & Hop & _).
  destruct (streaming_here_arriving meta body Hs He Hm Hbody)
    as (w & code & Hsplit & Hw & Hhere).
  apply streaming_exec_here in Hhere.
  assert (Hexec : streaming_exec received
                  = Some (MatchResult (arrivingBlock meta body) [meta; code] "")).
  { rewrite <- Hhere. subst received.
    apply (streaming_exec_skip prose
             ("``latex-diff" +:+ nl +:+ "@@ " +:+ meta +:+ " @@" +:+ nl +:+ body)
             Hprose). }
  destruct (buildStreamingBlock_metadataLine meta code (arrivingBlock meta body)
              "" 0 Hop Hline) as (b & Hb & Hins & Hbop & Hbline & _ & Hidx).
  assert (Hblocks : diffBlocks (parseStreamingDiff received) = [b]).
  { unfold parseStreamingDiff. cbn [diffBlocks].
    by apply (streaming_one_block _ _ _ _ "" Hexec). }
  exists b. split; [exact Hblocks|]. split.
  { unfold parseStreamingDiff in *. cbn [diffBlocks hasStreamingDiffs] in *.
    by rewrite Hblocks. }
  split; [rewrite Hins, Hsplit; unfold trim; by rewrite trimStart_app_space|].
  split; [done|]. split; [done|]. split; [done|]. split.
  - subst received.
    replace (arrivingBlock meta body) with (openBlock meta true +:+ nl +:+ body)
      by (unfold arrivingBlock, openBlock; by rewrite !app_assoc_str).
    by apply marker_in_block.
  - subst received. unfold parseLatexDiff. cbn [parseLoop].
    by rewrite (exec_block_arriving prose meta body Hprose Hmfree Hbody).
Qed.

Lemma arriving_block_is_previewed_witness :
  all_chars notBacktick "Adding a section. " = true
  /\ metadataLine "operation:add line:15"
  /\ truthy (prop (parseMetadata "operation:add line:15") "line") = true
  /\ all_chars notBacktick "operation:add line:15" = true
  /\ all_chars notBacktick ("\section{New" +:+ nl) = true
  /\ map streamInsertContent
         (diffBlocks
            (parseStreamingDiff
               ("Adding a section. "
                  +:+ arrivingBlock "operation:add line:15" ("\section{New" +:+ nl))))
     = ["\section{New"].
Proof.
  assert (H1 : all_chars notBacktick "Adding a section. " = true) by reflexivity.
  assert (H2 : metadataLine "operation:add line:15").
  { repeat split; try reflexivity; vm_compute; discriminate. }
  assert (H3 : truthy (prop (parseMetadata "operation:add line:15") "line") = true)
    by (vm_compute; reflexivity).
  assert (H4 : all_chars notBacktick "operation:add line:15" = true) by reflexivity.
  assert (H5 : all_chars notBacktick ("\section{New" +:+ nl) = true) by reflexivity.
  repeat (split; [assumption|]).
  destruct (arriving_block_is_previewed _ _ _ H1 H2 H3 H4 H5)
    as (b & Hb & _ & Hi & _).
  rewrite Hb. cbn [map]. rewrite Hi. reflexivity.
Defined.

(** ** Previews of complete blocks, and a header on two lines *)

Section CompleteBlocks.

Lemma trimEnd_app_space s w :
  all_chars is_space w = true -> trimEnd (s +:+ w) = trimEnd s.
Proof.
  intros Hw. induction s as [|c s IH].
  - rewrite app_empty. cbn [trimEnd]. by apply trimEnd_empty.
  - rewrite app_cons. cbn [trimEnd]. by rewrite IH.
Qed.

Lemma trim_line x : starts_nonspace x = true -> trim (x +:+ nl) = trim x.
Proof.
  intros Hx. unfold trim. destruct x as [|c x]; [done|].
  cbn [starts_nonspace] in Hx. rewrite app_cons. cbn [trimStart].
  destruct (is_space c); [done|]. rewrite <- app_cons.
  by apply trimEnd_app_space.
Qed.

Lemma after_last_nl_line x s :
  starts_nonspace x = true ->
  after_last_nl (String LF (x +:+ s)) = Some (x +:+ s).
Proof.
  intros Hx. destruct x as [|c x]; [done|]. cbn [starts_nonspace] in Hx.
  rewrite app_cons. cbn [after_last_nl]. change (is_space LF) with true.
  cbn iota. by destruct (is_space c).
Qed.

Lemma streaming_here_complete meta x tail :
  starts_nonspace meta = true ->
  ends_nonspace meta = true ->
  all_chars metaChar meta = true ->
  starts_nonspace x = true ->
  no_early closeFence x = true ->
  streaming_here (patchBlock meta (x +:+ nl) +:+ tail)
  = Some (MatchResult (patchBlock meta (x +:+ nl)) [meta; x] tail).
Proof.
  intros Hs He Hm Hx Hfree.
  unfold streaming_here, streamingHead. set (K := fun s' caps => Some _).
  rewrite patchBlock_app.
  replace ((x +:+ nl) +:+ "```" +:+ tail) with (x +:+ closeFence +:+ tail)
    by (unfold closeFence; by rewrite !app_assoc_str).
  apply (block_head_stages meta _ _ _ (fenceOrEnd K) _ Hs He Hm
           (after_last_nl_line x _ Hx)).
  apply stage_stream_body_fence; [done|].
  subst K. cbn beta. cbn [app]. by rewrite consumed_app.
Qed.

Lemma streaming_here_unfenced meta body :
  starts_nonspace meta = true ->
  ends_nonspace meta = true ->
  all_chars metaChar meta = true ->
  lacks closeFence (body +:+ "```") = true ->
  exists w code,
    body = w +:+ code
    /\ all_chars is_space w = true
    /\ streaming_here (patchBlock meta body)
       = Some (MatchResult (patchBlock meta body) [meta; code +:+ "```"] "").
Proof.
  intros Hs He Hm Hlacks.
  destruct (leading_space_split body "```" eq_refl) as (w & code & Hbody & Hw & Hnl).
  exists w, code. split; [done|]. split; [done|].
  unfold streaming_here, streamingHead. set (K := fun s' caps => Some _).
  unfold patchBlock.
  apply (block_head_stages meta _ _ _ (fenceOrEnd K) _ Hs He Hm Hnl).
  apply stage_stream_body_end.
  - apply (lacks_suffix _ w). by rewrite <- app_assoc_str, <- Hbody.
  - subst K. cbn beta. cbn [app]. by rewrite consumed_all.
Qed.

Lemma block_head_stages_w {R} w1 meta after code r
      (K : string -> list string -> option R) res :
  all_chars is_space w1 = true ->
  starts_nonspace meta = true ->
  ends_nonspace meta = true ->
  all_chars metaChar meta = true ->
  after_last_nl (String LF after) = Some code ->
  rmatch r code [meta] K = Some res ->
  rmatch
    (RSeq (RLit fence_open)
    (RSeq (RStar true CSpace)
    (RSeq (RSet (CChar LF))
    (RSeq (RLit "@@")
    (RSeq (RStar true CSpace)
    (RSeq (RGroup (RStar false CDot))
    (RSeq (RStar true CSpace)
    (RSeq (RLit "@@")
    (RSeq (RStar true CSpace)
    (RSeq (RSet (CChar LF)) r))))))))))
    (fence_open +:+ nl +:+ "@@" +:+ w1 +:+ meta +:+ " @@" +:+ nl +:+ after) [] K
  = Some res.
Proof.
  intros Hw1 Hs He Hm Hnl Hr.
  rewrite stage_literal.
  apply (stage_space_newline _ _ ("@@" +:+ w1 +:+ meta +:+ " @@" +:+ nl +:+ after));
    [done|].
  rewrite stage_literal.
  apply stage_space; [done| by destruct meta |].
  apply stage_metadata; [done|done| intros; by apply no_marker_fails |].
  change (" @@" +:+ ?x) with (" " +:+ "@@" +:+ x).
  apply stage_space; [done|done|].
  rewrite stage_literal.
  by apply (stage_space_newline _ _ _ _ _ _ Hnl).
Qed.

Lemma match_here_splitHeader meta body :
  starts_nonspace meta = true ->
  ends_nonspace meta = true ->
  all_chars metaChar meta = true ->
  no_early_fence body = true ->
  exists w code,
    body = w +:+ code
    /\ all_chars is_space w = true
    /\ match_here blockRegex (splitHeaderBlock meta body)
       = Some (MatchResult (splitHeaderBlock meta body) [meta; code] "").
Proof.
  intros Hs He Hm Hb.
  destruct (leading_space_split body "```" eq_refl) as (w & code & Hbody & Hw & Hnl).
  exists w, code. split; [done|]. split; [done|].
  unfold match_here. set (K := fun s' caps => Some _).
  unfold splitHeaderBlock, blockRegex.
  apply (block_head_stages_w nl meta _ _ _ K _ eq_refl Hs He Hm Hnl).
  apply stage_body.
  - apply (no_early_fence_suffix w). by rewrite <- Hbody.
  - subst K. cbn beta. cbn [app]. by rewrite consumed_all.
Qed.

Lemma exec_three_backticks r s :
  match_here r (String "`" (String "`" (String "`" s))) = None ->
  match_here r (String "`" (String "`" s)) = None ->
  match_here r (String "`" s) = None ->
  exec r s = None ->
  exec r (String "`" (String "`" (String "`" s))) = None.
Proof. intros H0 H1 H2 H3. cbn [exec]. by rewrite H0, H1, H2. Qed.

(** Neither the marker pattern nor the pattern of full-document blocks
    matches in a block whose metadata is on the line after [@@]. *)
Lemma splitHeader_unmarked meta body :
  all_chars notBacktick meta = true ->
  all_chars notBacktick body = true ->
  exec markerRegex (splitHeaderBlock meta body) = None
  /\ exec latexRegex (splitHeaderBlock meta body) = None.
Proof.
  intros Hmeta Hbody.
  set (u := "latex-diff" +:+ nl +:+ "@@" +:+ nl +:+ meta +:+ " @@" +:+ nl +:+ body).
  assert (Hu : all_chars notBacktick u = true).
  { subst u. by rewrite !all_chars_app, Hmeta, Hbody. }
  assert (Hsplit : splitHeaderBlock meta body
                   = String "`" (String "`" (String "`" (u +:+ "```")))).
  { subst u. unfold splitHeaderBlock. by rewrite !app_assoc_str. }
  rewrite Hsplit. split.
  - apply exec_three_backticks.
    + subst u. rewrite !app_assoc_str. reflexivity.
    + subst u. rewrite !app_assoc_str. reflexivity.
    + subst u. rewrite !app_assoc_str. reflexivity.
    + assert (Hskip : exec markerRegex (u +:+ "```") = exec markerRegex "```").
      { apply (exec_skip_no_backtick "``latex-diff" _ u "``" Hu). }
      by rewrite Hskip.
  - apply exec_three_backticks.
    + subst u. rewrite !app_assoc_str. reflexivity.
    + subst u. rewrite !app_assoc_str. reflexivity.
    + subst u. rewrite !app_assoc_str. reflexivity.
    + assert (Hskip : exec latexRegex (u +:+ "```") = exec latexRegex "```").
      { apply (exec_skip_no_backtick "``latex" _ u "``" Hu). }
      by rewrite Hskip.
Qed.

Lemma stream_and_record prose meta x tail :
  all_chars notBacktick prose = true ->
  metadataLine meta ->
  truthy (prop (parseMetadata meta) "line") = true ->
  starts_nonspace x = true ->
  no_early closeFence x = true ->
  no_early_fence (x +:+ nl) = true ->
  all_chars notBacktick tail = true ->
  let response := prose +:+ patchBlock meta (x +:+ nl) +:+ tail in
  exists b r,
    diffBlocks (parseStreamingDiff response) = [b]
    /\ parseLatexDiff response = [r]
    /\ streamInsertContent b = trim x
    /\ insertContent r = trim x
    /\ streamOperation b = prop (parseMetadata meta) "operation"
    /\ operation r = prop (parseMetadata meta) "operation"
    /\ streamLine b = prop (parseMetadata meta) "line"
    /\ line r = prop (parseMetadata meta) "line"
    /\ streamDeleteCount b = js_or (prop (parseMetadata meta) "delete") (VInt 0)
    /\ deleteCount r
       = if truthy (prop (parseMetadata meta) "delete")
         then prop (parseMetadata meta) "delete"
         else if strict_eq (prop (parseMetadata meta) "operation") (VString "delete")
              then VInt 1 else VInt 0.
Proof.
  intros Hprose Hmeta Hline Hx Hfree Hfence Htail response.
  pose proof Hmeta as (Hs & He & Hm & Hop & _).
  (* the preview *)
  pose proof (streaming_here_complete meta x tail Hs He Hm Hx Hfree) as Hhere.
  apply streaming_exec_here in Hhere.
  assert (Hexec : streaming_exec response
                  = Some (MatchResult (patchBlock meta (x +:+ nl)) [meta; x] tail)).
  { rewrite <- Hhere. subst response. rewrite patchBlock_app.
    apply (streaming_exec_skip prose
             ("``latex-diff" +:+ nl +:+ "@@ " +:+ meta +:+ " @@" +:+ nl
                +:+ (x +:+ nl) +:+ "```" +:+ tail) Hprose). }
  destruct (buildStreamingBlock_metadataLine meta x (patchBlock meta (x +:+ nl))
              tail 0 Hop Hline) as (b & Hb & Hins & Hbop & Hbline & Hbdc & _).
  (* the record *)
  pose proof (match_here_block_tail meta (x +:+ nl) tail Hs He Hm Hfence)
    as (w & code & Hsplit & Hw & Hmatch).
  apply exec_here in Hmatch.
  assert (Hexec' : exec blockRegex response
                   = Some (MatchResult (patchBlock meta (x +:+ nl)) [meta; code] tail)).
  { rewrite <- Hmatch. subst response. rewrite patchBlock_app.
    apply (exec_skip_no_backtick "``latex-diff" _ prose
             ("``latex-diff" +:+ nl +:+ "@@ " +:+ meta +:+ " @@" +:+ nl
                +:+ (x +:+ nl) +:+ "```" +:+ tail) Hprose). }
  destruct (buildBlock_metadataLine meta code (patchBlock meta (x +:+ nl)) tail Hmeta)
    as (r & Hr & _ & Hrins & Hrop & Hrline).
  pose proof (buildBlock_deleteCount _ r Hr) as Hrdc. cbn [groups nth] in Hrdc.
  assert (Hnone : exec blockRegex tail = None) by (by apply exec_no_backtick).
  exists b, r. split.
  { unfold parseStreamingDiff. cbn [diffBlocks].
    by apply (streaming_one_block _ _ _ _ tail Hexec). }
  split.
  { unfold parseLatexDiff. cbn [parseLoop]. rewrite Hexec', Hr. cbn [rest].
    destruct (String.length response); cbn [parseLoop]; by rewrite ?Hnone. }
  split; [done|]. split.
  { rewrite Hrins. rewrite <- (trim_line x Hx), Hsplit.
    unfold trim. by rewrite trimStart_app_space. }
  done.
Qed.


End CompleteBlocks.

(** X23.  A block whose metadata stands on the line after the first
    [@@] is a block for the parser and not for the marker predicate.
    With a metadata line as in X20 and no backtick in metadata and body,
    [parseLatexDiff] returns the record of the block (insert text the
    trimmed body, operation and line from the metadata), while
    [hasLatexDiffs] and [hasStreamingLatexDiffs] are false, so [askAI]
    never parses the response: it answers as plain conversation and the
    store stays as it is. *)
Theorem header_on_two_lines_is_parsed_but_not_marked (meta body : string) :
  metadataLine meta ->
  all_chars notBacktick meta = true ->
  all_chars notBacktick body = true ->
  let response := splitHeaderBlock meta body in
  exists r,
    parseLatexDiff response = [r]
    /\ raw r = response
    /\ insertContent r = trim body
    /\ operation r = prop (parseMetadata meta) "operation"
    /\ line r = prop (parseMetadata meta) "line"
    /\ hasLatexDiffs response = false
    /\ hasStreamingLatexDiffs response = false
    /\ forall now st, askAI response now st = (st, Conversation response).
Proof.
  intros Hmeta Hmfree Hbody response.
  pose proof Hmeta as (Hs & He & Hm & _ & _).
  destruct (match_here_splitHeader meta body Hs He Hm
              (backtick_free_no_early_fence body Hbody))
    as (w & code & Hsplit & Hw & Hmatch).
  apply exec_here in Hmatch.
  destruct (buildBlock_metadataLine meta code (splitHeaderBlock meta body) "" Hmeta)
    as (r & Hr & Hraw & Hins & Hop & Hline).
  destruct (splitHeader_unmarked meta body Hmfree Hbody) as [Hmarker Hlatex].
  assert (Hhas : hasLatexDiffs response = false).
  { unfold hasLatexDiffs, test. subst response. by rewrite Hmarker. }
  exists r. split.
  { subst response. unfold parseLatexDiff. cbn [parseLoop].
    rewrite Hmatch, Hr. cbn [rest]. by rewrite parseLoop_end. }
  split; [done|]. split.
  { rewrite Hins, Hsplit. unfold trim. by rewrite trimStart_app_space. }
  split; [done|]. split; [done|]. split; [done|]. split; [done|].
  intros now st. unfold askAI. rewrite Hhas. subst response. by rewrite Hlatex.
Qed.

Lemma header_on_two_lines_is_parsed_but_not_marked_witness :
  metadataLine "operation:add line:1"
  /\ all_chars notBacktick "operation:add line:1" = true
  /\ all_chars notBacktick ("x" +:+ nl) = true
  /\ map insertContent
         (parseLatexDiff (splitHeaderBlock "operation:add line:1" ("x" +:+ nl)))
     = ["x"]
  /\ hasLatexDiffs (splitHeaderBlock "operation:add line:1" ("x" +:+ nl)) = false.
Proof.
  assert (H1 : metadataLine "operation:add line:1").
  { repeat split; try reflexivity; vm_compute; discriminate. }
  assert (H2 : all_chars notBacktick "operation:add line:1" = true) by reflexivity.
  assert (H3 : all_chars notBacktick ("x" +:+ nl) = true) by reflexivity.
  repeat (split; [assumption|]).
  destruct (header_on_two_lines_is_parsed_but_not_marked _ _ H1 H2 H3)
    as (r & Hr & _ & Hi & _ & _ & Hh & _).
  split; [|exact Hh].
  rewrite Hr. cbn [map]. rewrite Hi. reflexivity.
Defined.

(** X24.  The preview of a complete block agrees with its record when
    the body is text that starts with something other than white space
    and ends with the line feed before the close fence.  For such a
    block with a metadata line as in X20 whose line is truthy, between
    prose and text without a backtick, [parseStreamingDiff] returns one
    preview and [parseLatexDiff] one record, with the same operation,
    line and insert text, the trimmed body.  The delete counts agree
    except for a delete without a count: 0 in the preview, 1 in the
    record. *)
Theorem stream_preview_agrees_with_record (prose meta x tail : string) :
  all_chars notBacktick prose = true ->
  metadataLine meta ->
  truthy (prop (parseMetadata meta) "line") = true ->
  starts_nonspace x = true ->
  no_early closeFence x = true ->
  no_early_fence (x +:+ nl) = true ->
  all_chars notBacktick tail = true ->
  let response := prose +:+ patchBlock meta (x +:+ nl) +:+ tail in
  exists b r,
    diffBlocks (parseStreamingDiff response) = [b]
    /\ parseLatexDiff response = [r]
    /\ streamInsertContent b = trim x
    /\ insertContent r = trim x
    /\ streamOperation b = operation r
    /\ streamLine b = line r
    /\ (streamDeleteCount b = deleteCount r
        \/ (operation r = VString "delete"
            /\ streamDeleteCount b = VInt 0 /\ deleteCount r = VInt 1)).
Proof.
  intros Hprose Hmeta Hline Hx Hfree Hfence Htail response.
  destruct (stream_and_record prose meta x tail Hprose Hmeta Hline Hx Hfree
              Hfence Htail)
    as (b & r & Hb & Hr & Hbi & Hri & Hbop & Hrop & Hbl & Hrl & Hbdc & Hrdc).
  exists b, r. split; [exact Hb|]. split; [exact Hr|].
  split; [exact Hbi|]. split; [exact Hri|].
  split; [by rewrite Hbop, Hrop|]. split; [by rewrite Hbl, Hrl|].
  rewrite Hbdc, Hrdc, Hrop. unfold js_or.
  destruct (truthy (prop (parseMetadata meta) "delete")); [by left|].
  destruct (strict_eq (prop (parseMetadata meta) "operation") (VString "delete"))
    eqn:Hdel; [|by left].
  right. by apply strict_eq_string in Hdel.
Qed.

Lemma stream_preview_agrees_with_record_witness :
  all_chars notBacktick "Rewording. " = true
  /\ metadataLine "operation:replace line:7 delete:1"
  /\ truthy (prop (parseMetadata "operation:replace line:7 delete:1") "line") = true
  /\ starts_nonspace "This is ``improved'' text." = true
  /\ no_early closeFence "This is ``improved'' text." = true
  /\ no_early_fence ("This is ``improved'' text." +:+ nl) = true
  /\ all_chars notBacktick " Done." = true
  /\ map streamInsertContent
         (diffBlocks
            (parseStreamingDiff
               ("Rewording. "
                  +:+ patchBlock "operation:replace line:7 delete:1"
                        ("This is ``improved'' text." +:+ nl)
                  +:+ " Done.")))
     = ["This is ``improved'' text."].
Proof.
  assert (H1 : all_chars notBacktick "Rewording. " = true) by reflexivity.
  assert (H2 : metadataLine "operation:replace line:7 delete:1").
  { repeat split; try reflexivity; vm_compute; discriminate. }
  assert (H3 : truthy (prop (parseMetadata "operation:replace line:7 delete:1") "line")
               = true) by (vm_compute; reflexivity).
  assert (H4 : starts_nonspace "This is ``improved'' text." = true) by reflexivity.
  assert (H5 : no_early closeFence "This is ``improved'' text." = true) by reflexivity.
  assert (H6 : no_early_fence ("This is ``improved'' text." +:+ nl) = true)
    by reflexivity.
  assert (H7 : all_chars notBacktick " Done." = true) by reflexivity.
  repeat (split; [assumption|]).
  destruct (stream_preview_agrees_with_record _ _ _ _ H1 H2 H3 H4 H5 H6 H7)
    as (b & r & Hb & _ & Hi & _).
  rewrite Hb. cbn [map]. rewrite Hi. reflexivity.
Defined.

(** X25.  The close fence gets into the preview when it does not start
    a line.  For a complete block, after prose without a backtick,
    whose body followed by the fence has no line feed right before
    three backticks (an empty body, as in the delete block of the
    prompt, or a body that does not end with a line feed),
    [parseStreamingDiff] returns one preview whose insert text is the
    trimmed body with the fence at its end, where the record of
    [parseLatexDiff] has the trimmed body. *)
Theorem fence_gets_into_the_preview (prose meta body : string) :
  all_chars notBacktick prose = true ->
  metadataLine meta ->
  truthy (prop (parseMetadata meta) "line") = true ->
  no_early_fence body = true ->
  lacks closeFence (body +:+ "```") = true ->
  let response := prose +:+ patchBlock meta body in
  exists b r,
    diffBlocks (parseStreamingDiff response) = [b]
    /\ parseLatexDiff response = [r]
    /\ streamInsertContent b = trim (body +:+ "```")
    /\ insertContent r = trim body.
Proof.
  intros Hprose Hmeta Hline Hfence Hlacks response.
  pose proof Hmeta as (Hs & He & Hm & Hop & _).
  destruct (streaming_here_unfenced meta body Hs He Hm Hlacks)
    as (w & code & Hsplit & Hw & Hhere).
  apply streaming_exec_here in Hhere.
  assert (Hexec : streaming_exec response
                  = Some (MatchResult (patchBlock meta body)
                            [meta; code +:+ "```"] "")).
  { rewrite <- Hhere. subst response.
    apply (streaming_exec_skip prose
             ("``latex-diff" +:+ nl +:+ "@@ " +:+ meta +:+ " @@" +:+ nl
                +:+ body +:+ "```") Hprose). }
  destruct (buildStreamingBlock_metadataLine meta (code +:+ "```")
              (patchBlock meta body) "" 0 Hop Hline) as (b & Hb & Hins & _).
  destruct (parse_block_then prose meta body "" Hprose Hmeta Hfence)
    as (r & Hparse & _ & Hrins & _).
  rewrite app_empty_r in Hparse.
  exists b, r. split.
  { unfold parseStreamingDiff. cbn [diffBlocks].
    by apply (streaming_one_block _ _ _ _ "" Hexec). }
  split; [exact Hparse|]. split; [|done].
  rewrite Hins, Hsplit, app_assoc_str. unfold trim.
  by rewrite (trimStart_app_space w).
Qed.

Lemma fence_gets_into_the_preview_witness :
  all_chars notBacktick "" = true
  /\ metadataLine "operation:delete line:21 delete:8"
  /\ truthy (prop (parseMetadata "operation:delete line:21 delete:8") "line") = true
  /\ no_early_fence "" = true
  /\ lacks closeFence ("" +:+ "```") = true
  /\ map streamInsertContent
         (diffBlocks
            (parseStreamingDiff (patchBlock "operation:delete line:21 delete:8" "")))
     = ["```"].
Proof.
  assert (H1 : all_chars notBacktick "" = true) by reflexivity.
  assert (H2 : metadataLine "operation:delete line:21 delete:8").
  { repeat split; try reflexivity; vm_compute; discriminate. }
  assert (H3 : truthy (prop (parseMetadata "operation:delete line:21 delete:8") "line")
               = true) by (vm_compute; reflexivity).
  assert (H4 : no_early_fence "" = true) by reflexivity.
  assert (H5 : lacks closeFence ("" +:+ "```") = true) by reflexivity.
  repeat (split; [assumption|]).
  destruct (fence_gets_into_the_preview _ _ _ H1 H2 H3 H4 H5)
    as (b & r & Hb & _ & Hi & _).
  change ("" +:+ patchBlock "operation:delete line:21 delete:8" "")
    with (patchBlock "operation:delete line:21 delete:8" "") in Hb.
  rewrite Hb. cbn [map]. rewrite Hi. reflexivity.
Defined.

(** ** Numbers in the metadata *)

Section MetadataValues.

Lemma is_digit_cases c :
  is_digit c = true ->
  In c ["0"; "1"; "2"; "3"; "4"; "5"; "6"; "7"; "8"; "9"]%char.
Proof.
  unfold is_digit. intros [H1 H2]%andb_prop.
  apply Z.leb_le in H1, H2. rewrite <- (ascii_nat_embedding c).
  set (n := nat_of_ascii c) in *.
  assert (Hn : (n = 48 \/ n = 49 \/ n = 50 \/ n = 51 \/ n = 52 \/ n = 53
                \/ n = 54 \/ n = 55 \/ n = 56 \/ n = 57)%nat) by lia.
  cbn [In].
  destruct Hn as [->|[->|[->|[->|[->|[->|[->|[->|[->| ->]]]]]]]]];
    cbn; auto 12.
Qed.

Lemma digit_char c :
  is_digit c = true ->
  is_space c = false
  /\ digit_in 10 c = Some (Z.of_nat (nat_of_ascii c) - 48)
  /\ 0 <= Z.of_nat (nat_of_ascii c) - 48 <= 9
  /\ metaChar c = true
  /\ Ascii.eqb c ":" = false.
Proof.
  intros H%is_digit_cases. cbn [In] in H.
  repeat (destruct H as [<-|H]); [..|destruct H]; vm_compute; repeat split; congruence.
Qed.

Lemma read_digits_digits ds :
  all_chars is_digit ds = true ->
  forall acc cnt,
    read_digits 10 ds acc cnt
    = (decimalValue acc ds, (cnt + String.length ds)%nat, "").
Proof.
  induction ds as [|c ds IH]; intros Hds acc cnt.
  - cbn. by rewrite Nat.add_0_r.
  - cbn [all_chars] in Hds. apply andb_prop in Hds as [Hc Hds].
    destruct (digit_char c Hc) as (_ & Hd & _).
    cbn [read_digits decimalValue String.length]. rewrite Hd, (IH Hds).
    do 2 f_equal. lia.
Qed.

Lemma decimalValue_nonneg ds :
  all_chars is_digit ds = true -> forall acc, 0 <= acc -> 0 <= decimalValue acc ds.
Proof.
  induction ds as [|c ds IH]; intros Hds acc Hacc; [done|].
  cbn [all_chars] in Hds. apply andb_prop in Hds as [Hc Hds].
  destruct (digit_char c Hc) as (_ & _ & Hd & _).
  cbn [decimalValue]. apply IH; [done | lia].
Qed.

Lemma trimEnd_digits ds : all_chars is_digit ds = true -> trimEnd ds = ds.
Proof.
  induction ds as [|c ds IH]; [done|]. cbn [all_chars].
  intros [Hc Hds]%andb_prop. cbn [trimEnd]. rewrite (IH Hds).
  destruct (digit_char c Hc) as (Hsp & _). rewrite Hsp. by destruct ds.
Qed.

Lemma trim_digits ds : all_chars is_digit ds = true -> trim ds = ds.
Proof.
  intros Hds. unfold trim.
  replace (trimStart ds) with ds; [by apply trimEnd_digits|].
  destruct ds as [|c ds]; [done|]. cbn [all_chars] in Hds.
  apply andb_prop in Hds as [Hc _]. destruct (digit_char c Hc) as (Hsp & _).
  cbn [trimStart]. by rewrite Hsp.
Qed.

Lemma non_decimal_literal_digits ds :
  all_chars is_digit ds = true -> non_decimal_literal ds = None.
Proof.
  destruct ds as [|c [|p ds]]; [done| |].
  - cbn [all_chars]. intros [Hc _]%andb_prop.
    apply is_digit_cases in Hc. cbn [In] in Hc.
    repeat (destruct Hc as [<-|Hc]); [..|destruct Hc]; reflexivity.
  - cbn [all_chars]. intros [Hc [Hp _]%andb_prop]%andb_prop.
    apply is_digit_cases in Hc, Hp. cbn [In] in Hc, Hp.
    repeat (destruct Hc as [<-|Hc]); [..|destruct Hc]; try reflexivity;
      repeat (destruct Hp as [<-|Hp]); [..|destruct Hp]; reflexivity.
Qed.

Lemma decimal_literal_digits ds :
  digitText ds -> decimal_literal ds = Dec (decimalValue 0 ds) 0.
Proof.
  intros [Hne Hds]. destruct ds as [|c ds]; [done|].
  pose proof (read_digits_digits _ Hds 0 0%nat) as Hread.
  cbn [all_chars] in Hds. apply andb_prop in Hds as [Hc _].
  apply is_digit_cases in Hc. cbn [In] in Hc.
  repeat (destruct Hc as [<-|Hc]); [..|destruct Hc];
    unfold decimal_literal; cbn [read_sign]; cbn [String.eqb Ascii.eqb Bool.eqb];
    rewrite Hread; reflexivity.
Qed.

Lemma StringToNumber_digits ds :
  digitText ds -> StringToNumber ds = Dec (decimalValue 0 ds) 0.
Proof.
  intros Hds. pose proof Hds as [Hne Hall]. unfold StringToNumber.
  rewrite (trim_digits _ Hall), (non_decimal_literal_digits _ Hall).
  destruct (String.eqb_spec ds ""); [done|]. by apply decimal_literal_digits.
Qed.

Lemma parseInt_digits ds :
  digitText ds -> parseInt ds = Dec (decimalValue 0 ds) 0.
Proof.
  intros [Hne Hds]. destruct ds as [|c ds]; [done|].
  pose proof (read_digits_digits _ Hds 0 0%nat) as Hread.
  cbn [all_chars] in Hds. apply andb_prop in Hds as [Hc Hds].
  unfold parseInt.
  replace (trimStart (String c ds)) with (String c ds)
    by (cbn [trimStart]; by destruct (digit_char c Hc) as (-> & _)).
  apply is_digit_cases in Hc. cbn [In] in Hc.
  repeat (destruct Hc as [<-|Hc]); [..|destruct Hc];
    cbn [read_sign]; try (rewrite Hread; reflexivity).
  destruct ds as [|p ds]; [reflexivity|].
  cbn [all_chars] in Hds. apply andb_prop in Hds as [Hp _].
  apply is_digit_cases in Hp. cbn [In] in Hp.
  repeat (destruct Hp as [<-|Hp]); [..|destruct Hp]; rewrite Hread; reflexivity.
Qed.

Lemma split_char_then sep x r :
  all_chars (fun c => negb (Ascii.eqb c sep)) x = true ->
  split_char sep (x +:+ String sep r) = x :: split_char sep r.
Proof.
  induction x as [|c x IH].
  - intros _. rewrite app_empty. cbn [split_char]. by rewrite Ascii.eqb_refl.
  - cbn [all_chars]. intros [Hc Hx]%andb_prop. rewrite app_cons. cbn [split_char].
    apply negb_true_iff in Hc. rewrite Hc. by rewrite (IH Hx).
Qed.

Lemma split_char_one sep x :
  all_chars (fun c => negb (Ascii.eqb c sep)) x = true ->
  split_char sep x = [x].
Proof.
  induction x as [|c x IH]; [done|]. cbn [all_chars split_char].
  intros [Hc Hx]%andb_prop. apply negb_true_iff in Hc. rewrite Hc.
  by rewrite (IH Hx).
Qed.

Lemma parsePair_key_value md key value :
  noColon key = true ->
  noColon value = true ->
  key <> "" ->
  key <> "__proto__" ->
  parsePair md (key +:+ ":" +:+ value)
  = <[key := if isNaN value then VString value
             else VNumber (parseInt value)]> md.
Proof.
  intros Hk Hv Hne Hproto. unfold parsePair.
  change (":" +:+ value) with (String ":" value).
  rewrite (split_char_then ":" key value Hk), (split_char_one ":" value Hv).
  apply String.eqb_neq in Hne, Hproto. by rewrite Hne, Hproto.
Qed.

Lemma digits_noColon ds : all_chars is_digit ds = true -> noColon ds = true.
Proof.
  induction ds as [|c ds IH]; [done|]. unfold noColon in *. cbn [all_chars].
  intros [Hc Hds]%andb_prop. destruct (digit_char c Hc) as (_ & _ & _ & _ & ->).
  by rewrite IH.
Qed.

Lemma isNaN_digits ds : digitText ds -> isNaN ds = false.
Proof. intros Hds. unfold isNaN. by rewrite StringToNumber_digits. Qed.

End MetadataValues.

(** X26.  A metadata value made of decimal digits that write an
    integer up to 2^53 is stored as that integer, leading zeros or not:
    [isNaN] is false of it, [Number] and [parseInt] both give that
    integer, which is not negative, and the pair [key:digits], with a
    key that has no colon and is neither empty nor [__proto__], sets
    the key to that integer, whatever the metadata held for it.  (Above
    2^53 a Number is the integer rounded, which this statement leaves
    aside.) *)
Theorem digits_are_stored_as_integers (md : gmap string jsval)
        (key ds : string) :
  digitText ds ->
  decimalValue 0 ds <= maxExactInteger ->
  noColon key = true ->
  key <> "" ->
  key <> "__proto__" ->
  isNaN ds = false
  /\ StringToNumber ds = Dec (decimalValue 0 ds) 0
  /\ parseInt ds = Dec (decimalValue 0 ds) 0
  /\ 0 <= decimalValue 0 ds
  /\ parsePair md (key +:+ ":" +:+ ds) = <[key := VInt (decimalValue 0 ds)]> md
  /\ prop (parsePair md (key +:+ ":" +:+ ds)) key = VInt (decimalValue 0 ds).
Proof.
  intros Hds _ Hk Hne Hproto. pose proof Hds as [_ Hall].
  assert (Hpair : parsePair md (key +:+ ":" +:+ ds)
                  = <[key := VInt (decimalValue 0 ds)]> md).
  { rewrite parsePair_key_value by (try done; by apply digits_noColon).
    by rewrite isNaN_digits, parseInt_digits. }
  split; [by apply isNaN_digits|]. split; [by apply StringToNumber_digits|].
  split; [by apply parseInt_digits|].
  split; [by apply decimalValue_nonneg|].
  split; [exact Hpair|]. by rewrite Hpair, prop_insert_eq.
Qed.

Lemma digits_are_stored_as_integers_witness :
  digitText "0042"
  /\ decimalValue 0 "0042" <= maxExactInteger
  /\ noColon "line" = true
  /\ "line" <> ""
  /\ "line" <> "__proto__"
  /\ prop (parsePair ∅ "line:0042") "line" = VInt 42.
Proof.
  assert (H1 : digitText "0042") by (split; [discriminate | reflexivity]).
  assert (Hb : decimalValue 0 "0042" <= maxExactInteger)
    by (vm_compute; discriminate).
  assert (H2 : noColon "line" = true) by reflexivity.
  assert (H3 : "line" <> "") by discriminate.
  assert (H4 : "line" <> "__proto__") by discriminate.
  repeat (split; [assumption|]).
  apply (digits_are_stored_as_integers ∅ "line" "0042" H1 Hb H2 H3 H4).
Defined.

(** ** A block as the prompt writes it, from the response to the text *)

Section PromptBlock.

Lemma split_ws_word w s :
  noSpace w = true ->
  split_ws false (w +:+ String " " s) = w :: split_ws true s.
Proof.
  induction w as [|c w IH].
  - intros _. rewrite app_empty. reflexivity.
  - unfold noSpace. cbn [all_chars]. intros [Hc Hw]%andb_prop.
    rewrite app_cons. cbn [split_ws]. apply negb_true_iff in Hc.
    rewrite Hc. by rewrite (IH Hw).
Qed.

Lemma split_ws_after_space s :
  starts_nonspace s = true -> split_ws true s = split_ws false s.
Proof.
  destruct s as [|c s]; [done|]. cbn [starts_nonspace split_ws].
  by destruct (is_space c).
Qed.

Lemma split_ws_one w : noSpace w = true -> split_ws false w = [w].
Proof.
  induction w as [|c w IH]; [done|]. unfold noSpace. cbn [all_chars split_ws].
  intros [Hc Hw]%andb_prop. apply negb_true_iff in Hc. rewrite Hc.
  by rewrite (IH Hw).
Qed.

Lemma digits_noSpace ds : all_chars is_digit ds = true -> noSpace ds = true.
Proof.
  induction ds as [|c ds IH]; [done|]. unfold noSpace in *. cbn [all_chars].
  intros [Hc Hds]%andb_prop. destruct (digit_char c Hc) as (-> & _).
  by rewrite IH.
Qed.

Lemma digits_metaChar ds :
  all_chars is_digit ds = true -> all_chars metaChar ds = true.
Proof.
  induction ds as [|c ds IH]; [done|]. cbn [all_chars].
  intros [Hc Hds]%andb_prop. destruct (digit_char c Hc) as (_ & _ & _ & -> & _).
  by rewrite IH.
Qed.

Lemma ends_nonspace_app u s :
  s <> "" -> ends_nonspace (u +:+ s) = ends_nonspace s.
Proof.
  intros Hs. induction u as [|c u IH]; [done|].
  rewrite app_cons, ends_nonspace_tail; [done|].
  destruct u; [by rewrite app_empty | by rewrite app_cons].
Qed.

Lemma digits_ends_nonspace ds : digitText ds -> ends_nonspace ds = true.
Proof.
  intros [Hne Hds]. induction ds as [|c ds IH]; [done|].
  cbn [all_chars] in Hds. apply andb_prop in Hds as [Hc Hds].
  destruct ds as [|c' ds].
  - cbn. by destruct (digit_char c Hc) as (-> & _).
  - rewrite ends_nonspace_tail by done. by apply IH.
Qed.

Lemma metadataText_words op dl dd :
  metadataText op dl dd
  = ("operation:" +:+ op)
      +:+ String " " (("line:" +:+ dl) +:+ String " " ("delete:" +:+ dd)).
Proof. unfold metadataText. by rewrite !app_assoc_str. Qed.

Lemma parseMetadata_text op dl dd :
  operationName op ->
  digitText dl ->
  digitText dd ->
  parseMetadata (metadataText op dl dd)
  = <["delete" := VInt (decimalValue 0 dd)]>
      (<["line" := VInt (decimalValue 0 dl)]>
         (<["operation" := VString op]> ∅)).
Proof.
  intros Hop Hdl Hdd. pose proof Hdl as [_ Hl]. pose proof Hdd as [_ Hd].
  assert (Hwords : split_ws false (metadataText op dl dd)
                   = ["operation:" +:+ op; "line:" +:+ dl; "delete:" +:+ dd]).
  { pose proof (digits_noSpace dl Hl) as Hsl.
    pose proof (digits_noSpace dd Hd) as Hsd. unfold noSpace in Hsl, Hsd.
    rewrite metadataText_words.
    rewrite split_ws_word by (destruct Hop as [->|[->| ->]]; reflexivity).
    rewrite split_ws_after_space by reflexivity.
    rewrite split_ws_word by (unfold noSpace; by rewrite all_chars_app, Hsl).
    rewrite split_ws_after_space by reflexivity.
    rewrite split_ws_one by (unfold noSpace; by rewrite all_chars_app, Hsd).
    reflexivity. }
  unfold parseMetadata. rewrite Hwords. cbn [foldl].
  change ("operation:" +:+ op) with ("operation" +:+ ":" +:+ op).
  change ("line:" +:+ dl) with ("line" +:+ ":" +:+ dl).
  change ("delete:" +:+ dd) with ("delete" +:+ ":" +:+ dd).
  rewrite (parsePair_key_value ∅ "operation" op)
    by (try done; destruct Hop as [->|[->| ->]]; reflexivity).
  rewrite (parsePair_key_value _ "line" dl) by (try done; by apply digits_noColon).
  rewrite (parsePair_key_value _ "delete" dd) by (try done; by apply digits_noColon).
  rewrite !isNaN_digits, !parseInt_digits by done.
  by destruct Hop as [->|[->| ->]].
Qed.

Lemma metadataText_line op dl dd :
  operationName op ->
  digitText dl ->
  digitText dd ->
  metadataLine (metadataText op dl dd).
Proof.
  intros Hop Hdl Hdd. pose proof Hdl as [_ Hl]. pose proof Hdd as [Hne Hd].
  unfold metadataLine. rewrite (parseMetadata_text op dl dd Hop Hdl Hdd).
  split; [reflexivity|]. split.
  { unfold metadataText. rewrite <- !app_assoc_str.
    rewrite ends_nonspace_app by done. by apply digits_ends_nonspace. }
  split.
  { unfold metadataText. rewrite !all_chars_app.
    rewrite (digits_metaChar dl Hl), (digits_metaChar dd Hd).
    by destruct Hop as [->|[->| ->]]. }
  rewrite !prop_insert_ne, prop_insert_eq by done.
  rewrite prop_insert_ne, prop_insert_eq by done.
  split; [by destruct Hop as [->|[->| ->]] | done].
Qed.

Lemma typed_record prose op dl dd body tail :
  all_chars notBacktick prose = true ->
  operationName op ->
  digitText dl ->
  digitText dd ->
  no_early_fence body = true ->
  exists r,
    parseLatexDiff (prose +:+ patchBlock (metadataText op dl dd) body +:+ tail)
    = r :: parseLatexDiff tail
    /\ operation r = VString op
    /\ line r = VInt (decimalValue 0 dl)
    /\ deleteCount r = VInt (recordedCount op (decimalValue 0 dd))
    /\ insertContent r = trim body
    /\ raw r = patchBlock (metadataText op dl dd) body.
Proof.
  intros Hprose Hop Hdl Hdd Hbody.
  destruct (parse_block_then prose _ body tail Hprose
              (metadataText_line op dl dd Hop Hdl Hdd) Hbody)
    as (r & Hparse & Hraw & Hins & Hrop & Hrline & Hrdc).
  rewrite (parseMetadata_text op dl dd Hop Hdl Hdd) in Hrop, Hrline, Hrdc.
  rewrite !prop_insert_ne, prop_insert_eq in Hrop by done.
  rewrite prop_insert_ne, prop_insert_eq in Hrline by done.
  rewrite !prop_insert_eq, !prop_insert_ne, prop_insert_eq in Hrdc by done.
  exists r. repeat (split; [assumption|]). split; [|split; [done|done]].
  rewrite Hrdc. unfold recordedCount. cbn [truthy strict_eq].
  by destruct (decimalValue 0 dd =? 0), (String.eqb op "delete").
Qed.

End PromptBlock.

(** X27.  A block written as the prompt asks gives a record typed as
    the applicator expects.  For [operation:] one of the three
    operations, [line:] and [delete:] followed by decimal digits that
    write integers up to 2^53 (beyond, a Number is the integer
    rounded), a body in which no close fence begins and prose without
    a backtick before the block, the first record of [parseLatexDiff]
    has the operation as a string, the line as the integer written, the
    trimmed body as insert text, and as delete count the integer
    written, or, when that is 0, 1 for a delete and 0 otherwise; the
    other records are those of the text after the block. *)
Theorem prompt_block_gives_typed_record (prose op dl dd body tail : string) :
  all_chars notBacktick prose = true ->
  operationName op ->
  digitText dl ->
  digitText dd ->
  decimalValue 0 dl <= maxExactInteger ->
  decimalValue 0 dd <= maxExactInteger ->
  no_early_fence body = true ->
  exists r,
    parseLatexDiff (prose +:+ patchBlock (metadataText op dl dd) body +:+ tail)
    = r :: parseLatexDiff tail
    /\ operation r = VString op
    /\ line r = VInt (decimalValue 0 dl)
    /\ deleteCount r = VInt (recordedCount op (decimalValue 0 dd))
    /\ insertContent r = trim body
    /\ raw r = patchBlock (metadataText op dl dd) body
    /\ integerLine r
    /\ knownOperation r.
Proof.
  intros Hprose Hop Hdl Hdd _ _ Hbody.
  destruct (typed_record prose op dl dd body tail Hprose Hop Hdl Hdd Hbody)
    as (r & H1 & H2 & H3 & H4 & H5 & H6).
  exists r. repeat (split; [assumption|]). split.
  - by exists (decimalValue 0 dl).
  - unfold knownOperation. rewrite H2.
    destruct Hop as [->|[->| ->]]; auto.
Qed.

Lemma prompt_block_gives_typed_record_witness :
  all_chars notBacktick "Removing them. " = true
  /\ operationName "delete"
  /\ digitText "21"
  /\ digitText "8"
  /\ decimalValue 0 "21" <= maxExactInteger
  /\ decimalValue 0 "8" <= maxExactInteger
  /\ no_early_fence "" = true
  /\ map (fun r => (line r, deleteCount r))
         (parseLatexDiff
            ("Removing them. " +:+ patchBlock (metadataText "delete" "21" "8") ""
               +:+ " Done."))
     = [(VInt 21, VInt 8)].
Proof.
  assert (H1 : all_chars notBacktick "Removing them. " = true) by reflexivity.
  assert (H2 : operationName "delete") by (right; right; reflexivity).
  assert (H3 : digitText "21") by (split; [discriminate | reflexivity]).
  assert (H4 : digitText "8") by (split; [discriminate | reflexivity]).
  assert (Hb1 : decimalValue 0 "21" <= maxExactInteger)
    by (vm_compute; discriminate).
  assert (Hb2 : decimalValue 0 "8" <= maxExactInteger)
    by (vm_compute; discriminate).
  assert (H5 : no_early_fence "" = true) by reflexivity.
  repeat (split; [assumption|]).
  destruct (prompt_block_gives_typed_record _ _ _ _ _ " Done." H1 H2 H3 H4
              Hb1 Hb2 H5)
    as (r & Hr & _ & Hl & Hd & _).
  rewrite Hr. cbn [map]. rewrite Hl, Hd. reflexivity.
Defined.

(** X28.  From the response to the text.  When the response is prose
    without a backtick, one block as in X27 and text without a
    backtick, and the line written is between 1 and [lineCount + 1] of
    the stored text, [askAI] leaves in the store the text whose lines
    are those before index [line - 1], then the lines of the trimmed
    body (none for a delete), then the lines from index [line - 1] on
    for an add, or from [line - 1 + count] on for a replace or a
    delete, where [count] is the count written, or 1 when 0 is
    written. *)
Theorem askAI_edits_the_lines_named (prose op dl dd body tail : string)
        (now : Z) (st : Agent) :
  all_chars notBacktick prose = true ->
  operationName op ->
  digitText dl ->
  digitText dd ->
  no_early_fence body = true ->
  all_chars notBacktick tail = true ->
  1 <= decimalValue 0 dl <= lineCount (documentContent st) + 1 ->
  let response := prose +:+ patchBlock (metadataText op dl dd) body +:+ tail in
  let lines := split_char LF (documentContent st) in
  let i := Z.to_nat (decimalValue 0 dl - 1) in
  let count := Z.to_nat (countOrOne (Some (decimalValue 0 dd))) in
  let patched :=
    join nl
      (take i lines
         ++ (if String.eqb op "delete" then [] else insertLines (trim body))
         ++ drop (i + (if String.eqb op "add" then 0 else count)) lines) in
  applyLatexDiffs (documentContent st) (parseLatexDiff response) = patched
  /\ documentContent (askAI response now st).1 = patched.
Proof.
  intros Hprose Hop Hdl Hdd Hbody Htail Hrange response lines i count patched.
  destruct (typed_record prose op dl dd body tail Hprose Hop Hdl Hdd Hbody)
    as (r & Hparse & Hrop & Hrline & Hrdc & Hrins & _).
  assert (Hnone : parseLatexDiff tail = []).
  { assert (Hblock : exec blockRegex tail = None) by (by apply exec_no_backtick).
    unfold parseLatexDiff. cbn [parseLoop]. by rewrite Hblock. }
  rewrite Hnone in Hparse. fold response in Hparse.
  pose proof (decimalValue_nonneg dd (proj2 Hdd) 0 ltac:(lia)) as Hd.
  assert (Happly : applyLatexDiffs (documentContent st) (parseLatexDiff response)
                   = patched).
  { rewrite Hparse, applyLatexDiffs_one. unfold applyBlock.
    rewrite Hrop, Hrline, Hrdc, Hrins, js_sub_int. fold lines.
    unfold lineCount in Hrange. fold lines in Hrange.
    subst patched. f_equal.
    destruct Hop as [->|[->| ->]]; cbn [strict_eq String.eqb Ascii.eqb Bool.eqb andb];
      cbn iota.
    - rewrite splice_in_range by lia. reflexivity.
    - change (VInt (recordedCount "replace" (decimalValue 0 dd)))
        with (optInt (Some (recordedCount "replace" (decimalValue 0 dd)))).
      rewrite js_or_count.
      assert (Hc : countOrOne (Some (recordedCount "replace" (decimalValue 0 dd)))
                   = countOrOne (Some (decimalValue 0 dd))).
      { unfold recordedCount, countOrOne. cbn [String.eqb Ascii.eqb Bool.eqb andb].
        destruct (decimalValue 0 dd =? 0) eqn:E; [done | by rewrite E]. }
      rewrite Hc. rewrite splice_in_range; [done|lia|].
      unfold countOrOne. destruct (decimalValue 0 dd =? 0); lia.
    - change (VInt (recordedCount "delete" (decimalValue 0 dd)))
        with (optInt (Some (recordedCount "delete" (decimalValue 0 dd)))).
      rewrite js_or_count.
      assert (Hc : countOrOne (Some (recordedCount "delete" (decimalValue 0 dd)))
                   = countOrOne (Some (decimalValue 0 dd))).
      { unfold recordedCount, countOrOne. cbn [String.eqb Ascii.eqb Bool.eqb andb].
        destruct (decimalValue 0 dd =? 0) eqn:E; [done | by rewrite E]. }
      rewrite Hc. rewrite splice_in_range; [done|lia|].
      unfold countOrOne. destruct (decimalValue 0 dd =? 0); lia. }
  split; [exact Happly|].
  assert (Hhas : hasLatexDiffs response = true).
  { subst response. rewrite patchBlock_openBlock. apply marker_in_block.
    apply (metadataText_line op dl dd Hop Hdl Hdd). }
  unfold askAI. rewrite Hhas. cbn [fst].
  by rewrite (proj1 (notify_frame _)).
Qed.

Lemma askAI_edits_the_lines_named_witness :
  let st := initializeDocument eightLines None loaded in
  all_chars notBacktick "Rewording. " = true
  /\ operationName "replace"
  /\ digitText "7"
  /\ digitText "2"
  /\ no_early_fence ("new" +:+ nl) = true
  /\ all_chars notBacktick "" = true
  /\ 1 <= decimalValue 0 "7" <= lineCount (documentContent st) + 1
  /\ documentContent
       (askAI ("Rewording. "
                 +:+ patchBlock (metadataText "replace" "7" "2") ("new" +:+ nl) +:+ "")
              3 st).1
     = join nl ["L1"; "L2"; "L3"; "L4"; "L5"; "L6"; "new"].
Proof.
  intros st.
  assert (H1 : all_chars notBacktick "Rewording. " = true) by reflexivity.
  assert (H2 : operationName "replace") by (right; left; reflexivity).
  assert (H3 : digitText "7") by (split; [discriminate | reflexivity]).
  assert (H4 : digitText "2") by (split; [discriminate | reflexivity]).
  assert (H5 : no_early_fence ("new" +:+ nl) = true) by reflexivity.
  assert (H6 : all_chars notBacktick "" = true) by reflexivity.
  assert (H7 : 1 <= decimalValue 0 "7" <= lineCount (documentContent st) + 1)
    by (vm_compute; split; congruence).
  repeat (split; [assumption|]).
  rewrite (proj2 (askAI_edits_the_lines_named _ _ _ _ _ _ 3 st H1 H2 H3 H4 H5 H6 H7)).
  reflexivity.
Defined.



(** ** One record at a valid line, whatever count it carries *)

Section OneRecord.








End OneRecord.



